(** * useMicroInteractions: a shallow embedding of [src/hooks/useMicroInteractions.ts]

    The hook attaches hover, focus, press, loading, magnetic, ripple and tilt
    feedback to one element.  The embedding keeps the layout of the source:

    - JavaScript numbers are binary64 floats ([PrimFloat.float]), so that
      [0 / 0] is [nan] exactly as in the source language;
    - a template literal is a list of pieces, literal text and interpolated
      numbers, in the order of the source text;
    - the option objects are records, one per interface of the source, with a
      property that may be absent as an [option]; the seven spreads over the
      defaults are also given on plain objects ([Obj.t], where a property may
      hold [undefined]), and the records are proved to read those literals;
    - the DOM the hook writes to (inline style, appended ripple spans, running
      animations, timers) is an explicit [World];
    - the hook's own cells (the four [useState] flags, the two [useMemo] cells
      and what each [useEffect] registered for its clean-up) are a [HookState],
      and one commit of the component is the function [commit].  *)

From Stdlib Require Import Bool List String Arith ZArith PArith Lia.
From Stdlib Require Import PrimFloat.
From Stdlib Require FloatAxioms FloatOps SpecFloat.
Import ListNotations.

Local Open Scope string_scope.
Local Open Scope list_scope.
Local Open Scope float_scope.

Set Implicit Arguments.
Set Warnings "-inexact-float".

(* ================================================================== *)
(** * JavaScript values used by the hook *)

Module JS.

(** [x || d] on a number-or-undefined operand: the left operand is kept
    when it is truthy; [undefined], [0], [-0] and [NaN] are falsy. *)
Definition truthy_num (x : float) : bool := negb (x =? 0) && negb (is_nan x).

Definition or_num (x : option float) (d : float) : float :=
  match x with
  | Some v => if truthy_num v then v else d
  | None => d
  end.

(** Strings: only the empty string is falsy. *)
Definition truthy_str (s : string) : bool := negb (s =? "")%string.

Definition or_str (x : option string) (d : string) : string :=
  match x with
  | Some v => if truthy_str v then v else d
  | None => d
  end.

(** [Math.max] on two arguments: [NaN] if either is [NaN], and [+0] is
    larger than [-0]. *)
Definition is_neg_zero (x : float) : bool := (x =? 0) && (1 / x <? 0).

Definition Math_max (a b : float) : float :=
  if is_nan a || is_nan b then nan
  else if a <? b then b
  else if (a =? b) && is_neg_zero a then b
  else a.

(** A destructuring default [{ f = d } = o]: the default is used when the
    property is absent or [undefined], which [None] stands for.  The same
    function reads one property of a spread [{ f: d, ...o }] over an object
    [o] that holds no property with the value [undefined]
    ([None]: the property is absent); the spread of an arbitrary object is
    modelled in [Obj] and in [literal] of each interface below. *)
Definition dflt {A : Type} (x : option A) (d : A) : A :=
  match x with
  | Some v => v
  | None => d
  end.

(** Pieces of a template literal. *)
Inductive piece : Type :=
| Lit (s : string)
| Num (x : float).

Definition Template : Type := list piece.

(** A plain string literal used where the source also assigns templates. *)
Definition lit (s : string) : Template := [Lit s].

End JS.
Import JS.

(** Plain objects as object literals build them. *)
Module Obj.
(** The values the option objects hold. *)
Inductive Value : Type :=
| VUndefined
| VBoolean (b : bool)
| VNumber (x : float)
| VString (s : string).

(** An object, as the sequence of property definitions that built it, in
    source order: a literal [{ a: 1, b: 2, ...o }] is the definitions of [a]
    and [b] followed by those of the own properties of [o].  A later
    definition of a name overwrites an earlier one. *)
Definition t : Type := list (string * Value).

(** The own property [k]: [None] when the object has no such property,
    [Some VUndefined] when it has one whose value is [undefined]. *)
Fixpoint get (k : string) (o : t) : option Value :=
  match o with
  | [] => None
  | (k', v) :: rest =>
      match get k rest with
      | Some later => Some later
      | None => if (k' =? k)%string then Some v else None
      end
  end.

(** The read [o.k]: a missing property reads as [undefined]. *)
Definition read (k : string) (o : t) : Value :=
  match get k o with
  | Some v => v
  | None => VUndefined
  end.

Definition defined (v : Value) : bool :=
  match v with
  | VUndefined => false
  | _ => true
  end.

(** Every one of the properties [keys] reads as a defined value. *)
Definition complete (keys : list string) (o : t) : bool :=
  forallb (fun k => defined (read k o)) keys.

(** An optional property of a typed object: defined with its value, or not
    defined at all. *)
Definition prop {A : Type} (k : string) (inj : A -> Value) (x : option A) : t :=
  match x with
  | Some v => [(k, inj v)]
  | None => []
  end.
End Obj.

(** A property of an interface is held as [F T]: [Partial] for the caller's
    object (every property optional: [None] is an absent property, [Some v] a
    property holding the value [v] of its type), [Full] for the object after
    the spread over the built-in defaults.  A caller's object that holds a
    property with the value [undefined] is not a [Partial] record; for the
    spreads such objects are covered by [literal], on [Obj.t]. *)
Definition Partial : Type -> Type := option.
Definition Full : Type -> Type := fun T => T.

(* ================================================================== *)
(** * The option interfaces ([MicroInteractionOptions]) and their defaults *)

Module Hover.
Record t (F : Type -> Type) : Type := mk {
  scale : F float;
  rotate : F float;
  translateY : F float;
  brightness : F float;
  saturate : F float;
  blur : F float;
  duration : F float;
  easing : F string
}.
Definition empty : t Partial := mk Partial None None None None None None None None.
Definition builtin : t Full :=
  mk Full 1.02 0 (-2) 1.1 1.1 0 200 "cubic-bezier(0.4, 0, 0.2, 1)".
(** The literal [hoverDefaults]: the property definitions written before
    the spread element, then [...hover]. *)
Definition defaults : Obj.t :=
  [("scale", Obj.VNumber 1.02); ("rotate", Obj.VNumber 0);
   ("translateY", Obj.VNumber (-2)); ("brightness", Obj.VNumber 1.1);
   ("saturate", Obj.VNumber 1.1); ("blur", Obj.VNumber 0);
   ("duration", Obj.VNumber 200);
   ("easing", Obj.VString "cubic-bezier(0.4, 0, 0.2, 1)")].
Definition literal (hover : Obj.t) : Obj.t := defaults ++ hover.
(** [{ ...d, ...o }] on a caller's object whose properties are absent or
    defined: the record reading of [literal]. *)
Definition spread (d : t Full) (o : t Partial) : t Full :=
  mk Full (dflt (scale o) (scale d)) (dflt (rotate o) (rotate d))
     (dflt (translateY o) (translateY d)) (dflt (brightness o) (brightness d))
     (dflt (saturate o) (saturate d)) (dflt (blur o) (blur d))
     (dflt (duration o) (duration d)) (dflt (easing o) (easing d)).
(** The records as objects. *)
Definition toObj (o : t Partial) : Obj.t :=
  Obj.prop "scale" Obj.VNumber (scale o) ++ Obj.prop "rotate" Obj.VNumber (rotate o)
  ++ Obj.prop "translateY" Obj.VNumber (translateY o)
  ++ Obj.prop "brightness" Obj.VNumber (brightness o)
  ++ Obj.prop "saturate" Obj.VNumber (saturate o)
  ++ Obj.prop "blur" Obj.VNumber (blur o)
  ++ Obj.prop "duration" Obj.VNumber (duration o)
  ++ Obj.prop "easing" Obj.VString (easing o).
Definition ofFull (p : t Full) : Obj.t :=
  [("scale", Obj.VNumber (scale p)); ("rotate", Obj.VNumber (rotate p));
   ("translateY", Obj.VNumber (translateY p));
   ("brightness", Obj.VNumber (brightness p));
   ("saturate", Obj.VNumber (saturate p)); ("blur", Obj.VNumber (blur p));
   ("duration", Obj.VNumber (duration p)); ("easing", Obj.VString (easing p))].
(** A resolved object read again as a caller object: every property present. *)
Definition given (p : t Full) : t Partial :=
  mk Partial (Some (scale p)) (Some (rotate p)) (Some (translateY p))
     (Some (brightness p)) (Some (saturate p)) (Some (blur p))
     (Some (duration p)) (Some (easing p)).
End Hover.

Module Focus.
Record t (F : Type -> Type) : Type := mk {
  scale : F float;
  glow : F bool;
  glowColor : F string;
  borderScale : F float;
  duration : F float
}.
Definition empty : t Partial := mk Partial None None None None None.
Definition builtin : t Full := mk Full 1.02 true "#3B82F6" 1.1 200.
Definition defaults : Obj.t :=
  [("scale", Obj.VNumber 1.02); ("glow", Obj.VBoolean true);
   ("glowColor", Obj.VString "#3B82F6"); ("borderScale", Obj.VNumber 1.1);
   ("duration", Obj.VNumber 200)].
Definition literal (focus : Obj.t) : Obj.t := defaults ++ focus.
Definition toObj (o : t Partial) : Obj.t :=
  Obj.prop "scale" Obj.VNumber (scale o) ++ Obj.prop "glow" Obj.VBoolean (glow o)
  ++ Obj.prop "glowColor" Obj.VString (glowColor o)
  ++ Obj.prop "borderScale" Obj.VNumber (borderScale o)
  ++ Obj.prop "duration" Obj.VNumber (duration o).
Definition ofFull (p : t Full) : Obj.t :=
  [("scale", Obj.VNumber (scale p)); ("glow", Obj.VBoolean (glow p));
   ("glowColor", Obj.VString (glowColor p));
   ("borderScale", Obj.VNumber (borderScale p));
   ("duration", Obj.VNumber (duration p))].
Definition spread (d : t Full) (o : t Partial) : t Full :=
  mk Full (dflt (scale o) (scale d)) (dflt (glow o) (glow d))
     (dflt (glowColor o) (glowColor d)) (dflt (borderScale o) (borderScale d))
     (dflt (duration o) (duration d)).
Definition given (p : t Full) : t Partial :=
  mk Partial (Some (scale p)) (Some (glow p)) (Some (glowColor p))
     (Some (borderScale p)) (Some (duration p)).
End Focus.

Module Active.
Record t (F : Type -> Type) : Type := mk {
  scale : F float;
  rotate : F float;
  duration : F float;
  feedback : F string   (* 'haptic' | 'visual' | 'both' *)
}.
Definition empty : t Partial := mk Partial None None None None.
Definition builtin : t Full := mk Full 0.95 0 100 "visual".
Definition defaults : Obj.t :=
  [("scale", Obj.VNumber 0.95); ("rotate", Obj.VNumber 0);
   ("duration", Obj.VNumber 100); ("feedback", Obj.VString "visual")].
Definition literal (active : Obj.t) : Obj.t := defaults ++ active.
Definition toObj (o : t Partial) : Obj.t :=
  Obj.prop "scale" Obj.VNumber (scale o) ++ Obj.prop "rotate" Obj.VNumber (rotate o)
  ++ Obj.prop "duration" Obj.VNumber (duration o)
  ++ Obj.prop "feedback" Obj.VString (feedback o).
Definition ofFull (p : t Full) : Obj.t :=
  [("scale", Obj.VNumber (scale p)); ("rotate", Obj.VNumber (rotate p));
   ("duration", Obj.VNumber (duration p)); ("feedback", Obj.VString (feedback p))].
Definition spread (d : t Full) (o : t Partial) : t Full :=
  mk Full (dflt (scale o) (scale d)) (dflt (rotate o) (rotate d))
     (dflt (duration o) (duration d)) (dflt (feedback o) (feedback d)).
Definition given (p : t Full) : t Partial :=
  mk Partial (Some (scale p)) (Some (rotate p)) (Some (duration p))
     (Some (feedback p)).
End Active.

(** [disabled] is declared by the interface; the hook never reads it (its
    defaults are commented out in the source). *)
Module Disabled.
Record t (F : Type -> Type) : Type := mk {
  opacity : F float;
  scale : F float;
  filter : F string
}.
End Disabled.

Module Loading.
Record t (F : Type -> Type) : Type := mk {
  animation : F string;   (* 'spin' | 'pulse' | 'bounce' | 'dots' *)
  duration : F float
}.
Definition empty : t Partial := mk Partial None None.
Definition builtin : t Full := mk Full "spin" 1000.
Definition defaults : Obj.t :=
  [("animation", Obj.VString "spin"); ("duration", Obj.VNumber 1000)].
Definition literal (loading : Obj.t) : Obj.t := defaults ++ loading.
Definition toObj (o : t Partial) : Obj.t :=
  Obj.prop "animation" Obj.VString (animation o)
  ++ Obj.prop "duration" Obj.VNumber (duration o).
Definition ofFull (p : t Full) : Obj.t :=
  [("animation", Obj.VString (animation p)); ("duration", Obj.VNumber (duration p))].
Definition spread (d : t Full) (o : t Partial) : t Full :=
  mk Full (dflt (animation o) (animation d)) (dflt (duration o) (duration d)).
Definition given (p : t Full) : t Partial :=
  mk Partial (Some (animation p)) (Some (duration p)).
End Loading.

Module Magnetic.
Record t (F : Type -> Type) : Type := mk {
  strength : F float;
  distance : F float
}.
Definition empty : t Partial := mk Partial None None.
Definition builtin : t Full := mk Full 0.5 100.
Definition defaults : Obj.t :=
  [("strength", Obj.VNumber 0.5); ("distance", Obj.VNumber 100)].
Definition literal (magnetic : Obj.t) : Obj.t := defaults ++ magnetic.
Definition toObj (o : t Partial) : Obj.t :=
  Obj.prop "strength" Obj.VNumber (strength o)
  ++ Obj.prop "distance" Obj.VNumber (distance o).
Definition ofFull (p : t Full) : Obj.t :=
  [("strength", Obj.VNumber (strength p)); ("distance", Obj.VNumber (distance p))].
Definition spread (d : t Full) (o : t Partial) : t Full :=
  mk Full (dflt (strength o) (strength d)) (dflt (distance o) (distance d)).
Definition given (p : t Full) : t Partial :=
  mk Partial (Some (strength p)) (Some (distance p)).
End Magnetic.

Module Ripple.
Record t (F : Type -> Type) : Type := mk {
  color : F string;
  duration : F float;
  scale : F float
}.
Definition empty : t Partial := mk Partial None None None.
Definition builtin : t Full := mk Full "rgba(255, 255, 255, 0.6)" 600 2.
Definition defaults : Obj.t :=
  [("color", Obj.VString "rgba(255, 255, 255, 0.6)");
   ("duration", Obj.VNumber 600); ("scale", Obj.VNumber 2)].
Definition literal (ripple : Obj.t) : Obj.t := defaults ++ ripple.
Definition toObj (o : t Partial) : Obj.t :=
  Obj.prop "color" Obj.VString (color o)
  ++ Obj.prop "duration" Obj.VNumber (duration o)
  ++ Obj.prop "scale" Obj.VNumber (scale o).
Definition ofFull (p : t Full) : Obj.t :=
  [("color", Obj.VString (color p)); ("duration", Obj.VNumber (duration p));
   ("scale", Obj.VNumber (scale p))].
Definition spread (d : t Full) (o : t Partial) : t Full :=
  mk Full (dflt (color o) (color d)) (dflt (duration o) (duration d))
     (dflt (scale o) (scale d)).
Definition given (p : t Full) : t Partial :=
  mk Partial (Some (color p)) (Some (duration p)) (Some (scale p)).
End Ripple.

Module Tilt.
Record t (F : Type -> Type) : Type := mk {
  maxTilt : F float;
  scale : F float;
  speed : F float
}.
Definition empty : t Partial := mk Partial None None None.
Definition builtin : t Full := mk Full 10 1.02 400.
Definition defaults : Obj.t :=
  [("maxTilt", Obj.VNumber 10); ("scale", Obj.VNumber 1.02);
   ("speed", Obj.VNumber 400)].
Definition literal (tilt : Obj.t) : Obj.t := defaults ++ tilt.
Definition toObj (o : t Partial) : Obj.t :=
  Obj.prop "maxTilt" Obj.VNumber (maxTilt o)
  ++ Obj.prop "scale" Obj.VNumber (scale o)
  ++ Obj.prop "speed" Obj.VNumber (speed o).
Definition ofFull (p : t Full) : Obj.t :=
  [("maxTilt", Obj.VNumber (maxTilt p)); ("scale", Obj.VNumber (scale p));
   ("speed", Obj.VNumber (speed p))].
Definition spread (d : t Full) (o : t Partial) : t Full :=
  mk Full (dflt (maxTilt o) (maxTilt d)) (dflt (scale o) (scale d))
     (dflt (speed o) (speed d)).
Definition given (p : t Full) : t Partial :=
  mk Partial (Some (maxTilt p)) (Some (scale p)) (Some (speed p)).
End Tilt.

(** The argument of the hook, as the interface types it with every property
    absent or holding a value of its type.  The three top-level defaults are
    destructuring defaults, which also replace [undefined]; for the seven
    families, whose defaults are applied by a spread, a caller's object with an
    [undefined]-valued property is an [Obj.t] (see [literalOf]). *)
Record MicroInteractionOptions : Type := mkOptions {
  gpu : option bool;
  performance : option string;  (* 'auto' | 'high' | 'balanced' | 'economy' *)
  prefersReducedMotion : option bool;
  hover : option (Hover.t Partial);
  focus : option (Focus.t Partial);
  active : option (Active.t Partial);
  disabled : option (Disabled.t Partial);
  loading : option (Loading.t Partial);
  magnetic : option (Magnetic.t Partial);
  ripple : option (Ripple.t Partial);
  tilt : option (Tilt.t Partial)
}.

(** [useMicroInteractions()] without an argument: [options = {}]. *)
Definition noOptions : MicroInteractionOptions :=
  mkOptions None None None None None None None None None None None.

(** What the body of the hook has in scope after the destructuring with
    defaults and the seven spreads, for an argument as typed above
    ([resolve_literal]: each family holds the properties of its literal). *)
Record Resolved : Type := mkResolved {
  r_gpu : bool;
  r_performance : string;
  r_prefersReducedMotion : bool;
  hoverDefaults : Hover.t Full;
  focusDefaults : Focus.t Full;
  activeDefaults : Active.t Full;
  loadingDefaults : Loading.t Full;
  magneticDefaults : Magnetic.t Full;
  rippleDefaults : Ripple.t Full;
  tiltDefaults : Tilt.t Full
}.

Definition resolve (o : MicroInteractionOptions) : Resolved :=
  mkResolved
    (dflt (gpu o) true)
    (dflt (performance o) "auto")
    (dflt (prefersReducedMotion o) false)
    (Hover.spread Hover.builtin (dflt (hover o) Hover.empty))
    (Focus.spread Focus.builtin (dflt (focus o) Focus.empty))
    (Active.spread Active.builtin (dflt (active o) Active.empty))
    (Loading.spread Loading.builtin (dflt (loading o) Loading.empty))
    (Magnetic.spread Magnetic.builtin (dflt (magnetic o) Magnetic.empty))
    (Ripple.spread Ripple.builtin (dflt (ripple o) Ripple.empty))
    (Tilt.spread Tilt.builtin (dflt (tilt o) Tilt.empty)).

(** A resolved parameter set handed back as the hook's argument. *)
Definition asOptions (r : Resolved) : MicroInteractionOptions :=
  mkOptions
    (Some (r_gpu r)) (Some (r_performance r)) (Some (r_prefersReducedMotion r))
    (Some (Hover.given (hoverDefaults r)))
    (Some (Focus.given (focusDefaults r)))
    (Some (Active.given (activeDefaults r)))
    None
    (Some (Loading.given (loadingDefaults r)))
    (Some (Magnetic.given (magneticDefaults r)))
    (Some (Ripple.given (rippleDefaults r)))
    (Some (Tilt.given (tiltDefaults r))).

(** The seven spreads of the hook's body, by family. *)
Inductive Family : Type :=
| hoverF | focusF | activeF | loadingF | magneticF | rippleF | tiltF.

(** The property definitions a family's literal writes before its spread
    element. *)
Definition defaultsOf (f : Family) : Obj.t :=
  match f with
  | hoverF => Hover.defaults
  | focusF => Focus.defaults
  | activeF => Active.defaults
  | loadingF => Loading.defaults
  | magneticF => Magnetic.defaults
  | rippleF => Ripple.defaults
  | tiltF => Tilt.defaults
  end.

(** [const xDefaults = { ..., ...x }] for the caller's object [x]. *)
Definition literalOf (f : Family) (caller : Obj.t) : Obj.t :=
  match f with
  | hoverF => Hover.literal caller
  | focusF => Focus.literal caller
  | activeF => Active.literal caller
  | loadingF => Loading.literal caller
  | magneticF => Magnetic.literal caller
  | rippleF => Ripple.literal caller
  | tiltF => Tilt.literal caller
  end.

(** The parameters of a family: the names its literal defines. *)
Definition keysOf (f : Family) : list string := map fst (defaultsOf f).

(** The caller's object of a family in the hook's argument, after the
    destructuring default [x = {}]. *)
Definition callerOf (f : Family) (o : MicroInteractionOptions) : Obj.t :=
  match f with
  | hoverF => Hover.toObj (dflt (hover o) Hover.empty)
  | focusF => Focus.toObj (dflt (focus o) Focus.empty)
  | activeF => Active.toObj (dflt (active o) Active.empty)
  | loadingF => Loading.toObj (dflt (loading o) Loading.empty)
  | magneticF => Magnetic.toObj (dflt (magnetic o) Magnetic.empty)
  | rippleF => Ripple.toObj (dflt (ripple o) Ripple.empty)
  | tiltF => Tilt.toObj (dflt (tilt o) Tilt.empty)
  end.

(** A family of the resolved parameter set, as an object. *)
Definition resolvedOf (f : Family) (r : Resolved) : Obj.t :=
  match f with
  | hoverF => Hover.ofFull (hoverDefaults r)
  | focusF => Focus.ofFull (focusDefaults r)
  | activeF => Active.ofFull (activeDefaults r)
  | loadingF => Loading.ofFull (loadingDefaults r)
  | magneticF => Magnetic.ofFull (magneticDefaults r)
  | rippleF => Ripple.ofFull (rippleDefaults r)
  | tiltF => Tilt.ofFull (tiltDefaults r)
  end.

(* ================================================================== *)
(** * The environment the hook reads *)

(** [navigator.connection] *)
Record Connection : Type := mkConnection {
  effectiveType : option string
}.

(** The properties of [navigator] the hook looks at; each may be missing. *)
Record Navigator : Type := mkNavigator {
  deviceMemory : option float;
  hardwareConcurrency : option float;
  connection : option Connection;
  hasVibrate : bool               (* 'vibrate' in navigator *)
}.

(** [window.matchMedia('(prefers-reduced-motion: reduce)').matches] *)
Record Window : Type := mkWindow {
  reducedMotionQuery : bool
}.

(** The body of the [useMemo] for [effectivePerformance]. *)
Definition effectivePerformance (performance : string) (nav : Navigator) : string :=
  if negb (performance =? "auto")%string then performance
  else
    let deviceMemory := or_num (deviceMemory nav) 4 in
    let hardwareConcurrency := or_num (hardwareConcurrency nav) 4 in
    let connectionType :=
      or_str (match connection nav with
              | Some c => effectiveType c
              | None => None
              end) "4g" in
    if (deviceMemory <? 2) || (hardwareConcurrency <? 2)
       || (connectionType =? "slow-2g")%string
    then "economy"
    else if (8 <=? deviceMemory) && (8 <=? hardwareConcurrency)
            && (connectionType =? "4g")%string
    then "high"
    else "balanced".

(** The body of the [useMemo] for [shouldReduceMotion]. *)
Definition shouldReduceMotion (prefersReducedMotion : bool) (win : Window) : bool :=
  prefersReducedMotion || reducedMotionQuery win.

(** [getEffectScale], the [switch] inside [applyHoverEffects]. *)
Definition getEffectScale (effectivePerformance : string) : float :=
  if (effectivePerformance =? "economy")%string then 0.5
  else if (effectivePerformance =? "balanced")%string then 0.8
  else if (effectivePerformance =? "high")%string then 1.0
  else 0.8.

(* ================================================================== *)
(** * The element the ref points to, and the rest of the page *)

(** The inline style of the element.  A property holds the text last
    assigned to it. *)
Module CSS.
Record t : Type := mk {
  transform : Template;
  filter : Template;
  transition : Template;
  boxShadow : string;
  willChange : string;
  backfaceVisibility : string;
  perspective : string;
  transformStyle : string
}.
Definition set_transform (v : Template) (s : t) : t :=
  mk v (filter s) (transition s) (boxShadow s) (willChange s)
     (backfaceVisibility s) (perspective s) (transformStyle s).
Definition set_filter (v : Template) (s : t) : t :=
  mk (transform s) v (transition s) (boxShadow s) (willChange s)
     (backfaceVisibility s) (perspective s) (transformStyle s).
Definition set_transition (v : Template) (s : t) : t :=
  mk (transform s) (filter s) v (boxShadow s) (willChange s)
     (backfaceVisibility s) (perspective s) (transformStyle s).
Definition set_boxShadow (v : string) (s : t) : t :=
  mk (transform s) (filter s) (transition s) v (willChange s)
     (backfaceVisibility s) (perspective s) (transformStyle s).
Definition set_willChange (v : string) (s : t) : t :=
  mk (transform s) (filter s) (transition s) (boxShadow s) v
     (backfaceVisibility s) (perspective s) (transformStyle s).
Definition set_backfaceVisibility (v : string) (s : t) : t :=
  mk (transform s) (filter s) (transition s) (boxShadow s) (willChange s)
     v (perspective s) (transformStyle s).
Definition set_perspective (v : string) (s : t) : t :=
  mk (transform s) (filter s) (transition s) (boxShadow s) (willChange s)
     (backfaceVisibility s) v (transformStyle s).
Definition set_transformStyle (v : string) (s : t) : t :=
  mk (transform s) (filter s) (transition s) (boxShadow s) (willChange s)
     (backfaceVisibility s) (perspective s) v.
(** An element without inline style. *)
Definition none : t := mk (lit "") (lit "") (lit "") "" "" "" "" "".
End CSS.

(** [element.getBoundingClientRect()] *)
Record DOMRect : Type := mkRect {
  left : float;
  top : float;
  width : float;
  height : float
}.

(** A mouse event, as far as the hook reads it. *)
Record MouseEvent : Type := mkMouse {
  clientX : float;
  clientY : float
}.

(** One keyframe of the loading animations. *)
Record Keyframe : Type := mkKeyframe {
  kf_transform : option string;
  kf_opacity : option float
}.

Inductive PlayState : Type := running | idle.

(** What the read [keyframes[animation]] yields, and so the first argument
    of [element.animate]: the keyframe list of an own property of the table,
    a member the table inherits from [Object.prototype] (a function, or
    [Object.prototype] itself for ['__proto__']), or [undefined]. *)
Inductive KeyframesArg : Type :=
| Frames (kf : list Keyframe)
| Inherited (member : string)
| Undefined.

(** The object returned by [element.animate(keyframes, options)]; the options
    of the source are [iterations: Infinity] and [easing: 'ease-in-out']
    at every call. *)
Record Animation : Type := mkAnimation {
  anim_id : nat;
  anim_keyframes : KeyframesArg;
  anim_duration : float;
  anim_state : PlayState
}.

(** A ripple [<span>] appended to the element. *)
Record RippleNode : Type := mkRippleNode {
  node_id : nat;
  cssText : Template
}.

(** A pending [setTimeout] of [createRipple]: after [timer_delay] ms it
    removes the span [timer_node]. *)
Record Timer : Type := mkTimer {
  timer_delay : float;
  timer_node : nat
}.

Record World : Type := mkWorld {
  attached : bool;                 (* [ref.current] is the element, not null *)
  style : CSS.t;                   (* [element.style] *)
  rect : DOMRect;
  children : list RippleNode;      (* spans appended by [createRipple] *)
  animations : list Animation;     (* every handle [element.animate] returned *)
  rippleKeyframes : option float;  (* [<style id="ripple-keyframes">] and the
                                      scale written into it, once it exists *)
  timers : list Timer;
  vibrations : list float;         (* calls of [navigator.vibrate] *)
  fresh : nat                      (* next node or animation identity *)
}.

Definition set_style (f : CSS.t -> CSS.t) (w : World) : World :=
  mkWorld (attached w) (f (style w)) (rect w) (children w) (animations w)
          (rippleKeyframes w) (timers w) (vibrations w) (fresh w).
Definition set_attached (b : bool) (w : World) : World :=
  mkWorld b (style w) (rect w) (children w) (animations w)
          (rippleKeyframes w) (timers w) (vibrations w) (fresh w).
Definition set_rect (r : DOMRect) (w : World) : World :=
  mkWorld (attached w) (style w) r (children w) (animations w)
          (rippleKeyframes w) (timers w) (vibrations w) (fresh w).
Definition set_children (c : list RippleNode) (w : World) : World :=
  mkWorld (attached w) (style w) (rect w) c (animations w)
          (rippleKeyframes w) (timers w) (vibrations w) (fresh w).
Definition set_animations (a : list Animation) (w : World) : World :=
  mkWorld (attached w) (style w) (rect w) (children w) a
          (rippleKeyframes w) (timers w) (vibrations w) (fresh w).
Definition set_rippleKeyframes (k : option float) (w : World) : World :=
  mkWorld (attached w) (style w) (rect w) (children w) (animations w)
          k (timers w) (vibrations w) (fresh w).
Definition set_timers (t : list Timer) (w : World) : World :=
  mkWorld (attached w) (style w) (rect w) (children w) (animations w)
          (rippleKeyframes w) t (vibrations w) (fresh w).
Definition set_vibrations (v : list float) (w : World) : World :=
  mkWorld (attached w) (style w) (rect w) (children w) (animations w)
          (rippleKeyframes w) (timers w) v (fresh w).
Definition set_fresh (n : nat) (w : World) : World :=
  mkWorld (attached w) (style w) (rect w) (children w) (animations w)
          (rippleKeyframes w) (timers w) (vibrations w) n.

(* ================================================================== *)
(** * The effects, in the order the hook declares them *)

(** [setupGPUOptimization] *)
Definition setupGPUOptimization (gpu : bool) (effectivePerformance : string)
    (w : World) : World :=
  if negb (attached w) || negb gpu then w
  else
    let w := set_style (CSS.set_willChange "transform, opacity, filter") w in
    let w := set_style (CSS.set_backfaceVisibility "hidden") w in
    let w := set_style (CSS.set_perspective "1000px") w in
    if (effectivePerformance =? "economy")%string
    then set_style (CSS.set_transformStyle "flat") w
    else set_style (CSS.set_transformStyle "preserve-3d") w.

(** The clean-up of the first effect.  [animationFrameRef.current] is never
    assigned, so the [cancelAnimationFrame] branch is not taken; [gpu] is the
    value the closure captured. *)
Definition gpuCleanup (gpu : bool) (w : World) : World :=
  if attached w && gpu then set_style (CSS.set_willChange "auto") w else w.

(** [applyHoverEffects] *)
Definition applyHoverEffects (r : Resolved) (shouldReduceMotion : bool)
    (effectivePerformance : string) (isHovered : bool) (w : World) : World :=
  if negb (attached w) || shouldReduceMotion then w
  else
    let hd := hoverDefaults r in
    let gpuTransform := if r_gpu r then "translateZ(0)" else "" in
    let effectScale := getEffectScale effectivePerformance in
    let adjustedDuration :=
      if shouldReduceMotion then 1 else Hover.duration hd * effectScale in
    if isHovered then
      let scale := 1 + (Hover.scale hd - 1) * effectScale in
      let translateY := Hover.translateY hd * effectScale in
      let brightness := 1 + (Hover.brightness hd - 1) * effectScale in
      let transform :=
        [Lit "scale("; Num scale; Lit ") rotate("; Num (Hover.rotate hd);
         Lit "deg) translateY("; Num translateY; Lit "px) "; Lit gpuTransform] in
      let filter :=
        if negb (effectivePerformance =? "economy")%string
        then [Lit "brightness("; Num brightness; Lit ") saturate(";
              Num (Hover.saturate hd); Lit ") blur("; Num (Hover.blur hd);
              Lit "px)"]
        else lit "none" in
      let w := set_style (CSS.set_transform transform) w in
      let w := set_style (CSS.set_filter filter) w in
      set_style (CSS.set_transition
                   [Lit "all "; Num adjustedDuration; Lit "ms ";
                    Lit (Hover.easing hd)]) w
    else
      let w := set_style (CSS.set_transform
                            (lit (if r_gpu r then "translateZ(0)" else ""))) w in
      set_style (CSS.set_filter (lit "none")) w.

(** The focus effect. *)
Definition focusEffect (r : Resolved) (isFocused : bool) (w : World) : World :=
  if negb (attached w) then w
  else
    let fd := focusDefaults r in
    if isFocused then
      let w := if Focus.glow fd
               then set_style (CSS.set_boxShadow
                                 ("0 0 20px " ++ Focus.glowColor fd)) w
               else w in
      let w := set_style (CSS.set_transform
                            [Lit "scale("; Num (Focus.scale fd); Lit ")"]) w in
      set_style (CSS.set_transition
                   [Lit "all "; Num (Focus.duration fd); Lit "ms ease-out"]) w
    else set_style (CSS.set_boxShadow "none") w.

(** The active (press) effect. *)
Definition activeEffect (r : Resolved) (nav : Navigator) (isActive : bool)
    (w : World) : World :=
  if negb (attached w) then w
  else
    let ad := activeDefaults r in
    if isActive then
      let transform :=
        [Lit "scale("; Num (Active.scale ad); Lit ") rotate(";
         Num (Active.rotate ad); Lit "deg)"] in
      let w := set_style (CSS.set_transform transform) w in
      let w := set_style (CSS.set_transition
                            [Lit "all "; Num (Active.duration ad);
                             Lit "ms ease-out"]) w in
      if (Active.feedback ad =? "haptic")%string
         || (Active.feedback ad =? "both")%string
      then if hasVibrate nav
           then set_vibrations (vibrations w ++ [10]) w
           else w
      else w
    else w.

(** The property names every object literal inherits: the own properties of
    the standard [Object.prototype] (no script has added to it). *)
Definition objectPrototypeMembers : list string :=
  ["constructor"; "__defineGetter__"; "__defineSetter__"; "hasOwnProperty";
   "__lookupGetter__"; "__lookupSetter__"; "isPrototypeOf";
   "propertyIsEnumerable"; "toString"; "valueOf"; "__proto__";
   "toLocaleString"].

(** The [keyframes] table of the loading effect and the read
    [keyframes[animation]].  The table is an object literal: a name that is
    not one of its four keys is looked up on [Object.prototype], and only a
    name that is not found there either reads as [undefined]. *)
Definition keyframes (animation : string) : KeyframesArg :=
  if (animation =? "spin")%string then
    Frames [mkKeyframe (Some "rotate(0deg)") None;
            mkKeyframe (Some "rotate(360deg)") None]
  else if (animation =? "pulse")%string then
    Frames [mkKeyframe (Some "scale(1)") (Some 1);
            mkKeyframe (Some "scale(1.05)") (Some 0.8);
            mkKeyframe (Some "scale(1)") (Some 1)]
  else if (animation =? "bounce")%string then
    Frames [mkKeyframe (Some "translateY(0)") None;
            mkKeyframe (Some "translateY(-10px)") None;
            mkKeyframe (Some "translateY(0)") None]
  else if (animation =? "dots")%string then
    Frames [mkKeyframe None (Some 0.4);
            mkKeyframe None (Some 1);
            mkKeyframe None (Some 0.4)]
  else if existsb (String.eqb animation) objectPrototypeMembers then
    Inherited animation
  else Undefined.

(** [element.animate]: a new handle, playing.  The handle records the
    argument it was given; what the browser makes of an argument that is not
    a keyframe list is not part of the hook. *)
Definition animate (kf : KeyframesArg) (duration : float)
    (w : World) : nat * World :=
  let id := fresh w in
  (id, set_fresh (S id)
         (set_animations (animations w ++ [mkAnimation id kf duration running]) w)).

(** [anim.cancel()] *)
Definition cancel (id : nat) (w : World) : World :=
  set_animations
    (map (fun a => if Nat.eqb (anim_id a) id
                   then mkAnimation (anim_id a) (anim_keyframes a)
                                    (anim_duration a) idle
                   else a)
         (animations w)) w.

(** The loading effect: the handle its clean-up will cancel, if it made one. *)
Definition loadingEffect (r : Resolved) (isLoading : bool) (w : World)
    : option nat * World :=
  if negb (attached w) || negb isLoading then (None, w)
  else
    let animation := Loading.animation (loadingDefaults r) in
    let duration := Loading.duration (loadingDefaults r) in
    let aw := animate (keyframes animation) duration w in
    (Some (fst aw), snd aw).

Definition loadingCleanup (cell : option nat) (w : World) : World :=
  match cell with
  | Some anim => cancel anim w
  | None => w
  end.

(** The magnetic effect: its two listeners close over [magneticDefaults] of
    the render that registered them. *)
Module MagneticEffect.

Definition handleMouseMove (md : Magnetic.t Full) (e : MouseEvent)
    (w : World) : World :=
  let rect := rect w in
  let centerX := left rect + width rect / 2 in
  let centerY := top rect + height rect / 2 in
  let deltaX := clientX e - centerX in
  let deltaY := clientY e - centerY in
  let distance := sqrt (deltaX * deltaX + deltaY * deltaY) in
  if distance <? Magnetic.distance md then
    let strength := Magnetic.strength md in
    let translateX :=
      (deltaX / distance) * strength * (Magnetic.distance md - distance) in
    let translateY :=
      (deltaY / distance) * strength * (Magnetic.distance md - distance) in
    set_style (CSS.set_transform
                 [Lit "translate("; Num translateX; Lit "px, ";
                  Num translateY; Lit "px)"]) w
  else set_style (CSS.set_transform (lit "translate(0, 0)")) w.

Definition handleMouseLeave (w : World) : World :=
  set_style (CSS.set_transform (lit "translate(0, 0)")) w.

(** The body of the effect: the closure it registers, if any. *)
Definition effect (r : Resolved) (w : World) : option (Magnetic.t Full) :=
  if negb (attached w) || negb (truthy_num (Magnetic.strength (magneticDefaults r)))
  then None
  else Some (magneticDefaults r).

End MagneticEffect.

(** The tilt effect. *)
Module TiltEffect.

Definition handleMouseMove (td : Tilt.t Full) (e : MouseEvent)
    (w : World) : World :=
  let rect := rect w in
  let centerX := left rect + width rect / 2 in
  let centerY := top rect + height rect / 2 in
  let deltaX := (clientX e - centerX) / (width rect / 2) in
  let deltaY := (clientY e - centerY) / (height rect / 2) in
  let tiltX := deltaY * Tilt.maxTilt td in
  let tiltY := deltaX * Tilt.maxTilt td in
  let w := set_style (CSS.set_transform
                        [Lit "perspective(1000px) rotateX("; Num (- tiltX);
                         Lit "deg) rotateY("; Num tiltY; Lit "deg) scale(";
                         Num (Tilt.scale td); Lit ")"]) w in
  set_style (CSS.set_transition
               [Lit "transform "; Num (Tilt.speed td); Lit "ms ease-out"]) w.

Definition handleMouseLeave (w : World) : World :=
  set_style (CSS.set_transform
               (lit "perspective(1000px) rotateX(0deg) rotateY(0deg) scale(1)")) w.

Definition effect (r : Resolved) (w : World) : option (Tilt.t Full) :=
  if negb (attached w) || negb (truthy_num (Tilt.maxTilt (tiltDefaults r)))
  then None
  else Some (tiltDefaults r).

End TiltEffect.

(** The [cssText] of a ripple span (the layout white space of the template
    literal is not kept). *)
Definition rippleCssText (color : string) (duration x y size : float) : Template :=
  [Lit "position: absolute; border-radius: 50%; background: "; Lit color;
   Lit "; transform: scale(0); animation: ripple-animation "; Num duration;
   Lit "ms ease-out; left: "; Num x; Lit "px; top: "; Num y;
   Lit "px; width: "; Num size; Lit "px; height: "; Num size;
   Lit "px; pointer-events: none;"].

(** [createRipple] *)
Definition createRipple (r : Resolved) (e : MouseEvent) (w : World) : World :=
  if negb (attached w) then w
  else
    let rd := rippleDefaults r in
    let rect := rect w in
    let size := Math_max (width rect) (height rect) in
    let x := clientX e - left rect - size / 2 in
    let y := clientY e - top rect - size / 2 in
    let ripple :=
      mkRippleNode (fresh w)
                   (rippleCssText (Ripple.color rd) (Ripple.duration rd) x y size) in
    let w := set_fresh (S (fresh w)) w in
    let w := match rippleKeyframes w with
             | None => set_rippleKeyframes (Some (Ripple.scale rd)) w
             | Some _ => w
             end in
    let w := set_children (children w ++ [ripple]) w in
    set_timers (timers w ++ [mkTimer (Ripple.duration rd) (node_id ripple)]) w.

(** [handleClick] *)
Definition handleClick (r : Resolved) (e : MouseEvent) (w : World) : World :=
  if truthy_str (Ripple.color (rippleDefaults r)) then createRipple r e w else w.

(** The callback of a ripple's [setTimeout]: [ripple.remove()]. *)
Definition removeRipple (id : nat) (w : World) : World :=
  set_children (filter (fun n => negb (Nat.eqb (node_id n) id)) (children w)) w.

(* ================================================================== *)
(** * The hook's cells and one commit of the component *)

Record HookState : Type := mkHook {
  isHovered : bool;
  isFocused : bool;
  isActive : bool;
  isLoading : bool;
  perfMemo : option (string * string);      (* deps [performance], value *)
  motionMemo : option (bool * bool);        (* deps [prefersReducedMotion], value *)
  gpuEffect : option (bool * string);       (* first effect: [gpu] and the tier
                                               [setupGPUOptimization] closed over *)
  loadingEffectCell : option nat;           (* the handle its clean-up cancels *)
  magneticListeners : option (Magnetic.t Full);
  tiltListeners : option (Tilt.t Full)
}.

(** The cells of a component that has not rendered yet. *)
Definition initialHook : HookState :=
  mkHook false false false false None None None None None None.

(** [useMemo]: the stored value is reused while the dependency is the same. *)
Definition useMemo {D V : Type} (same : D -> D -> bool) (cell : option (D * V))
    (deps : D) (compute : V) : D * V :=
  match cell with
  | Some (d, v) => if same d deps then (d, v) else (deps, compute)
  | None => (deps, compute)
  end.

(** One render followed by its effects.  The seven [...Defaults] objects are
    built anew by every render, so every effect that lists one of them (or
    [applyHoverEffects], which lists [hoverDefaults]) runs again at every
    commit; only the first effect is skipped while [gpu] and the tier are
    unchanged.  The clean-ups of the previous commit run first, then the
    effects, both in the order of declaration. *)
Definition perfCell (o : MicroInteractionOptions) (nav : Navigator)
    (h : HookState) : string * string :=
  let r := resolve o in
  useMemo String.eqb (perfMemo h) (r_performance r)
          (effectivePerformance (r_performance r) nav).

Definition motionCell (o : MicroInteractionOptions) (win : Window)
    (h : HookState) : bool * bool :=
  let r := resolve o in
  useMemo Bool.eqb (motionMemo h) (r_prefersReducedMotion r)
          (shouldReduceMotion (r_prefersReducedMotion r) win).

(** The tier and the reduce-motion flag a render of [o] works with. *)
Definition memoTier (o : MicroInteractionOptions) (nav : Navigator)
    (h : HookState) : string := snd (perfCell o nav h).
Definition memoReduce (o : MicroInteractionOptions) (win : Window)
    (h : HookState) : bool := snd (motionCell o win h).

Definition commit (o : MicroInteractionOptions) (nav : Navigator) (win : Window)
    (h : HookState) (w : World) : HookState * World :=
  let r := resolve o in
  let pm := perfCell o nav h in
  let mm := motionCell o win h in
  let tier := memoTier o nav h in
  let reduce := memoReduce o win h in
  let gpuRuns :=
    match gpuEffect h with
    | Some (g, t) => negb (Bool.eqb g (r_gpu r) && String.eqb t tier)
    | None => true
    end in
  (* clean-ups *)
  let w := match gpuEffect h with
           | Some (g, _) => if gpuRuns then gpuCleanup g w else w
           | None => w
           end in
  let w := loadingCleanup (loadingEffectCell h) w in
  (* effects *)
  let w := if gpuRuns then setupGPUOptimization (r_gpu r) tier w else w in
  let w := applyHoverEffects r reduce tier (isHovered h) w in
  let w := focusEffect r (isFocused h) w in
  let w := activeEffect r nav (isActive h) w in
  let le := loadingEffect r (isLoading h) w in
  (mkHook (isHovered h) (isFocused h) (isActive h) (isLoading h)
          (Some pm) (Some mm) (Some (r_gpu r, tier)) (fst le)
          (MagneticEffect.effect r w) (TiltEffect.effect r w),
   snd le).

(** Unmounting.  React detaches the ref ([ref.current = null]) when it
    removes the element, before the clean-ups of the effects run: the GPU
    clean-up then fails its test [ref.current && gpu] and leaves
    [will-change] as it is, while [anim.cancel()] and the [removeEventListener]
    calls go through the element captured by their closures. *)
Definition unmountEffects (h : HookState) (w : World) : HookState * World :=
  let w := set_attached false w in
  let w := match gpuEffect h with
           | Some (g, _) => gpuCleanup g w
           | None => w
           end in
  let w := loadingCleanup (loadingEffectCell h) w in
  (mkHook (isHovered h) (isFocused h) (isActive h) (isLoading h)
          (perfMemo h) (motionMemo h) None None None None,
   w).

(* ================================================================== *)
(** * The controller: a mounted hook and what can happen to it *)

Record Controller : Type := mkController {
  options : MicroInteractionOptions;
  navigator : Navigator;
  window : Window;
  mounted : bool;
  hook : HookState;
  world : World
}.

Inductive Flag : Type := Hovered | Focused | Activated | LoadingFlag.

Definition getFlag (f : Flag) (h : HookState) : bool :=
  match f with
  | Hovered => isHovered h
  | Focused => isFocused h
  | Activated => isActive h
  | LoadingFlag => isLoading h
  end.

Definition putFlag (f : Flag) (b : bool) (h : HookState) : HookState :=
  mkHook (match f with Hovered => b | _ => isHovered h end)
         (match f with Focused => b | _ => isFocused h end)
         (match f with Activated => b | _ => isActive h end)
         (match f with LoadingFlag => b | _ => isLoading h end)
         (perfMemo h) (motionMemo h) (gpuEffect h) (loadingEffectCell h)
         (magneticListeners h) (tiltListeners h).

Definition recommit (c : Controller) (o : MicroInteractionOptions)
    (h : HookState) : Controller :=
  let hw := commit o (navigator c) (window c) h (world c) in
  mkController o (navigator c) (window c) true (fst hw) (snd hw).

(** Mounting the component on a page. *)
Definition mount (o : MicroInteractionOptions) (nav : Navigator) (win : Window)
    (w : World) : Controller :=
  recommit (mkController o nav win true initialHook w) o initialHook.

(** A [useState] setter: a new value schedules a render, the same value does
    not; nothing happens once the component is unmounted. *)
Definition setState (f : Flag) (b : bool) (c : Controller) : Controller :=
  if negb (mounted c) || Bool.eqb (getFlag f (hook c)) b then c
  else recommit c (options c) (putFlag f b (hook c)).

Definition withWorld (f : World -> World) (c : Controller) : Controller :=
  mkController (options c) (navigator c) (window c) (mounted c) (hook c)
               (f (world c)).

Inductive Event : Type :=
(* the handlers the hook returns *)
| onMouseEnter | onMouseLeave
| onFocus | onBlur
| onMouseDown | onMouseUp
| onClick (e : MouseEvent)
| setIsLoading (b : bool)
(* the parent renders the component again, with these options *)
| rerender (o : MicroInteractionOptions)
| unmount
(* native events seen by the listeners of the magnetic and tilt effects *)
| mousemove (e : MouseEvent) (overElement : bool)
| mouseleave
(* the rest of the page *)
| timeout (node : nat)           (* the pending timer of this span fires *)
| refChange (attachedNow : bool) (* [ref.current] is set or cleared *)
| layout (r : DOMRect).          (* the element is laid out again *)

Definition removeTimer (node : nat) (ts : list Timer) : list Timer :=
  filter (fun t => negb (Nat.eqb (timer_node t) node)) ts.

(** A pending timer of [createRipple] fires: it leaves the timer list and its
    callback removes the span.  Without such a timer nothing happens. *)
Definition fireTimer (node : nat) (w : World) : World :=
  if existsb (fun t => Nat.eqb (timer_node t) node) (timers w)
  then removeRipple node (set_timers (removeTimer node (timers w)) w)
  else w.

Definition step (ev : Event) (c : Controller) : Controller :=
  match ev with
  | onMouseEnter => setState Hovered true c
  | onMouseLeave => setState Hovered false c
  | onFocus => setState Focused true c
  | onBlur => setState Focused false c
  | onMouseDown => setState Activated true c
  | onMouseUp => setState Activated false c
  | onClick e =>
      if mounted c then withWorld (handleClick (resolve (options c)) e) c else c
  | setIsLoading b => setState LoadingFlag b c
  | rerender o => if mounted c then recommit c o (hook c) else c
  | unmount =>
      if mounted c then
        let hw := unmountEffects (hook c) (world c) in
        mkController (options c) (navigator c) (window c) false (fst hw) (snd hw)
      else c
  | mousemove e overElement =>
      (* the element's listener (tilt) runs before the document's (magnetic) *)
      let c := match tiltListeners (hook c) with
               | Some td => if overElement
                            then withWorld (TiltEffect.handleMouseMove td e) c
                            else c
               | None => c
               end in
      match magneticListeners (hook c) with
      | Some md => withWorld (MagneticEffect.handleMouseMove md e) c
      | None => c
      end
  | mouseleave =>
      let c := match magneticListeners (hook c) with
               | Some _ => withWorld MagneticEffect.handleMouseLeave c
               | None => c
               end in
      match tiltListeners (hook c) with
      | Some _ => withWorld TiltEffect.handleMouseLeave c
      | None => c
      end
  | timeout node => withWorld (fireTimer node) c
  | refChange b => withWorld (set_attached b) c
  | layout r => withWorld (set_rect r) c
  end.

Definition run (evs : list Event) (c : Controller) : Controller :=
  fold_left (fun c ev => step ev c) evs c.

(** A page on which nothing has happened yet: the element is attached, has
    the given box and no inline style. *)
Definition freshWorld (r : DOMRect) : World :=
  mkWorld true CSS.none r [] [] None [] [] 0.

Definition plainNavigator : Navigator := mkNavigator None None None false.
Definition plainWindow : Window := mkWindow false.

(** How many animation handles are playing. *)
Definition playing (w : World) : list Animation :=
  filter (fun a => match anim_state a with running => true | idle => false end)
         (animations w).

(* ================================================================== *)
(** * What the specification says, in its own words *)

Definition effectiveTypeOf (nav : Navigator) : option string :=
  match connection nav with
  | Some c => effectiveType c
  | None => None
  end.

(** The capability classifier of the specification: an explicit mode passes
    through; for [auto], a missing field of the snapshot takes its default
    (4 GB, 4 cores, '4g') and the three-way rule is applied. *)
Definition classify_spec (mode : string) (nav : Navigator) : string :=
  if (mode =? "auto")%string then
    let memory := dflt (deviceMemory nav) 4 in
    let cores := dflt (hardwareConcurrency nav) 4 in
    let network := dflt (effectiveTypeOf nav) "4g" in
    if (memory <? 2) || (cores <? 2) || (network =? "slow-2g")%string
    then "economy"
    else if (8 <=? memory) && (8 <=? cores) && (network =? "4g")%string
    then "high"
    else "balanced"
  else mode.

(** A snapshot in which the fields [||] treats as absent are absent. *)
Definition dropFalsy (nav : Navigator) : Navigator :=
  mkNavigator
    (match deviceMemory nav with
     | Some v => if truthy_num v then Some v else None
     | None => None
     end)
    (match hardwareConcurrency nav with
     | Some v => if truthy_num v then Some v else None
     | None => None
     end)
    (match effectiveTypeOf nav with
     | Some v => if truthy_str v then Some (mkConnection (Some v)) else None
     | None => None
     end)
    (hasVibrate nav).

(** Field-level merge, in the specification's words: a field the caller
    supplies wins, an absent field falls back to the default. *)
Definition mergeSpec (defaults caller : Obj.t) (k : string) : option Obj.Value :=
  match Obj.get k caller with
  | Some supplied => Some supplied
  | None => Obj.get k defaults
  end.

(** The built-in defaults, written out family by family. *)
Definition builtinResolved : Resolved :=
  mkResolved true "auto" false
    (Hover.mk Full 1.02 0 (-2) 1.1 1.1 0 200 "cubic-bezier(0.4, 0, 0.2, 1)")
    (Focus.mk Full 1.02 true "#3B82F6" 1.1 200)
    (Active.mk Full 0.95 0 100 "visual")
    (Loading.mk Full "spin" 1000)
    (Magnetic.mk Full 0.5 100)
    (Ripple.mk Full "rgba(255, 255, 255, 0.6)" 600 2)
    (Tilt.mk Full 10 1.02 400).

(** Inputs used by the examples below. *)
Definition box : DOMRect := mkRect 0 0 100 40.
Definition centre : MouseEvent := mkMouse 50 20.
Definition page : World := freshWorld box.

(* ================================================================== *)
(** * Notions used by the statements *)

(** Options that only name the loading animation. *)
Definition loadingNamed (name : string) : MicroInteractionOptions :=
  mkOptions None None None None None None None
            (Some (Loading.mk Partial (Some name) None)) None None None.

(** Options that only set the ripple. *)
Definition rippleWith (color : string) (duration scale : float)
    : MicroInteractionOptions :=
  mkOptions None None None None None None None None None
            (Some (Ripple.mk Partial (Some color) (Some duration) (Some scale)))
            None.

(** The span [createRipple] builds for a click at [e] on an element with box
    [rect]: a square whose side is the larger of width and height, placed so
    that the click point is its centre. *)
Definition rippleFor (rd : Ripple.t Full) (rect : DOMRect) (e : MouseEvent)
    (id : nat) : RippleNode :=
  let size := Math_max (width rect) (height rect) in
  mkRippleNode id
    (rippleCssText (Ripple.color rd) (Ripple.duration rd)
                   (clientX e - left rect - size / 2)
                   (clientY e - top rect - size / 2) size).

(** Identities handed out so far are below [fresh]. *)
Definition identitiesBelowFresh (w : World) : Prop :=
  (forall n, In n (children w) -> node_id n < fresh w)
  /\ (forall t, In t (timers w) -> timer_node t < fresh w).

(** Two pages that agree on what the hover, focus and press effects read and
    write: whether the ref is set, and the four properties they assign. *)
Definition agree (w1 w2 : World) : Prop :=
  attached w1 = attached w2
  /\ CSS.transform (style w1) = CSS.transform (style w2)
  /\ CSS.filter (style w1) = CSS.filter (style w2)
  /\ CSS.transition (style w1) = CSS.transition (style w2)
  /\ CSS.boxShadow (style w1) = CSS.boxShadow (style w2).

(** The three style effects of one commit, in their order. *)
Definition styleEffects (r : Resolved) (nav : Navigator) (reduce : bool)
    (tier : string) (hovered focused pressed : bool) (w : World) : World :=
  activeEffect r nav pressed
    (focusEffect r focused (applyHoverEffects r reduce tier hovered w)).

(** What the hover effect writes while hovered, and when not hovered. *)
Definition hoverTransform (r : Resolved) (tier : string) : Template :=
  [Lit "scale("; Num (1 + (Hover.scale (hoverDefaults r) - 1) * getEffectScale tier);
   Lit ") rotate("; Num (Hover.rotate (hoverDefaults r));
   Lit "deg) translateY(";
   Num (Hover.translateY (hoverDefaults r) * getEffectScale tier);
   Lit "px) "; Lit (if r_gpu r then "translateZ(0)" else "")].

Definition hoverFilter (r : Resolved) (tier : string) : Template :=
  if negb (tier =? "economy")%string
  then [Lit "brightness(";
        Num (1 + (Hover.brightness (hoverDefaults r) - 1) * getEffectScale tier);
        Lit ") saturate("; Num (Hover.saturate (hoverDefaults r));
        Lit ") blur("; Num (Hover.blur (hoverDefaults r)); Lit "px)"]
  else lit "none".

Definition hoverTransition (r : Resolved) (tier : string) : Template :=
  [Lit "all "; Num (Hover.duration (hoverDefaults r) * getEffectScale tier);
   Lit "ms "; Lit (Hover.easing (hoverDefaults r))].

Definition neutralTransform (r : Resolved) : Template :=
  lit (if r_gpu r then "translateZ(0)" else "").

(** What the focus effect writes while focused. *)
Definition focusTransform (fd : Focus.t Full) : Template :=
  [Lit "scale("; Num (Focus.scale fd); Lit ")"].

(** The transform and the transition the press effect writes. *)
Definition pressTransform (ad : Active.t Full) : Template :=
  [Lit "scale("; Num (Active.scale ad); Lit ") rotate(";
   Num (Active.rotate ad); Lit "deg)"].

Definition pressTransition (ad : Active.t Full) : Template :=
  [Lit "all "; Num (Active.duration ad); Lit "ms ease-out"].

(** Two pages with the same ref, the same next identity and the same
    animation handles. *)
Definition sameRest (w1 w2 : World) : Prop :=
  attached w1 = attached w2
  /\ fresh w1 = fresh w2
  /\ animations w1 = animations w2.

(** The hook owns what plays: either no animation is playing and the loading
    effect has no clean-up pending, or exactly one is playing and it is the
    one the pending clean-up cancels. *)
Definition owns (h : HookState) (w : World) : Prop :=
  match loadingEffectCell h with
  | Some id => exists a, playing w = [a] /\ anim_id a = id
  | None => playing w = []
  end.

Definition loadingInvariant (c : Controller) : Prop :=
  owns (hook c) (world c)
  /\ (loadingEffectCell (hook c) <> None ->
      isLoading (hook c) = true /\ mounted c = true).

(** The transition the focus effect writes. *)
Definition focusTransition (fd : Focus.t Full) : Template :=
  [Lit "all "; Num (Focus.duration fd); Lit "ms ease-out"].

(** Options that only ask for reduced motion. *)
Definition reducedMotion : MicroInteractionOptions :=
  mkOptions None None (Some true) None None None None None None None None.

(** The four properties [setupGPUOptimization] writes. *)
Definition gpuHints (w : World) : string * string * string * string :=
  (CSS.willChange (style w), CSS.backfaceVisibility (style w),
   CSS.perspective (style w), CSS.transformStyle (style w)).

(** What no effect of a commit touches: the box, the ripple spans, the shared
    keyframes style and the pending timers. *)
Definition pageOf (w : World)
    : DOMRect * list RippleNode * option float * list Timer :=
  (rect w, children w, rippleKeyframes w, timers w).

(** Whether a press vibrates: the feedback mode asks for it and the
    navigator can. *)
Definition vibrates (r : Resolved) (nav : Navigator) : bool :=
  ((Active.feedback (activeDefaults r) =? "haptic")%string
   || (Active.feedback (activeDefaults r) =? "both")%string)
  && hasVibrate nav.

(** A ripple span and the timer that removes it: the same identity, and the
    delay of the timer is the duration of the span's animation. *)
Definition timedBy (n : RippleNode) (t : Timer) : Prop :=
  node_id n = timer_node t
  /\ exists color x y size,
       cssText n = rippleCssText color (timer_delay t) x y size.

Definition ripplesTimed (w : World) : Prop := Forall2 timedBy (children w) (timers w).

(** The native pointer events the magnetic and tilt listeners receive. *)
Definition pointerEvent (ev : Event) : bool :=
  match ev with
  | mousemove _ _ | mouseleave => true
  | _ => false
  end.

(** The listeners a commit registered work with the parameters of the
    options it rendered, or are not registered at all. *)
Definition listenersCurrent (c : Controller) : Prop :=
  (magneticListeners (hook c) = None
   \/ (magneticListeners (hook c) = Some (magneticDefaults (resolve (options c)))
       /\ truthy_num (Magnetic.strength (magneticDefaults (resolve (options c)))) = true))
  /\ (tiltListeners (hook c) = None
      \/ (tiltListeners (hook c) = Some (tiltDefaults (resolve (options c)))
          /\ truthy_num (Tilt.maxTilt (tiltDefaults (resolve (options c)))) = true)).

(** Once unmounted, the hook has nothing registered. *)
Definition released (c : Controller) : Prop :=
  mounted c = false ->
  magneticListeners (hook c) = None
  /\ tiltListeners (hook c) = None
  /\ loadingEffectCell (hook c) = None.

(** The first effect last ran for the [gpu] and the tier of the options the
    hook now renders. *)
Definition gpuCurrent (c : Controller) : Prop :=
  mounted c = true ->
  gpuEffect (hook c)
  = Some (r_gpu (resolve (options c)),
          memoTier (options c) (navigator c) (hook c)).

(** The controllers that can arise: the hook is mounted on a page where no
    animation is playing, and then events happen. *)
Inductive reachable : Controller -> Prop :=
| reach_mount o nav win w :
    playing w = [] -> reachable (mount o nav win w)
| reach_step ev c :
    reachable c -> reachable (step ev c).

(** Events after which the hook renders the options it rendered before. *)
Definition keepsOptions (ev : Event) : bool :=
  match ev with
  | rerender _ | unmount => false
  | _ => true
  end.

(** The state setter behind each handler the hook returns. *)
Definition handlerOf (ev : Event) : option (Flag * bool) :=
  match ev with
  | onMouseEnter => Some (Hovered, true)
  | onMouseLeave => Some (Hovered, false)
  | onFocus => Some (Focused, true)
  | onBlur => Some (Focused, false)
  | onMouseDown => Some (Activated, true)
  | onMouseUp => Some (Activated, false)
  | setIsLoading b => Some (LoadingFlag, b)
  | _ => None
  end.

(** The handle the loading effect creates on a page whose next identity is
    [id], for the options it renders. *)
Definition startedBy (o : MicroInteractionOptions) (id : nat) : Animation :=
  mkAnimation id
    (keyframes (Loading.animation (loadingDefaults (resolve o))))
    (Loading.duration (loadingDefaults (resolve o))) running.

(** The three conditions on the hook cells that hold in every reachable
    state. *)
Definition hookInvariant (c : Controller) : Prop :=
  listenersCurrent c /\ released c /\ gpuCurrent c.

(** The hints of a promoted layer, for a tier. *)
Definition promoted (tier : string) : string * string * string * string :=
  ("transform, opacity, filter", "hidden", "1000px",
   if (tier =? "economy")%string then "flat" else "preserve-3d").

(** What a commit hands to its style effects: the page after the clean-ups
    and after the first effect, which runs only when [gpu] or the tier is not
    what its last run closed over. *)
Definition gpuStage (o : MicroInteractionOptions) (nav : Navigator)
    (h : HookState) (w : World) : World :=
  let r := resolve o in
  let tier := memoTier o nav h in
  match gpuEffect h with
  | Some (g, t) =>
      if Bool.eqb g (r_gpu r) && String.eqb t tier
      then loadingCleanup (loadingEffectCell h) w
      else setupGPUOptimization (r_gpu r) tier
             (loadingCleanup (loadingEffectCell h) (gpuCleanup g w))
  | None =>
      setupGPUOptimization (r_gpu r) tier (loadingCleanup (loadingEffectCell h) w)
  end.

(* ================================================================== *)
(** * Basic facts about the model *)

Unset Implicit Arguments.

(** Comparison of binary64 numbers, through its specification. *)
Section FloatOrder.
Import SpecFloat FloatOps.

Lemma SFcompare_antisym x y :
  SFcompare y x = option_map CompOpp (SFcompare x y).
Proof.
  destruct x as [sx | sx | | sx mx ex], y as [sy | sy | | sy my ey]; cbn;
    try reflexivity; try (destruct sx; reflexivity); try (destruct sy; reflexivity);
    try (destruct sx, sy; reflexivity).
  destruct sx, sy; cbn; try reflexivity;
    rewrite (Z.compare_antisym ex ey); destruct (ex ?= ey)%Z; cbn; try reflexivity;
    rewrite (Pos.compare_cont_antisym mx my Eq); cbn;
    destruct (Pos.compare_cont Eq mx my); reflexivity.
Qed.

Lemma SFcompare_defined x y :
  SFcompare x y = None -> x = S754_nan \/ y = S754_nan.
Proof.
  destruct x as [sx | sx | | sx mx ex], y as [sy | sy | | sy my ey]; cbn;
    intro H; try discriminate H; auto.
Qed.

Lemma SFcompare_refl x : x <> S754_nan -> SFcompare x x = Some Eq.
Proof.
  destruct x as [s | s | | s m e]; cbn; intro H; try reflexivity;
    try (destruct s; reflexivity); try (exfalso; apply H; reflexivity).
  destruct s; rewrite Z.compare_refl, Pos.compare_cont_refl; reflexivity.
Qed.

Lemma not_nan_spec (x : float) : is_nan x = false -> Prim2SF x <> S754_nan.
Proof.
  unfold is_nan. rewrite FloatAxioms.eqb_spec. intros H E. rewrite E in H.
  discriminate H.
Qed.

(** [Math.max] of two numbers, neither of them [NaN], is one of the two and
    is not below either. *)
Lemma Math_max_larger (a b : float) :
  is_nan a = false -> is_nan b = false ->
  (Math_max a b = a \/ Math_max a b = b)
  /\ (a <=? Math_max a b) = true
  /\ (b <=? Math_max a b) = true.
Proof.
  intros Ha Hb.
  pose proof (SFcompare_refl _ (not_nan_spec a Ha)) as Raa.
  pose proof (SFcompare_refl _ (not_nan_spec b Hb)) as Rbb.
  pose proof (SFcompare_antisym (Prim2SF a) (Prim2SF b)) as Rba.
  destruct (SFcompare (Prim2SF a) (Prim2SF b)) as [c|] eqn:Rab.
  2:{ destruct (SFcompare_defined _ _ Rab) as [E | E];
        [exact (False_ind _ (not_nan_spec a Ha E))
        | exact (False_ind _ (not_nan_spec b Hb E))]. }
  cbn [option_map] in Rba.
  assert (Laa : (a <=? a) = true)
    by (rewrite FloatAxioms.leb_spec; unfold SFleb; rewrite Raa; reflexivity).
  assert (Lbb : (b <=? b) = true)
    by (rewrite FloatAxioms.leb_spec; unfold SFleb; rewrite Rbb; reflexivity).
  unfold Math_max. rewrite Ha, Hb. cbn [orb].
  rewrite FloatAxioms.ltb_spec, FloatAxioms.eqb_spec. unfold SFltb, SFeqb.
  rewrite Rab.
  destruct c; cbn [andb].
  - destruct (is_neg_zero a).
    + split; [right; reflexivity |]. split; [| exact Lbb].
      rewrite FloatAxioms.leb_spec. unfold SFleb. rewrite Rab. reflexivity.
    + split; [left; reflexivity |]. split; [exact Laa |].
      rewrite FloatAxioms.leb_spec. unfold SFleb. rewrite Rba. reflexivity.
  - split; [right; reflexivity |]. split; [| exact Lbb].
    rewrite FloatAxioms.leb_spec. unfold SFleb. rewrite Rab. reflexivity.
  - split; [left; reflexivity |]. split; [exact Laa |].
    rewrite FloatAxioms.leb_spec. unfold SFleb. rewrite Rba. reflexivity.
Qed.

Lemma nan_mul (x : float) : nan * x = nan.
Proof.
  apply FloatAxioms.Prim2SF_inj. rewrite FloatAxioms.mul_spec. reflexivity.
Qed.

End FloatOrder.

Lemma string_neq_eqb (a b : string) : a <> b -> (a =? b)%string = false.
Proof. intro H. apply String.eqb_neq. exact H. Qed.

(* ================================================================== *)
(** * Capability classifier *)

(** C4 (as the code has it).  An explicit mode passes through unchanged.  For
    ['auto'] the result is the specification's three-way rule applied to the
    snapshot in which every field that is missing or falsy (memory or core
    count [0] or [NaN], network [""]) has been replaced by its default
    (4, 4, '4g'). *)
Theorem effectivePerformance_classifies :
  (forall mode nav, mode <> "auto" -> effectivePerformance mode nav = mode)
  /\ (forall mode nav,
        effectivePerformance mode nav = classify_spec mode (dropFalsy nav))
  /\ (forall mode nav,
        (forall v, deviceMemory nav = Some v -> truthy_num v = true) ->
        (forall v, hardwareConcurrency nav = Some v -> truthy_num v = true) ->
        (forall v, effectiveTypeOf nav = Some v -> truthy_str v = true) ->
        effectivePerformance mode nav = classify_spec mode nav).
Proof.
  assert (G : forall mode nav,
             effectivePerformance mode nav = classify_spec mode (dropFalsy nav)).
  { intros mode [m c n v].
    unfold effectivePerformance, classify_spec, dropFalsy, effectiveTypeOf,
      or_num, or_str; cbn [deviceMemory hardwareConcurrency connection hasVibrate].
    destruct (mode =? "auto")%string; cbn [negb]; [| reflexivity].
    destruct m as [m|], c as [c|], n as [[[t|]]|]; cbn [effectiveType];
      repeat match goal with
             | |- context [truthy_num ?x] => destruct (truthy_num x)
             | |- context [truthy_str ?x] => destruct (truthy_str x)
             end;
      reflexivity. }
  split; [| split].
  - intros mode nav H. unfold effectivePerformance.
    rewrite (string_neq_eqb _ _ H). reflexivity.
  - exact G.
  - intros mode [m c n v] Hm Hc Hn.
    unfold effectivePerformance, classify_spec, effectiveTypeOf, or_num, or_str in *;
      cbn [deviceMemory hardwareConcurrency connection hasVibrate] in *.
    destruct (mode =? "auto")%string; cbn [negb]; [| reflexivity].
    destruct m as [m|], c as [c|], n as [[[t|]]|]; cbn [effectiveType] in *;
      try rewrite (Hm _ eq_refl); try rewrite (Hc _ eq_refl);
      try rewrite (Hn _ eq_refl); reflexivity.
Qed.

Lemma effectivePerformance_classifies_witness :
  effectivePerformance "economy" (mkNavigator (Some 8) (Some 8) None false) = "economy"
  /\ effectivePerformance "auto" (mkNavigator (Some 1) None None true) = "economy"
  /\ effectivePerformance "auto"
       (mkNavigator (Some 8) (Some 8) (Some (mkConnection (Some "4g"))) true)
     = classify_spec "auto"
         (mkNavigator (Some 8) (Some 8) (Some (mkConnection (Some "4g"))) true).
Proof.
  destruct effectivePerformance_classifies as [P [Q R]].
  split; [| split].
  - apply P. discriminate.
  - rewrite Q. reflexivity.
  - apply R; cbn; intros v E; inversion E; reflexivity.
Defined.

(** C4, counterexample.  A snapshot that reports 0 GB of memory is classified
    as if the field were missing: the code answers 'balanced' where the rule
    "memory < 2GB gives economy" answers 'economy'. *)
Lemma classify_zero_memory_counterexample :
  effectivePerformance "auto" (mkNavigator (Some 0) None None false) = "balanced"
  /\ classify_spec "auto" (mkNavigator (Some 0) None None false) = "economy"
  /\ effectivePerformance "auto" (mkNavigator (Some 0) None None false)
     <> classify_spec "auto" (mkNavigator (Some 0) None None false).
Proof.
  split; [reflexivity | split; [reflexivity | discriminate]].
Qed.

(* ================================================================== *)
(** * Parameter resolution *)

Lemma hover_spread_given d p : Hover.spread d (Hover.given p) = p.
Proof. destruct p; reflexivity. Qed.
Lemma hover_spread_empty d : Hover.spread d Hover.empty = d.
Proof. destruct d; reflexivity. Qed.

Lemma focus_spread_given d p : Focus.spread d (Focus.given p) = p.
Proof. destruct p; reflexivity. Qed.
Lemma focus_spread_empty d : Focus.spread d Focus.empty = d.
Proof. destruct d; reflexivity. Qed.

Lemma active_spread_given d p : Active.spread d (Active.given p) = p.
Proof. destruct p; reflexivity. Qed.
Lemma active_spread_empty d : Active.spread d Active.empty = d.
Proof. destruct d; reflexivity. Qed.

Lemma loading_spread_given d p : Loading.spread d (Loading.given p) = p.
Proof. destruct p; reflexivity. Qed.
Lemma loading_spread_empty d : Loading.spread d Loading.empty = d.
Proof. destruct d; reflexivity. Qed.

Lemma magnetic_spread_given d p : Magnetic.spread d (Magnetic.given p) = p.
Proof. destruct p; reflexivity. Qed.
Lemma magnetic_spread_empty d : Magnetic.spread d Magnetic.empty = d.
Proof. destruct d; reflexivity. Qed.

Lemma ripple_spread_given d p : Ripple.spread d (Ripple.given p) = p.
Proof. destruct p; reflexivity. Qed.
Lemma ripple_spread_empty d : Ripple.spread d Ripple.empty = d.
Proof. destruct d; reflexivity. Qed.

Lemma tilt_spread_given d p : Tilt.spread d (Tilt.given p) = p.
Proof. destruct p; reflexivity. Qed.
Lemma tilt_spread_empty d : Tilt.spread d Tilt.empty = d.
Proof. destruct d; reflexivity. Qed.

Lemma resolve_asOptions (r : Resolved) : resolve (asOptions r) = r.
Proof.
  destruct r; unfold resolve, asOptions; cbn.
  rewrite hover_spread_given, focus_spread_given,
    active_spread_given, loading_spread_given,
    magnetic_spread_given, ripple_spread_given,
    tilt_spread_given.
  reflexivity.
Qed.

(** ** The spreads, on arbitrary caller objects *)

Lemma get_app k (a b : Obj.t) :
  Obj.get k (a ++ b)
  = match Obj.get k b with
    | Some v => Some v
    | None => Obj.get k a
    end.
Proof.
  induction a as [| [k' v] a IH]; cbn [app Obj.get].
  - destruct (Obj.get k b); reflexivity.
  - rewrite IH. destruct (Obj.get k b); [reflexivity |].
    destruct (Obj.get k a); reflexivity.
Qed.

Lemma get_prop {A : Type} k k' (inj : A -> Obj.Value) (x : option A) :
  Obj.get k (Obj.prop k' inj x)
  = if (k' =? k)%string then option_map inj x else None.
Proof.
  destruct x; cbn [Obj.prop Obj.get option_map];
    destruct (k' =? k)%string; reflexivity.
Qed.

Lemma literalOf_app f caller : literalOf f caller = defaultsOf f ++ caller.
Proof. destruct f; reflexivity. Qed.

Lemma literal_merge f caller k :
  Obj.get k (literalOf f caller) = mergeSpec (defaultsOf f) caller k.
Proof. rewrite literalOf_app. apply get_app. Qed.

(** Every parameter of a family has a built-in default, and it is defined. *)
Lemma defaults_defined f k :
  In k (keysOf f) ->
  exists v, Obj.get k (defaultsOf f) = Some v /\ Obj.defined v = true.
Proof.
  destruct f; cbn [keysOf defaultsOf map fst In Hover.defaults Focus.defaults
                   Active.defaults Loading.defaults Magnetic.defaults
                   Ripple.defaults Tilt.defaults];
    intro H; repeat (destruct H as [<- | H]); try contradiction;
    eexists; (split; [reflexivity | reflexivity]).
Qed.

Lemma literal_present f caller k :
  In k (keysOf f) -> Obj.get k (literalOf f caller) <> None.
Proof.
  intro I. rewrite literal_merge. unfold mergeSpec.
  destruct (Obj.get k caller); [discriminate |].
  destruct (defaults_defined f k I) as (v & -> & _). discriminate.
Qed.

Lemma literal_complete f caller :
  Obj.complete (keysOf f) (literalOf f caller) = true
  <-> forall k, In k (keysOf f) -> Obj.get k caller <> Some Obj.VUndefined.
Proof.
  unfold Obj.complete. rewrite forallb_forall. split; intros H k I.
  - specialize (H k I). unfold Obj.read in H. rewrite literal_merge in H.
    unfold mergeSpec in H. intro E. rewrite E in H. discriminate H.
  - unfold Obj.read. rewrite literal_merge. unfold mergeSpec.
    destruct (Obj.get k caller) as [v |] eqn:E.
    + destruct v; try reflexivity. exfalso. apply (H k I). exact E.
    + destruct (defaults_defined f k I) as (v & -> & D). exact D.
Qed.

Lemma literal_again f caller k :
  Obj.get k (literalOf f (literalOf f caller)) = Obj.get k (literalOf f caller).
Proof.
  rewrite (literal_merge f (literalOf f caller)). unfold mergeSpec.
  destruct (Obj.get k (literalOf f caller)) as [v |] eqn:E; [reflexivity |].
  rewrite literal_merge in E. unfold mergeSpec in E.
  destruct (Obj.get k caller); [discriminate E | exact E].
Qed.

(** ** The records read the literals *)

Ltac by_key k :=
  rewrite ?get_app, ?get_prop; cbn [Obj.get];
  repeat match goal with
         | |- context [String.eqb ?s k] =>
             destruct (String.eqb_spec s k) as [<- | ?]
         end;
  cbn;
  repeat match goal with
         | |- context [option_map _ ?x] => destruct x; cbn
         end.

Lemma hover_literal_typed o k :
  Obj.get k (Hover.literal (Hover.toObj o))
  = Obj.get k (Hover.ofFull (Hover.spread Hover.builtin o)).
Proof.
  destruct o. unfold Hover.literal, Hover.defaults, Hover.toObj, Hover.ofFull,
    Hover.spread, Hover.builtin.
  cbn [Hover.scale Hover.rotate Hover.translateY Hover.brightness Hover.saturate
       Hover.blur Hover.duration Hover.easing].
  by_key k; reflexivity.
Qed.

Lemma focus_literal_typed o k :
  Obj.get k (Focus.literal (Focus.toObj o))
  = Obj.get k (Focus.ofFull (Focus.spread Focus.builtin o)).
Proof.
  destruct o. unfold Focus.literal, Focus.defaults, Focus.toObj, Focus.ofFull,
    Focus.spread, Focus.builtin.
  cbn [Focus.scale Focus.glow Focus.glowColor Focus.borderScale Focus.duration].
  by_key k; reflexivity.
Qed.

Lemma active_literal_typed o k :
  Obj.get k (Active.literal (Active.toObj o))
  = Obj.get k (Active.ofFull (Active.spread Active.builtin o)).
Proof.
  destruct o. unfold Active.literal, Active.defaults, Active.toObj, Active.ofFull,
    Active.spread, Active.builtin.
  cbn [Active.scale Active.rotate Active.duration Active.feedback].
  by_key k; reflexivity.
Qed.

Lemma loading_literal_typed o k :
  Obj.get k (Loading.literal (Loading.toObj o))
  = Obj.get k (Loading.ofFull (Loading.spread Loading.builtin o)).
Proof.
  destruct o. unfold Loading.literal, Loading.defaults, Loading.toObj,
    Loading.ofFull, Loading.spread, Loading.builtin.
  cbn [Loading.animation Loading.duration].
  by_key k; reflexivity.
Qed.

Lemma magnetic_literal_typed o k :
  Obj.get k (Magnetic.literal (Magnetic.toObj o))
  = Obj.get k (Magnetic.ofFull (Magnetic.spread Magnetic.builtin o)).
Proof.
  destruct o. unfold Magnetic.literal, Magnetic.defaults, Magnetic.toObj,
    Magnetic.ofFull, Magnetic.spread, Magnetic.builtin.
  cbn [Magnetic.strength Magnetic.distance].
  by_key k; reflexivity.
Qed.

Lemma ripple_literal_typed o k :
  Obj.get k (Ripple.literal (Ripple.toObj o))
  = Obj.get k (Ripple.ofFull (Ripple.spread Ripple.builtin o)).
Proof.
  destruct o. unfold Ripple.literal, Ripple.defaults, Ripple.toObj, Ripple.ofFull,
    Ripple.spread, Ripple.builtin.
  cbn [Ripple.color Ripple.duration Ripple.scale].
  by_key k; reflexivity.
Qed.

Lemma tilt_literal_typed o k :
  Obj.get k (Tilt.literal (Tilt.toObj o))
  = Obj.get k (Tilt.ofFull (Tilt.spread Tilt.builtin o)).
Proof.
  destruct o. unfold Tilt.literal, Tilt.defaults, Tilt.toObj, Tilt.ofFull,
    Tilt.spread, Tilt.builtin.
  cbn [Tilt.maxTilt Tilt.scale Tilt.speed].
  by_key k; reflexivity.
Qed.

(** On the hook's typed argument the resolved records hold, property by
    property, what the literals of the source hold. *)
Lemma resolve_literal f o k :
  Obj.get k (literalOf f (callerOf f o)) = Obj.get k (resolvedOf f (resolve o)).
Proof.
  destruct f; cbn [literalOf callerOf resolvedOf resolve hoverDefaults
                   focusDefaults activeDefaults loadingDefaults magneticDefaults
                   rippleDefaults tiltDefaults].
  - apply hover_literal_typed.
  - apply focus_literal_typed.
  - apply active_literal_typed.
  - apply loading_literal_typed.
  - apply magnetic_literal_typed.
  - apply ripple_literal_typed.
  - apply tilt_literal_typed.
Qed.

(** A resolved record holds no [undefined]. *)
Lemma resolved_defined f r k : Obj.get k (resolvedOf f r) <> Some Obj.VUndefined.
Proof.
  destruct f; cbn [resolvedOf];
    [ destruct (hoverDefaults r) | destruct (focusDefaults r)
    | destruct (activeDefaults r) | destruct (loadingDefaults r)
    | destruct (magneticDefaults r) | destruct (rippleDefaults r)
    | destruct (tiltDefaults r) ];
    unfold Hover.ofFull, Focus.ofFull, Active.ofFull, Loading.ofFull,
      Magnetic.ofFull, Ripple.ofFull, Tilt.ofFull;
    cbn [Hover.scale Hover.rotate Hover.translateY Hover.brightness Hover.saturate
         Hover.blur Hover.duration Hover.easing
         Focus.scale Focus.glow Focus.glowColor Focus.borderScale Focus.duration
         Active.scale Active.rotate Active.duration Active.feedback
         Loading.animation Loading.duration Magnetic.strength Magnetic.distance
         Ripple.color Ripple.duration Ripple.scale
         Tilt.maxTilt Tilt.scale Tilt.speed];
    by_key k; discriminate.
Qed.

Lemma typed_complete f o :
  Obj.complete (keysOf f) (literalOf f (callerOf f o)) = true.
Proof.
  apply literal_complete. intros k _ E.
  apply (resolved_defined f (resolve o) k).
  rewrite <- resolve_literal, literal_merge. unfold mergeSpec. rewrite E.
  reflexivity.
Qed.

(** C5 (as the code has it).  Each effect family is resolved as the literal
    [{ defaults..., ...caller }].  For every caller's object and property
    name the result is the field-level merge: a property the caller's object
    holds wins with the value it holds, [undefined] included, and a property
    it does not hold falls back to the built-in default.  Every parameter of
    the family is therefore a property of the result, and all of them hold a
    defined value exactly when the caller's object holds none of them with the
    value [undefined].  Resolving the resolved object again changes no
    property.  On the hook's typed argument (properties absent or defined) the
    resolved records hold the properties of these literals, every family is
    complete, resolving the resolved parameter set again gives the same set,
    and without any options the result is exactly the built-in defaults. *)
Theorem spread_merge_idempotent :
  forall (f : Family) (caller : Obj.t),
    (forall k, Obj.get k (literalOf f caller) = mergeSpec (defaultsOf f) caller k)
    /\ (forall k, In k (keysOf f) -> Obj.get k (literalOf f caller) <> None)
    /\ (Obj.complete (keysOf f) (literalOf f caller) = true
        <-> forall k, In k (keysOf f) -> Obj.get k caller <> Some Obj.VUndefined)
    /\ (forall k, Obj.get k (literalOf f (literalOf f caller))
                  = Obj.get k (literalOf f caller))
    /\ (forall o : MicroInteractionOptions,
          (forall k, Obj.get k (literalOf f (callerOf f o))
                     = Obj.get k (resolvedOf f (resolve o)))
          /\ Obj.complete (keysOf f) (literalOf f (callerOf f o)) = true
          /\ resolve (asOptions (resolve o)) = resolve o)
    /\ resolve noOptions = builtinResolved.
Proof.
  intros f caller.
  split; [intro k; apply literal_merge |].
  split; [intro k; apply literal_present |].
  split; [apply literal_complete |].
  split; [intro k; apply literal_again |].
  split; [| reflexivity].
  intro o.
  split; [intro k; apply resolve_literal |].
  split; [apply typed_complete | apply resolve_asOptions].
Qed.

Lemma spread_merge_idempotent_witness :
  let caller := [("scale", Obj.VNumber 1.5); ("colour", Obj.VString "red")] in
  Obj.get "scale" (literalOf hoverF caller) = Some (Obj.VNumber 1.5)
  /\ Obj.get "rotate" (literalOf hoverF caller) = Some (Obj.VNumber 0)
  /\ Obj.get "easing" (literalOf hoverF caller) <> None
  /\ Obj.complete (keysOf hoverF) (literalOf hoverF caller) = true.
Proof.
  intro caller.
  destruct (spread_merge_idempotent hoverF caller) as (M & P & C & _).
  split; [rewrite M; reflexivity |].
  split; [rewrite M; reflexivity |].
  split; [apply P; cbn; tauto |].
  apply C. intros k I.
  cbn in I. repeat (destruct I as [<- | I]); try contradiction;
    cbn; discriminate.
Defined.

(** C5, counterexample.  The caller's object [{ scale: undefined }], which
    the interface [scale?: number] admits, holds the property [scale]: the
    spread copies it over the default 1.02, so the resolved hover family has
    [scale] undefined and is not complete. *)
Lemma explicit_undefined_counterexample :
  let caller := [("scale", Obj.VUndefined)] in
  Obj.get "scale" (defaultsOf hoverF) = Some (Obj.VNumber 1.02)
  /\ Obj.get "scale" (literalOf hoverF caller) = Some Obj.VUndefined
  /\ Obj.read "scale" (literalOf hoverF caller) = Obj.VUndefined
  /\ Obj.complete (keysOf hoverF) (literalOf hoverF caller) = false.
Proof. repeat split. Qed.

(* ================================================================== *)
(** * Fallbacks: performance tier and loading animation name *)

Lemma loadingEffect_attached r w :
  attached w = true ->
  loadingEffect r true w
  = (Some (fresh w),
     set_fresh (S (fresh w))
       (set_animations
          (animations w
           ++ [mkAnimation (fresh w)
                 (keyframes (Loading.animation (loadingDefaults r)))
                 (Loading.duration (loadingDefaults r)) running]) w)).
Proof. intro H. unfold loadingEffect. rewrite H. reflexivity. Qed.

Lemma keyframes_unrecognized name :
  name <> "spin" -> name <> "pulse" -> name <> "bounce" -> name <> "dots" ->
  keyframes name
  = if existsb (String.eqb name) objectPrototypeMembers
    then Inherited name else Undefined.
Proof.
  intros H1 H2 H3 H4. unfold keyframes.
  rewrite (string_neq_eqb _ _ H1), (string_neq_eqb _ _ H2), (string_neq_eqb _ _ H3),
    (string_neq_eqb _ _ H4).
  reflexivity.
Qed.

Lemma inherited_member name :
  existsb (String.eqb name) objectPrototypeMembers = true
  <-> In name objectPrototypeMembers.
Proof.
  rewrite existsb_exists. split.
  - intros (x & I & E). apply String.eqb_eq in E. subst x. exact I.
  - intro I. exists name. split; [exact I | apply String.eqb_refl].
Qed.

(** C8 (as the code has it).  A tier that is none of 'economy', 'balanced',
    'high' takes the default case of the switch, effect scale 0.8.  A loading
    animation name that is none of 'spin', 'pulse', 'bounce', 'dots' has no
    fallback: the read of the keyframes table never yields a keyframe list
    for it; it yields the inherited member when the name is one that
    [Object.prototype] defines ('constructor', 'toString', '__proto__', ...)
    and [undefined] otherwise.  The loading effect hands that value to
    [element.animate] at the resolved duration and keeps the handle: no
    default animation stands in.  Both the switch and the table read return
    for every name. *)
Theorem unrecognized_tier_and_animation :
  (forall tier : string,
      tier <> "economy" -> tier <> "balanced" -> tier <> "high" ->
      getEffectScale tier = 0.8)
  /\ (forall name : string,
        name <> "spin" -> name <> "pulse" -> name <> "bounce" -> name <> "dots" ->
        (forall kf, keyframes name <> Frames kf)
        /\ (In name objectPrototypeMembers -> keyframes name = Inherited name)
        /\ (~ In name objectPrototypeMembers -> keyframes name = Undefined)
        /\ forall o w,
             attached w = true ->
             Loading.animation (loadingDefaults (resolve o)) = name ->
             fst (loadingEffect (resolve o) true w) = Some (fresh w)
             /\ animations (snd (loadingEffect (resolve o) true w))
                = animations w
                  ++ [mkAnimation (fresh w) (keyframes name)
                        (Loading.duration (loadingDefaults (resolve o))) running]).
Proof.
  split.
  - intros tier H1 H2 H3. unfold getEffectScale.
    rewrite (string_neq_eqb _ _ H1), (string_neq_eqb _ _ H2), (string_neq_eqb _ _ H3).
    reflexivity.
  - intros name H1 H2 H3 H4.
    pose proof (keyframes_unrecognized name H1 H2 H3 H4) as K.
    split; [| split; [| split]].
    + intros kf. rewrite K.
      destruct (existsb (String.eqb name) objectPrototypeMembers); discriminate.
    + intro I. apply inherited_member in I. rewrite K, I. reflexivity.
    + intro I. rewrite K.
      destruct (existsb (String.eqb name) objectPrototypeMembers) eqn:E;
        [| reflexivity].
      exfalso. apply I, inherited_member, E.
    + intros o w Hw Hn. rewrite (@loadingEffect_attached _ _ Hw), Hn.
      split; reflexivity.
Qed.

Lemma unrecognized_tier_and_animation_witness :
  getEffectScale "turbo" = 0.8
  /\ keyframes "wobble" = Undefined
  /\ keyframes "toString" = Inherited "toString"
  /\ animations (snd (loadingEffect (resolve (loadingNamed "wobble")) true page))
     = [mkAnimation 0 Undefined 1000 running]
  /\ animations (snd (loadingEffect (resolve (loadingNamed "constructor")) true page))
     = [mkAnimation 0 (Inherited "constructor") 1000 running].
Proof.
  pose proof (proj1 unrecognized_tier_and_animation "turbo"
                ltac:(discriminate) ltac:(discriminate) ltac:(discriminate)) as T.
  pose proof (proj2 unrecognized_tier_and_animation "wobble"
                ltac:(discriminate) ltac:(discriminate)
                ltac:(discriminate) ltac:(discriminate)) as (_ & _ & W & Lw).
  pose proof (proj2 unrecognized_tier_and_animation "toString"
                ltac:(discriminate) ltac:(discriminate)
                ltac:(discriminate) ltac:(discriminate)) as (_ & S & _ & _).
  pose proof (proj2 unrecognized_tier_and_animation "constructor"
                ltac:(discriminate) ltac:(discriminate)
                ltac:(discriminate) ltac:(discriminate)) as (_ & _ & _ & Lc).
  split; [exact T |].
  split; [apply W; cbn; intuition discriminate |].
  split; [apply S; cbn; tauto |].
  split.
  - exact (proj2 (Lw (loadingNamed "wobble") page eq_refl eq_refl)).
  - exact (proj2 (Lc (loadingNamed "constructor") page eq_refl eq_refl)).
Defined.

(** C8, counterexample.  With the animation name 'wobble' the loading effect
    starts an animation whose keyframes argument is [undefined], and with
    'constructor' one whose argument is the inherited [Object] function: in
    neither case was a default animation substituted, and no name outside the
    table ever finds a keyframe list. *)
Lemma unknown_animation_counterexample :
  let c := run [setIsLoading true]
               (mount (loadingNamed "wobble") plainNavigator plainWindow page) in
  let c' := run [setIsLoading true]
                (mount (loadingNamed "constructor") plainNavigator plainWindow page) in
  map anim_keyframes (playing (world c)) = [Undefined]
  /\ map anim_keyframes (playing (world c')) = [Inherited "constructor"]
  /\ ~ (exists kf, keyframes "wobble" = Frames kf)
  /\ ~ (exists kf, keyframes "constructor" = Frames kf).
Proof.
  split; [reflexivity |]. split; [reflexivity |].
  split; intros [kf H]; discriminate H.
Qed.

(* ================================================================== *)
(** * Magnetic effect at the centre of the element *)

(** Whatever the box, the strength and the (positive) threshold: when both
    deltas are 0 the handler writes [translate(NaNpx, NaNpx)]. *)
Lemma magnetic_centre_general (md : Magnetic.t Full) (e : MouseEvent) (w : World) :
  clientX e - (left (rect w) + width (rect w) / 2) = 0 ->
  clientY e - (top (rect w) + height (rect w) / 2) = 0 ->
  (0 <? Magnetic.distance md) = true ->
  CSS.transform (style (MagneticEffect.handleMouseMove md e w))
  = [Lit "translate("; Num nan; Lit "px, "; Num nan; Lit "px)"].
Proof.
  intros Hx Hy Hd. unfold MagneticEffect.handleMouseMove. cbv zeta.
  rewrite Hx, Hy.
  change (sqrt (0 * 0 + 0 * 0)) with 0. rewrite Hd.
  change (0 / 0) with nan. rewrite !nan_mul. reflexivity.
Qed.

(** C1, evaluation at the failing input.  With the default parameters and the
    pointer exactly at the centre of a 100 by 40 element, the distance is 0,
    the branch [distance < magneticDefaults.distance] is taken and both
    translations are [0 / 0 * ...], that is [NaN]: the transform written is
    [translate(NaNpx, NaNpx)], not a zero displacement. *)
Theorem magnetic_centre_is_nan :
  let c := mount noOptions plainNavigator plainWindow page in
  magneticListeners (hook c) = Some (Magnetic.mk Full 0.5 100)
  /\ CSS.transform (style (world (step (mousemove centre false) c)))
     = [Lit "translate("; Num nan; Lit "px, "; Num nan; Lit "px)"]
  /\ CSS.transform (style (MagneticEffect.handleMouseMove
                             (Magnetic.mk Full 0.5 100) centre page))
     <> [Lit "translate("; Num 0; Lit "px, "; Num 0; Lit "px)"].
Proof.
  split; [reflexivity | split; [reflexivity |]].
  intro H.
  apply (f_equal (fun t => match t with
                           | _ :: Num x :: _ => is_nan x
                           | _ => false
                           end)) in H.
  vm_compute in H. discriminate H.
Qed.

(* ================================================================== *)
(** * Click handler and ripples *)

(** C10.  When the resolved ripple colour is the empty string the click
    handler does nothing: no span, no timer, no keyframes style, whatever the
    ripple duration and scale are. *)
Theorem click_without_colour_is_noop :
  forall (o : MicroInteractionOptions) (e : MouseEvent),
    Ripple.color (rippleDefaults (resolve o)) = "" ->
    (forall w, handleClick (resolve o) e w = w)
    /\ (forall c, options c = o -> step (onClick e) c = c).
Proof.
  intros o e H. split.
  - intro w. unfold handleClick. rewrite H. reflexivity.
  - intros [o' nav win m h w] Hc. cbn in Hc. subst o'.
    cbn [step mounted]. destruct m; [| reflexivity].
    unfold withWorld, handleClick. cbn [options world]. rewrite H. reflexivity.
Qed.

Lemma click_without_colour_is_noop_witness :
  let o := rippleWith "" 900 3 in
  let c := mount o plainNavigator plainWindow page in
  handleClick (resolve o) centre page = page
  /\ step (onClick centre) c = c.
Proof.
  split.
  - apply (proj1 (@click_without_colour_is_noop (rippleWith "" 900 3) centre eq_refl)).
  - apply (proj2 (@click_without_colour_is_noop (rippleWith "" 900 3) centre eq_refl)).
    reflexivity.
Defined.

Lemma handleClick_spawns (r : Resolved) (e : MouseEvent) (w : World) :
  attached w = true ->
  truthy_str (Ripple.color (rippleDefaults r)) = true ->
  children (handleClick r e w)
  = children w ++ [rippleFor (rippleDefaults r) (rect w) e (fresh w)]
  /\ timers (handleClick r e w)
     = timers w ++ [mkTimer (Ripple.duration (rippleDefaults r)) (fresh w)]
  /\ fresh (handleClick r e w) = S (fresh w)
  /\ rect (handleClick r e w) = rect w
  /\ attached (handleClick r e w) = true
  /\ style (handleClick r e w) = style w.
Proof.
  intros Ha Hc. unfold handleClick, createRipple. rewrite Hc, Ha. cbn [negb].
  cbn. destruct (rippleKeyframes w); cbn; repeat split; reflexivity || assumption.
Qed.

Lemma filter_keeps_all {A : Type} (f : A -> bool) (l : list A) :
  (forall x, In x l -> f x = true) -> filter f l = l.
Proof.
  induction l as [| a l IH]; intro H; [reflexivity |].
  cbn. rewrite (H a (or_introl eq_refl)). f_equal.
  apply IH. intros x Hx. apply H. right. exact Hx.
Qed.

Lemma not_this_node (k : nat) (l : list RippleNode) :
  (forall n, In n l -> node_id n < k) ->
  filter (fun n => negb (Nat.eqb (node_id n) k)) l = l.
Proof.
  intro H. apply filter_keeps_all. intros n Hn.
  apply Bool.negb_true_iff, Nat.eqb_neq. specialize (H n Hn). lia.
Qed.

Lemma not_this_timer (k : nat) (l : list Timer) :
  (forall t, In t l -> timer_node t < k) ->
  filter (fun t => negb (Nat.eqb (timer_node t) k)) l = l.
Proof.
  intro H. apply filter_keeps_all. intros t Ht.
  apply Bool.negb_true_iff, Nat.eqb_neq. specialize (H t Ht). lia.
Qed.

Lemma fireTimer_pending (k : nat) (w : World) :
  existsb (fun t => Nat.eqb (timer_node t) k) (timers w) = true ->
  children (fireTimer k w)
  = filter (fun n => negb (Nat.eqb (node_id n) k)) (children w)
  /\ timers (fireTimer k w)
     = filter (fun t => negb (Nat.eqb (timer_node t) k)) (timers w).
Proof. intro H. unfold fireTimer. rewrite H. split; reflexivity. Qed.

Lemma succ_eqb_false (n : nat) : Nat.eqb (S n) n = false /\ Nat.eqb n (S n) = false.
Proof. split; apply Nat.eqb_neq; lia. Qed.

(** C7 (as the code has it).  On an attached element and with a truthy
    resolved ripple colour, a click appends exactly one span, a square whose
    side is [Math.max(width, height)] placed with the click point at its
    centre, and registers exactly one timer whose delay is the resolved ripple
    duration.  Two clicks in a row leave two spans and two timers side by
    side; either timer, when it fires, removes its own span and nothing else,
    and once both have fired the element has the children it had before. *)
Theorem click_spawns_one_ripple :
  forall (o : MicroInteractionOptions) (e1 e2 : MouseEvent) (w : World),
    attached w = true ->
    truthy_str (Ripple.color (rippleDefaults (resolve o))) = true ->
    identitiesBelowFresh w ->
    let r := resolve o in
    let rd := rippleDefaults r in
    let w1 := handleClick r e1 w in
    let w2 := handleClick r e2 w1 in
    let n1 := rippleFor rd (rect w) e1 (fresh w) in
    let n2 := rippleFor rd (rect w) e2 (S (fresh w)) in
    let t1 := mkTimer (Ripple.duration rd) (fresh w) in
    let t2 := mkTimer (Ripple.duration rd) (S (fresh w)) in
    (children w1 = children w ++ [n1] /\ timers w1 = timers w ++ [t1])
    /\ (children w2 = children w ++ [n1; n2] /\ timers w2 = timers w ++ [t1; t2])
    /\ (children (fireTimer (fresh w) w2) = children w ++ [n2]
        /\ timers (fireTimer (fresh w) w2) = timers w ++ [t2])
    /\ (children (fireTimer (S (fresh w)) w2) = children w ++ [n1]
        /\ timers (fireTimer (S (fresh w)) w2) = timers w ++ [t1])
    /\ (children (fireTimer (S (fresh w)) (fireTimer (fresh w) w2)) = children w
        /\ timers (fireTimer (S (fresh w)) (fireTimer (fresh w) w2)) = timers w)
    /\ (is_nan (width (rect w)) = false -> is_nan (height (rect w)) = false ->
        let size := Math_max (width (rect w)) (height (rect w)) in
        (size = width (rect w) \/ size = height (rect w))
        /\ (width (rect w) <=? size) = true
        /\ (height (rect w) <=? size) = true).
Proof.
  intros o e1 e2 w Ha Hc [Hn Ht] r rd w1 w2 n1 n2 t1 t2.
  assert (Hsize := Math_max_larger (width (rect w)) (height (rect w))).
  destruct (handleClick_spawns r e1 w Ha Hc) as (C1 & T1 & F1 & R1 & A1 & _).
  fold w1 in C1, T1, F1, R1, A1.
  destruct (handleClick_spawns r e2 w1 A1 Hc) as (C2 & T2 & _).
  fold w2 in C2, T2. rewrite R1, F1, C1 in C2. rewrite F1, T1 in T2.
  rewrite <- app_assoc in C2, T2. cbn [app] in C2, T2.
  fold rd n1 n2 in C1, C2. fold rd t1 t2 in T1, T2.
  destruct (succ_eqb_false (fresh w)) as [Es Ep].
  assert (I1 : node_id n1 = fresh w) by reflexivity.
  assert (I2 : node_id n2 = S (fresh w)) by reflexivity.
  assert (J1 : timer_node t1 = fresh w) by reflexivity.
  assert (J2 : timer_node t2 = S (fresh w)) by reflexivity.
  clearbody n1 n2 t1 t2.
  assert (Hn' : forall n, In n (children w) -> node_id n < S (fresh w))
    by (intros n H; specialize (Hn n H); lia).
  assert (Ht' : forall t, In t (timers w) -> timer_node t < S (fresh w))
    by (intros t H; specialize (Ht t H); lia).
  assert (P1 : existsb (fun t => Nat.eqb (timer_node t) (fresh w)) (timers w2) = true).
  { rewrite T2, existsb_app. cbn [existsb]. rewrite J1, Nat.eqb_refl.
    apply Bool.orb_true_r. }
  assert (P2 : existsb (fun t => Nat.eqb (timer_node t) (S (fresh w))) (timers w2) = true).
  { rewrite T2, existsb_app. cbn [existsb]. rewrite J2, Nat.eqb_refl.
    rewrite !Bool.orb_true_r. reflexivity. }
  destruct (fireTimer_pending _ _ P1) as [FC1 FT1].
  destruct (fireTimer_pending _ _ P2) as [FC2 FT2].
  rewrite C2, filter_app, (not_this_node _ _ Hn) in FC1.
  rewrite T2, filter_app, (not_this_timer _ _ Ht) in FT1.
  rewrite C2, filter_app, (not_this_node _ _ Hn') in FC2.
  rewrite T2, filter_app, (not_this_timer _ _ Ht') in FT2.
  cbn [filter] in FC1, FT1, FC2, FT2.
  rewrite I1, I2, Nat.eqb_refl, Es in FC1.
  rewrite J1, J2, Nat.eqb_refl, Es in FT1.
  rewrite I1, I2, Nat.eqb_refl, Ep in FC2.
  rewrite J1, J2, Nat.eqb_refl, Ep in FT2.
  cbn [negb] in FC1, FT1, FC2, FT2.
  assert (P3 : existsb (fun t => Nat.eqb (timer_node t) (S (fresh w)))
                 (timers (fireTimer (fresh w) w2)) = true).
  { rewrite FT1, existsb_app. cbn [existsb]. rewrite J2, Nat.eqb_refl.
    rewrite !Bool.orb_true_r. reflexivity. }
  destruct (fireTimer_pending _ _ P3) as [FC3 FT3].
  rewrite FC1, filter_app, (not_this_node _ _ Hn') in FC3.
  rewrite FT1, filter_app, (not_this_timer _ _ Ht') in FT3.
  cbn [filter] in FC3, FT3.
  rewrite I2, Nat.eqb_refl in FC3. rewrite J2, Nat.eqb_refl in FT3.
  cbn [negb] in FC3, FT3. rewrite app_nil_r in FC3, FT3.
  split; [split; assumption |]. split; [split; assumption |].
  split; [split; assumption |]. split; [split; assumption |].
  split; [split; assumption |]. exact Hsize.
Qed.

Lemma click_spawns_one_ripple_witness :
  let w2 := handleClick (resolve noOptions) (mkMouse 10 10)
              (handleClick (resolve noOptions) centre page) in
  (children w2
   = [rippleFor (rippleDefaults (resolve noOptions)) box centre 0;
      rippleFor (rippleDefaults (resolve noOptions)) box (mkMouse 10 10) 1]
   /\ timers w2 = [mkTimer 600 0; mkTimer 600 1])
  /\ children (fireTimer 1 (fireTimer 0 w2)) = []
  /\ (width box <=? Math_max (width box) (height box)) = true.
Proof.
  assert (W : identitiesBelowFresh page) by (split; intros x []).
  pose proof (@click_spawns_one_ripple noOptions centre (mkMouse 10 10) page
                eq_refl eq_refl W) as H.
  cbv zeta in H. destruct H as (_ & H2 & _ & _ & H5 & H6).
  split; [exact H2 |]. split; [exact (proj1 H5) |].
  exact (proj1 (proj2 (H6 eq_refl eq_refl))).
Defined.

(** C7, counterexample.  With the resolved ripple colour empty, a click on an
    attached element spawns no ripple and registers no timer. *)
Lemma click_without_colour_counterexample :
  let w := handleClick (resolve (rippleWith "" 600 2)) centre page in
  attached page = true
  /\ children w = []
  /\ timers w = []
  /\ List.length (children w) <> S (List.length (children page)).
Proof.
  cbn. repeat split; try reflexivity. discriminate.
Qed.

(* ================================================================== *)
(** * What one commit does to the inline style *)

Lemma agree_refl w : agree w w.
Proof. repeat split. Qed.

Lemma agree_sym w1 w2 : agree w1 w2 -> agree w2 w1.
Proof. intros (A & B & C & D & E). repeat split; symmetry; assumption. Qed.

Lemma agree_trans w1 w2 w3 : agree w1 w2 -> agree w2 w3 -> agree w1 w3.
Proof.
  intros (A & B & C & D & E) (A' & B' & C' & D' & E').
  repeat split; etransitivity; eassumption.
Qed.

(** Each style effect, seen through the ref and the four properties. *)
Lemma applyHoverEffects_view r reduce tier b w :
  let w' := applyHoverEffects r reduce tier b w in
  attached w' = attached w
  /\ CSS.transform (style w')
     = (if attached w && negb reduce
        then (if b then hoverTransform r tier else neutralTransform r)
        else CSS.transform (style w))
  /\ CSS.filter (style w')
     = (if attached w && negb reduce
        then (if b then hoverFilter r tier else lit "none")
        else CSS.filter (style w))
  /\ CSS.transition (style w')
     = (if attached w && negb reduce && b
        then hoverTransition r tier
        else CSS.transition (style w))
  /\ CSS.boxShadow (style w') = CSS.boxShadow (style w).
Proof.
  destruct w as [a st rc ch an rk tm vb fr].
  unfold applyHoverEffects, hoverTransform, hoverFilter, hoverTransition,
    neutralTransform.
  destruct a, reduce, b; cbn -[getEffectScale]; repeat split; reflexivity.
Qed.

Lemma focusEffect_view r b w :
  let w' := focusEffect r b w in
  attached w' = attached w
  /\ CSS.transform (style w')
     = (if attached w && b then focusTransform (focusDefaults r)
        else CSS.transform (style w))
  /\ CSS.filter (style w') = CSS.filter (style w)
  /\ CSS.transition (style w')
     = (if attached w && b then focusTransition (focusDefaults r)
        else CSS.transition (style w))
  /\ CSS.boxShadow (style w')
     = (if attached w
        then (if b
              then (if Focus.glow (focusDefaults r)
                    then ("0 0 20px " ++ Focus.glowColor (focusDefaults r))%string
                    else CSS.boxShadow (style w))
              else "none")
        else CSS.boxShadow (style w)).
Proof.
  destruct w as [a st rc ch an rk tm vb fr].
  unfold focusEffect, focusTransform, focusTransition.
  destruct a, b, (Focus.glow (focusDefaults r)); cbn; repeat split; reflexivity.
Qed.

Lemma activeEffect_view r nav b w :
  let w' := activeEffect r nav b w in
  attached w' = attached w
  /\ CSS.transform (style w')
     = (if attached w && b then pressTransform (activeDefaults r)
        else CSS.transform (style w))
  /\ CSS.filter (style w') = CSS.filter (style w)
  /\ CSS.transition (style w')
     = (if attached w && b then pressTransition (activeDefaults r)
        else CSS.transition (style w))
  /\ CSS.boxShadow (style w') = CSS.boxShadow (style w).
Proof.
  destruct w as [a st rc ch an rk tm vb fr].
  unfold activeEffect, pressTransform, pressTransition.
  destruct a, b; cbn; try (repeat split; reflexivity).
  destruct ((Active.feedback (activeDefaults r) =? "haptic")%string
            || (Active.feedback (activeDefaults r) =? "both")%string),
    (hasVibrate nav); cbn; repeat split; reflexivity.
Qed.

(** The three together. *)
Lemma styleEffects_view r nav reduce tier hv fc pr w :
  let w' := styleEffects r nav reduce tier hv fc pr w in
  attached w' = attached w
  /\ CSS.transform (style w')
     = (if attached w
        then (if pr then pressTransform (activeDefaults r)
              else if fc then focusTransform (focusDefaults r)
              else if reduce then CSS.transform (style w)
              else if hv then hoverTransform r tier
              else neutralTransform r)
        else CSS.transform (style w))
  /\ CSS.filter (style w')
     = (if attached w && negb reduce
        then (if hv then hoverFilter r tier else lit "none")
        else CSS.filter (style w))
  /\ CSS.transition (style w')
     = (if attached w
        then (if pr then pressTransition (activeDefaults r)
              else if fc then focusTransition (focusDefaults r)
              else if negb reduce && hv then hoverTransition r tier
              else CSS.transition (style w))
        else CSS.transition (style w))
  /\ CSS.boxShadow (style w')
     = (if attached w
        then (if fc
              then (if Focus.glow (focusDefaults r)
                    then ("0 0 20px " ++ Focus.glowColor (focusDefaults r))%string
                    else CSS.boxShadow (style w))
              else "none")
        else CSS.boxShadow (style w)).
Proof.
  unfold styleEffects.
  destruct (applyHoverEffects_view r reduce tier hv w) as (A1 & T1 & F1 & R1 & B1).
  destruct (focusEffect_view r fc (applyHoverEffects r reduce tier hv w))
    as (A2 & T2 & F2 & R2 & B2).
  destruct (activeEffect_view r nav pr
              (focusEffect r fc (applyHoverEffects r reduce tier hv w)))
    as (A3 & T3 & F3 & R3 & B3).
  cbv zeta in *.
  rewrite A3, T3, F3, R3, B3, A2, T2, F2, R2, B2, A1, T1, F1, R1, B1.
  destruct (attached w), reduce, hv, fc, pr; repeat split; reflexivity.
Qed.

Lemma hover_agree r reduce tier b w1 w2 :
  agree w1 w2 ->
  agree (applyHoverEffects r reduce tier b w1) (applyHoverEffects r reduce tier b w2).
Proof.
  intros (A & B & C & D & E). unfold agree, applyHoverEffects. rewrite A.
  destruct (attached w2) eqn:A2, reduce, b; cbn; repeat split; congruence.
Qed.

Lemma focus_agree r b w1 w2 :
  agree w1 w2 -> agree (focusEffect r b w1) (focusEffect r b w2).
Proof.
  intros (A & B & C & D & E). unfold agree, focusEffect. rewrite A.
  destruct (attached w2) eqn:A2, b, (Focus.glow (focusDefaults r));
    cbn; repeat split; congruence.
Qed.

Lemma active_agree r nav b w1 w2 :
  agree w1 w2 -> agree (activeEffect r nav b w1) (activeEffect r nav b w2).
Proof.
  intros (A & B & C & D & E). unfold agree, activeEffect. rewrite A.
  destruct (attached w2) eqn:A2, b; cbn; try (repeat split; congruence).
  destruct ((Active.feedback (activeDefaults r) =? "haptic")%string
            || (Active.feedback (activeDefaults r) =? "both")%string),
    (hasVibrate nav); cbn; repeat split; congruence.
Qed.

Lemma styleEffects_agree r nav reduce tier hv fc pr w1 w2 :
  agree w1 w2 ->
  agree (styleEffects r nav reduce tier hv fc pr w1)
        (styleEffects r nav reduce tier hv fc pr w2).
Proof.
  intro H. unfold styleEffects.
  apply active_agree, focus_agree, hover_agree, H.
Qed.

Lemma setup_agree gpu tier w : agree (setupGPUOptimization gpu tier w) w.
Proof.
  unfold agree, setupGPUOptimization.
  destruct (attached w) eqn:A, gpu, (tier =? "economy")%string;
    cbn; repeat split; congruence.
Qed.

Lemma gpuCleanup_agree gpu w : agree (gpuCleanup gpu w) w.
Proof.
  unfold agree, gpuCleanup.
  destruct (attached w) eqn:A, gpu; cbn; repeat split; congruence.
Qed.

Lemma loadingCleanup_agree cell w : agree (loadingCleanup cell w) w.
Proof. destruct cell; unfold agree; cbn; repeat split; reflexivity. Qed.

Lemma loadingEffect_agree r b w : agree (snd (loadingEffect r b w)) w.
Proof.
  unfold agree, loadingEffect.
  destruct (negb (attached w) || negb b); cbn; repeat split; reflexivity.
Qed.

(** As far as [agree] sees, a commit is its three style effects. *)
Lemma commit_agree o nav win h w :
  agree (snd (commit o nav win h w))
        (styleEffects (resolve o) nav (memoReduce o win h) (memoTier o nav h)
                      (isHovered h) (isFocused h) (isActive h) w).
Proof.
  unfold commit. cbn [snd].
  eapply agree_trans; [apply loadingEffect_agree |].
  apply styleEffects_agree.
  assert (G : forall w0, agree
                (if match gpuEffect h with
                    | Some (g, t) =>
                        negb (Bool.eqb g (r_gpu (resolve o))
                              && String.eqb t (memoTier o nav h))
                    | None => true
                    end
                 then setupGPUOptimization (r_gpu (resolve o)) (memoTier o nav h) w0
                 else w0) w0).
  { intro w0. destruct (match gpuEffect h with Some _ => _ | None => _ end);
      [apply setup_agree | apply agree_refl]. }
  eapply agree_trans; [apply G |].
  eapply agree_trans; [apply loadingCleanup_agree |].
  destruct (gpuEffect h) as [[g t]|]; [| apply agree_refl].
  destruct (negb _); [apply gpuCleanup_agree | apply agree_refl].
Qed.

(** The memo cells answer the same once they hold a value for the same
    dependency. *)
Lemma useMemo_again {D V : Type} (same : D -> D -> bool) cell d (v v' : V) :
  (forall x, same x x = true) ->
  (forall x y, same x y = true -> x = y) ->
  useMemo same (Some (useMemo same cell d v)) d v' = useMemo same cell d v.
Proof.
  intros R E. unfold useMemo at 1.
  destruct (useMemo same cell d v) as [d0 v0] eqn:U.
  assert (K : d0 = d).
  { unfold useMemo in U. destruct cell as [[d1 v1]|].
    - destruct (same d1 d) eqn:S; inversion U; subst; [apply E, S | reflexivity].
    - inversion U; reflexivity. }
  subst d0. rewrite R. reflexivity.
Qed.

Lemma memoTier_commit o nav win h w :
  memoTier o nav (fst (commit o nav win h w)) = memoTier o nav h.
Proof.
  unfold memoTier, perfCell at 1. cbn [commit fst perfMemo].
  unfold perfCell. rewrite useMemo_again; [reflexivity | apply String.eqb_refl |].
  intros x y. apply String.eqb_eq.
Qed.

Lemma memoReduce_commit o nav win h w :
  memoReduce o win (fst (commit o nav win h w)) = memoReduce o win h.
Proof.
  unfold memoReduce, motionCell at 1. cbn [commit fst motionMemo].
  unfold motionCell. rewrite useMemo_again; [reflexivity | apply Bool.eqb_reflx |].
  intros x y. apply Bool.eqb_prop.
Qed.

Lemma setState_changes f b c :
  mounted c = true ->
  getFlag f (hook c) = negb b ->
  setState f b c = recommit c (options c) (putFlag f b (hook c)).
Proof.
  intros M G. unfold setState. rewrite M, G. destruct b; reflexivity.
Qed.

Lemma recommit_agree c o h :
  agree (world (recommit c o h))
        (styleEffects (resolve o) (navigator c) (memoReduce o (window c) h)
                      (memoTier o (navigator c) h)
                      (isHovered h) (isFocused h) (isActive h) (world c)).
Proof. apply commit_agree. Qed.

Lemma recommit_memoTier c o h :
  memoTier o (navigator c) (hook (recommit c o h)) = memoTier o (navigator c) h.
Proof. apply memoTier_commit. Qed.

Lemma recommit_memoReduce c o h :
  memoReduce o (window c) (hook (recommit c o h)) = memoReduce o (window c) h.
Proof. apply memoReduce_commit. Qed.

(** Un-hovering after hovering restores what un-hovered left, whatever the
    page looked like before. *)
Lemma styleEffects_round_trip r nav reduce tier fc pr w :
  let y := styleEffects r nav reduce tier false fc pr w in
  let x := styleEffects r nav reduce tier false fc pr
             (styleEffects r nav reduce tier true fc pr y) in
  CSS.transform (style x) = CSS.transform (style y)
  /\ CSS.filter (style x) = CSS.filter (style y).
Proof.
  intros y x.
  destruct (styleEffects_view r nav reduce tier false fc pr w) as (A1 & T1 & F1 & _).
  fold y in A1, T1, F1.
  destruct (styleEffects_view r nav reduce tier true fc pr y) as (A2 & T2 & F2 & _).
  destruct (styleEffects_view r nav reduce tier false fc pr
              (styleEffects r nav reduce tier true fc pr y)) as (A3 & T3 & F3 & _).
  fold x in A3, T3, F3. cbv zeta in *.
  rewrite T3, F3, A2, T2, F2, A1, T1, F1.
  destruct (attached w), reduce, fc, pr; split; reflexivity.
Qed.

(** C6.  Take the controller right after any commit in which it is not
    hovered.  Hovering and un-hovering again, with nothing else happening in
    between, leaves the transform and the filter of the element exactly as
    they were after that commit; the other three flags do not move.  When the
    hover effect is the one in force (ref set, motion not reduced, neither
    focused nor pressed) those values are the neutral ones: [translateZ(0)]
    with GPU acceleration and the empty string without, and filter [none]. *)
Theorem hover_round_trip :
  forall (c0 : Controller) (o : MicroInteractionOptions) (h0 : HookState),
    isHovered h0 = false ->
    let c := recommit c0 o h0 in
    let c1 := step onMouseEnter c in
    let c2 := step onMouseLeave c1 in
    (isHovered (hook c1) = true /\ isHovered (hook c2) = false)
    /\ (isFocused (hook c2) = isFocused (hook c)
        /\ isActive (hook c2) = isActive (hook c)
        /\ isLoading (hook c2) = isLoading (hook c))
    /\ CSS.transform (style (world c2)) = CSS.transform (style (world c))
    /\ CSS.filter (style (world c2)) = CSS.filter (style (world c))
    /\ (attached (world c0) = true ->
        memoReduce o (window c0) h0 = false ->
        isFocused h0 = false -> isActive h0 = false ->
        CSS.transform (style (world c)) = neutralTransform (resolve o)
        /\ CSS.filter (style (world c)) = lit "none").
Proof.
  intros c0 o h0 H c c1 c2.
  assert (E1 : c1 = recommit c o (putFlag Hovered true (hook c))).
  { unfold c1. cbn [step]. apply setState_changes; [reflexivity | exact H]. }
  assert (E2 : c2 = recommit c1 o (putFlag Hovered false (hook c1))).
  { unfold c2. cbn [step]. rewrite E1. apply setState_changes; reflexivity. }
  split; [split; [rewrite E1 | rewrite E2]; reflexivity |].
  split; [rewrite E2, E1; repeat split; reflexivity |].
  set (r := resolve o). set (nav := navigator c0). set (win := window c0).
  set (rd := memoReduce o win h0). set (tr := memoTier o nav h0).
  set (fc := isFocused h0). set (pr := isActive h0).
  assert (A0 : agree (world c) (styleEffects r nav rd tr false fc pr (world c0))).
  { pose proof (recommit_agree c0 o h0) as K. rewrite H in K. exact K. }
  assert (A1 : agree (world c1) (styleEffects r nav rd tr true fc pr (world c))).
  { rewrite E1. pose proof (recommit_agree c o (putFlag Hovered true (hook c))) as K.
    change (memoReduce o (window c) (putFlag Hovered true (hook c)))
      with (memoReduce o (window c0) (hook (recommit c0 o h0))) in K.
    change (memoTier o (navigator c) (putFlag Hovered true (hook c)))
      with (memoTier o (navigator c0) (hook (recommit c0 o h0))) in K.
    rewrite recommit_memoReduce, recommit_memoTier in K. exact K. }
  assert (A2 : agree (world c2) (styleEffects r nav rd tr false fc pr (world c1))).
  { rewrite E2. pose proof (recommit_agree c1 o (putFlag Hovered false (hook c1))) as K.
    change (memoReduce o (window c1) (putFlag Hovered false (hook c1)))
      with (memoReduce o (window c1) (hook c1)) in K.
    change (memoTier o (navigator c1) (putFlag Hovered false (hook c1)))
      with (memoTier o (navigator c1) (hook c1)) in K.
    rewrite E1 in K.
    change (window (recommit c o (putFlag Hovered true (hook c)))) with (window c) in K.
    change (navigator (recommit c o (putFlag Hovered true (hook c))))
      with (navigator c) in K.
    rewrite recommit_memoReduce, recommit_memoTier in K.
    change (memoReduce o (window c) (putFlag Hovered true (hook c)))
      with (memoReduce o (window c0) (hook (recommit c0 o h0))) in K.
    change (memoTier o (navigator c) (putFlag Hovered true (hook c)))
      with (memoTier o (navigator c0) (hook (recommit c0 o h0))) in K.
    rewrite recommit_memoReduce, recommit_memoTier in K.
    rewrite E1. exact K. }
  assert (A : agree (world c2)
                (styleEffects r nav rd tr false fc pr
                   (styleEffects r nav rd tr true fc pr
                      (styleEffects r nav rd tr false fc pr (world c0))))).
  { eapply agree_trans; [exact A2 |]. apply styleEffects_agree.
    eapply agree_trans; [exact A1 |]. apply styleEffects_agree. exact A0. }
  destruct (styleEffects_round_trip r nav rd tr fc pr (world c0)) as [RT RF].
  destruct A as (_ & AT & AF & _). destruct A0 as (_ & BT & BF & _).
  split; [rewrite AT, BT; exact RT |].
  split; [rewrite AF, BF; exact RF |].
  intros Ha Hr Hf Hp. rewrite BT, BF.
  fold win in Hr. fold rd in Hr. fold fc in Hf. fold pr in Hp.
  rewrite Hr, Hf, Hp.
  destruct (styleEffects_view r nav false tr false false false (world c0))
    as (_ & T & F & _).
  cbv zeta in T, F. rewrite T, F, Ha. split; reflexivity.
Qed.

Lemma hover_round_trip_witness :
  let c := mount noOptions plainNavigator plainWindow page in
  let c2 := step onMouseLeave (step onMouseEnter c) in
  CSS.transform (style (world c2)) = CSS.transform (style (world c))
  /\ CSS.filter (style (world c2)) = CSS.filter (style (world c))
  /\ CSS.transform (style (world c)) = lit "translateZ(0)"
  /\ CSS.filter (style (world c)) = lit "none".
Proof.
  pose proof (hover_round_trip
                (mkController noOptions plainNavigator plainWindow true
                              initialHook page)
                noOptions initialHook eq_refl) as H.
  cbv zeta in H. destruct H as (_ & _ & T & F & N).
  split; [exact T |]. split; [exact F |].
  exact (N eq_refl eq_refl eq_refl eq_refl).
Defined.

(* ================================================================== *)
(** * Leaving the pressed state *)

Lemma activeEffect_released r nav w : activeEffect r nav false w = w.
Proof. unfold activeEffect. destruct (negb (attached w)); reflexivity. Qed.

Lemma styleEffects_pressed r nav reduce tier hv fc w :
  attached w = true ->
  let y := styleEffects r nav reduce tier hv fc true w in
  CSS.transform (style y) = pressTransform (activeDefaults r)
  /\ CSS.transition (style y) = pressTransition (activeDefaults r).
Proof.
  intros Ha y.
  destruct (styleEffects_view r nav reduce tier hv fc true w) as (_ & T & _ & R & _).
  fold y in T, R. rewrite T, R, Ha. split; reflexivity.
Qed.

Lemma styleEffects_idle r nav tier hv pr w :
  let y := styleEffects r nav true tier hv false pr w in
  agree (focusEffect r false (applyHoverEffects r true tier hv y)) y.
Proof.
  intro y.
  destruct (styleEffects_view r nav true tier hv false pr w) as (A & _ & _ & _ & B).
  fold y in A, B.
  destruct (applyHoverEffects_view r true tier hv y) as (A1 & T1 & F1 & R1 & B1).
  destruct (focusEffect_view r false (applyHoverEffects r true tier hv y))
    as (A2 & T2 & F2 & R2 & B2).
  cbv zeta in *. unfold agree.
  rewrite A2, T2, F2, R2, B2, A1, T1, F1, R1, B1, B, A.
  destruct (attached w); repeat split; reflexivity.
Qed.

Lemma press_is_not_focus ad fd : focusTransform fd <> pressTransform ad.
Proof. intro X. apply (f_equal (@List.length piece)) in X. discriminate X. Qed.

Lemma press_is_not_hover r tier ad (hv : bool) :
  (if hv then hoverTransform r tier else neutralTransform r) <> pressTransform ad.
Proof.
  intro X. apply (f_equal (@List.length piece)) in X. destruct hv; discriminate X.
Qed.

(** C9 (as the code has it).  The press effect has no branch for leaving the
    pressed state: run with [isActive] false it leaves the page as it is.  But
    the commit of the release re-runs the hover and the focus effect, and on
    an attached element they overwrite what the press wrote at once: the
    transform becomes the focus transform when focused, else (unless motion is
    reduced) the hover transform when hovered and the neutral one when not;
    the transition becomes the focus transition when focused, the hover
    transition when hovered without reduced motion, and stays the press
    transition otherwise.  So the transform changes in that commit whenever
    the element is focused or motion is not reduced; transform, filter,
    transition and box shadow all stay as the press left them only when
    motion is reduced and the element is not focused, or when no element is
    attached. *)
Theorem release_is_overwritten_at_once :
  forall (c0 : Controller) (o : MicroInteractionOptions) (h0 : HookState),
    isActive h0 = true ->
    let r := resolve o in
    let reduce := memoReduce o (window c0) h0 in
    let tier := memoTier o (navigator c0) h0 in
    let c := recommit c0 o h0 in
    let c' := step onMouseUp c in
    (forall nav w, activeEffect r nav false w = w)
    /\ isActive (hook c') = false
    /\ agree (world c')
             (focusEffect r (isFocused h0)
                (applyHoverEffects r reduce tier (isHovered h0) (world c)))
    /\ (attached (world c0) = true ->
        CSS.transform (style (world c)) = pressTransform (activeDefaults r)
        /\ CSS.transition (style (world c)) = pressTransition (activeDefaults r)
        /\ CSS.transform (style (world c'))
           = (if isFocused h0 then focusTransform (focusDefaults r)
              else if reduce then pressTransform (activeDefaults r)
              else if isHovered h0 then hoverTransform r tier
              else neutralTransform r)
        /\ CSS.transition (style (world c'))
           = (if isFocused h0 then focusTransition (focusDefaults r)
              else if negb reduce && isHovered h0 then hoverTransition r tier
              else pressTransition (activeDefaults r))
        /\ (reduce && negb (isFocused h0) = false ->
            CSS.transform (style (world c')) <> CSS.transform (style (world c))))
    /\ (reduce = true -> isFocused h0 = false -> agree (world c') (world c))
    /\ (attached (world c0) = false -> agree (world c') (world c)).
Proof.
  intros c0 o h0 H r reduce tier c c'.
  assert (E : c' = recommit c o (putFlag Activated false (hook c))).
  { unfold c'. cbn [step]. apply setState_changes; [reflexivity | exact H]. }
  assert (A0 : agree (world c)
                 (styleEffects r (navigator c0) reduce tier
                               (isHovered h0) (isFocused h0) true (world c0))).
  { pose proof (recommit_agree c0 o h0) as K. rewrite H in K. exact K. }
  assert (A1 : agree (world c')
                 (focusEffect r (isFocused h0)
                    (applyHoverEffects r reduce tier (isHovered h0) (world c)))).
  { rewrite E.
    pose proof (recommit_agree c o (putFlag Activated false (hook c))) as K.
    change (memoReduce o (window c) (putFlag Activated false (hook c)))
      with (memoReduce o (window c0) (hook (recommit c0 o h0))) in K.
    change (memoTier o (navigator c) (putFlag Activated false (hook c)))
      with (memoTier o (navigator c0) (hook (recommit c0 o h0))) in K.
    rewrite recommit_memoReduce, recommit_memoTier in K.
    unfold styleEffects in K. rewrite activeEffect_released in K. exact K. }
  assert (At : attached (world c) = attached (world c0)).
  { destruct A0 as (A & _). rewrite A.
    exact (proj1 (styleEffects_view r (navigator c0) reduce tier
                    (isHovered h0) (isFocused h0) true (world c0))). }
  assert (Ia : isActive (hook c') = false) by (rewrite E; reflexivity).
  assert (Idle : reduce = true -> isFocused h0 = false ->
                 agree (world c') (world c)).
  { intros Hr Hf. eapply agree_trans; [exact A1 |].
    rewrite Hr, Hf in *.
    eapply agree_trans.
    - apply focus_agree, hover_agree. exact A0.
    - eapply agree_trans; [| apply agree_sym; exact A0].
      apply styleEffects_idle. }
  clearbody c c' reduce tier r.
  destruct (focusEffect_view r (isFocused h0)
              (applyHoverEffects r reduce tier (isHovered h0) (world c)))
    as (A2 & T2 & F2 & R2 & B2).
  destruct (applyHoverEffects_view r reduce tier (isHovered h0) (world c))
    as (A3 & T3 & F3 & R3 & B3).
  cbv zeta in A2, T2, F2, R2, B2, A3, T3, F3, R3, B3.
  split; [intros nav w; apply activeEffect_released |].
  split; [exact Ia |].
  split; [exact A1 |].
  split; [| split; [exact Idle |]].
  - intro Ha.
    assert (P : CSS.transform (style (world c)) = pressTransform (activeDefaults r)
                /\ CSS.transition (style (world c))
                   = pressTransition (activeDefaults r)).
    { destruct A0 as (_ & T & _ & Tr & _). rewrite T, Tr.
      apply styleEffects_pressed. exact Ha. }
    destruct P as [PT PR].
    destruct A1 as (_ & T1 & _ & R1 & _).
    assert (T : CSS.transform (style (world c'))
                = (if isFocused h0 then focusTransform (focusDefaults r)
                   else if reduce then pressTransform (activeDefaults r)
                   else if isHovered h0 then hoverTransform r tier
                   else neutralTransform r)).
    { rewrite T1, T2, A3, T3, At, Ha, PT.
      destruct (isFocused h0), reduce, (isHovered h0); reflexivity. }
    assert (R : CSS.transition (style (world c'))
                = (if isFocused h0 then focusTransition (focusDefaults r)
                   else if negb reduce && isHovered h0 then hoverTransition r tier
                   else pressTransition (activeDefaults r))).
    { rewrite R1, R2, A3, R3, At, Ha, PR.
      destruct (isFocused h0), reduce, (isHovered h0); reflexivity. }
    split; [exact PT |]. split; [exact PR |].
    split; [exact T |]. split; [exact R |].
    intro N. rewrite T, PT.
    destruct (isFocused h0); [apply press_is_not_focus |].
    destruct reduce; [discriminate N |].
    apply press_is_not_hover.
  - intro Hd. destruct A1 as (A1 & T1 & F1 & R1 & B1).
    unfold agree.
    rewrite A1, T1, F1, R1, B1, A2, T2, F2, R2, B2, A3, T3, F3, R3, B3, At, Hd.
    repeat split.
Qed.

Lemma release_is_overwritten_at_once_witness :
  let c := step onMouseDown (mount noOptions plainNavigator plainWindow page) in
  let o := mkOptions None None (Some true) None None None None None None None None in
  let d := step onMouseDown (mount o plainNavigator plainWindow page) in
  CSS.transform (style (world c)) = pressTransform (activeDefaults (resolve noOptions))
  /\ CSS.transform (style (world (step onMouseUp c)))
     = neutralTransform (resolve noOptions)
  /\ CSS.transition (style (world (step onMouseUp c)))
     = pressTransition (activeDefaults (resolve noOptions))
  /\ CSS.transform (style (world (step onMouseUp c)))
     <> CSS.transform (style (world c))
  /\ agree (world (step onMouseUp d)) (world d).
Proof.
  pose (o := mkOptions None None (Some true) None None None None None None None None).
  pose proof (release_is_overwritten_at_once
                (mount noOptions plainNavigator plainWindow page) noOptions
                (putFlag Activated true
                   (hook (mount noOptions plainNavigator plainWindow page)))
                eq_refl) as H.
  pose proof (release_is_overwritten_at_once
                (mount o plainNavigator plainWindow page) o
                (putFlag Activated true
                   (hook (mount o plainNavigator plainWindow page)))
                eq_refl) as K.
  cbv zeta in H, K.
  destruct H as (_ & _ & _ & P & _). destruct K as (_ & _ & _ & _ & S & _).
  destruct (P eq_refl) as (PT & _ & T & R & N).
  split; [exact PT |]. split; [exact T |]. split; [exact R |].
  split; [exact (N eq_refl) |]. exact (S eq_refl eq_refl).
Defined.

(** C9, counterexample.  With the default options, pressing writes the
    transform [scale(0.95) rotate(0deg)]; the release that follows changes it
    to [translateZ(0)] in its own commit (the hover effect re-runs), so a
    style change is applied for that transition. *)
Lemma release_resets_transform_counterexample :
  let c := step onMouseDown (mount noOptions plainNavigator plainWindow page) in
  let c' := step onMouseUp c in
  CSS.transform (style (world c))
  = [Lit "scale("; Num 0.95; Lit ") rotate("; Num 0; Lit "deg)"]
  /\ CSS.transform (style (world c')) = lit "translateZ(0)"
  /\ CSS.transform (style (world c')) <> CSS.transform (style (world c)).
Proof.
  split; [reflexivity |]. split; [reflexivity |].
  intro X. apply (f_equal (@List.length piece)) in X. discriminate X.
Qed.

(* ================================================================== *)
(** * What one commit does to the animations *)

Lemma sameRest_trans w1 w2 w3 : sameRest w1 w2 -> sameRest w2 w3 -> sameRest w1 w3.
Proof.
  intros (A & B & C) (A' & B' & C'). repeat split; etransitivity; eassumption.
Qed.

Ltac frame_cases :=
  cbn;
  repeat match goal with
         | |- context [if ?b then _ else _] => destruct b; cbn
         end;
  repeat split; reflexivity.

Lemma applyHoverEffects_rest r reduce tier b w :
  sameRest (applyHoverEffects r reduce tier b w) w.
Proof.
  destruct w as [a st rc ch an rk tm vb fr].
  unfold sameRest, applyHoverEffects. destruct a, reduce, b; repeat split.
Qed.

Lemma focusEffect_rest r b w : sameRest (focusEffect r b w) w.
Proof.
  destruct w as [a st rc ch an rk tm vb fr].
  unfold sameRest, focusEffect.
  destruct a, b, (Focus.glow (focusDefaults r)); repeat split.
Qed.

Lemma activeEffect_rest r nav b w : sameRest (activeEffect r nav b w) w.
Proof.
  destruct w as [a st rc ch an rk tm vb fr].
  unfold sameRest, activeEffect. destruct a, b; try (repeat split; fail).
  destruct ((Active.feedback (activeDefaults r) =? "haptic")%string
            || (Active.feedback (activeDefaults r) =? "both")%string),
    (hasVibrate nav); repeat split.
Qed.

Lemma styleEffects_rest r nav reduce tier hv fc pr w :
  sameRest (styleEffects r nav reduce tier hv fc pr w) w.
Proof.
  unfold styleEffects.
  eapply sameRest_trans; [apply activeEffect_rest |].
  eapply sameRest_trans; [apply focusEffect_rest |].
  apply applyHoverEffects_rest.
Qed.

Lemma setup_rest gpu tier w : sameRest (setupGPUOptimization gpu tier w) w.
Proof.
  destruct w as [a st rc ch an rk tm vb fr].
  unfold sameRest, setupGPUOptimization. destruct a, gpu; frame_cases.
Qed.

Lemma gpuCleanup_rest gpu w : sameRest (gpuCleanup gpu w) w.
Proof.
  destruct w as [a st rc ch an rk tm vb fr].
  unfold sameRest, gpuCleanup. destruct a, gpu; frame_cases.
Qed.

(** The page a commit hands to its loading effect: the ref and the next
    identity are those of the page before the commit, and the handles are
    those the loading clean-up left. *)
Lemma commit_loading o nav win h w :
  exists w',
    snd (commit o nav win h w) = snd (loadingEffect (resolve o) (isLoading h) w')
    /\ loadingEffectCell (fst (commit o nav win h w))
       = fst (loadingEffect (resolve o) (isLoading h) w')
    /\ attached w' = attached w
    /\ fresh w' = fresh w
    /\ animations w' = animations (loadingCleanup (loadingEffectCell h) w).
Proof.
  unfold commit. cbn [fst snd loadingEffectCell].
  eexists. split; [reflexivity |]. split; [reflexivity |].
  assert (G : forall w0 (b : bool) g t,
             sameRest (if b then setupGPUOptimization g t w0 else w0) w0).
  { intros w0 [] g t; [apply setup_rest | repeat split]. }
  assert (K : sameRest
                (match gpuEffect h with
                 | Some (g, _) =>
                     if match gpuEffect h with
                        | Some (g0, t) =>
                            negb (Bool.eqb g0 (r_gpu (resolve o))
                                  && String.eqb t (memoTier o nav h))
                        | None => true
                        end
                     then gpuCleanup g w else w
                 | None => w
                 end) w).
  { destruct (gpuEffect h) as [[g t]|]; [| repeat split].
    destruct (negb _); [apply gpuCleanup_rest | repeat split]. }
  match goal with
  | |- attached ?x = _ /\ _ =>
      assert (S : sameRest x
                    (loadingCleanup (loadingEffectCell h)
                       (match gpuEffect h with
                        | Some (g, _) =>
                            if match gpuEffect h with
                               | Some (g0, t) =>
                                   negb (Bool.eqb g0 (r_gpu (resolve o))
                                         && String.eqb t (memoTier o nav h))
                               | None => true
                               end
                            then gpuCleanup g w else w
                        | None => w
                        end)))
  end.
  { eapply sameRest_trans; [apply styleEffects_rest |]. apply G. }
  destruct S as (A & B & C). destruct K as (A' & B' & C').
  destruct (loadingEffectCell h) as [n|]; cbn [loadingCleanup] in *.
  - unfold cancel in *. cbn [attached fresh animations set_animations] in *.
    rewrite A, B, C, A', B', C'. repeat split.
  - rewrite A, B, C, A', B', C'. repeat split.
Qed.

(* ================================================================== *)
(** * At most one loading animation *)

Lemma playing_animations w1 w2 :
  animations w1 = animations w2 -> playing w1 = playing w2.
Proof. unfold playing. intros ->. reflexivity. Qed.

Lemma playing_cancel id w :
  playing (cancel id w)
  = filter (fun a => negb (Nat.eqb (anim_id a) id)) (playing w).
Proof.
  unfold playing, cancel. cbn [animations set_animations].
  induction (animations w) as [| a l IH]; [reflexivity |].
  cbn [map filter]. rewrite IH.
  destruct a as [i k d s]. cbn [anim_id anim_state anim_keyframes anim_duration].
  destruct (Nat.eqb i id) eqn:E, s; cbn [anim_state filter anim_id negb];
    rewrite ?E; reflexivity.
Qed.

Lemma owns_cleanup h w :
  owns h w -> playing (loadingCleanup (loadingEffectCell h) w) = [].
Proof.
  unfold owns. destruct (loadingEffectCell h) as [id|]; cbn [loadingCleanup].
  - intros (a & P & I). rewrite playing_cancel, P. cbn [filter].
    rewrite I, Nat.eqb_refl. reflexivity.
  - intro P. exact P.
Qed.

Lemma loadingEffect_owns r b w :
  playing w = [] ->
  match fst (loadingEffect r b w) with
  | Some id => (exists a, playing (snd (loadingEffect r b w)) = [a] /\ anim_id a = id)
               /\ b = true
  | None => playing (snd (loadingEffect r b w)) = []
  end.
Proof.
  intro P. unfold loadingEffect.
  destruct (negb (attached w) || negb b) eqn:G; cbn [fst snd]; [exact P |].
  split.
  - exists (mkAnimation (fresh w)
                        (keyframes (Loading.animation (loadingDefaults r)))
                        (Loading.duration (loadingDefaults r)) running).
    split; [| reflexivity].
    unfold playing, animate. cbn [snd fst animations set_fresh set_animations].
    rewrite filter_app. fold (playing w). rewrite P. reflexivity.
  - destruct b; [reflexivity |]. rewrite Bool.orb_true_r in G. discriminate G.
Qed.

Lemma commit_owns o nav win h w :
  owns h w ->
  owns (fst (commit o nav win h w)) (snd (commit o nav win h w))
  /\ (loadingEffectCell (fst (commit o nav win h w)) <> None -> isLoading h = true).
Proof.
  intro O. destruct (commit_loading o nav win h w) as (w' & S & C & _ & _ & An).
  assert (P : playing w' = []).
  { rewrite (playing_animations _ _ An). apply owns_cleanup, O. }
  pose proof (loadingEffect_owns (resolve o) (isLoading h) w' P) as L.
  unfold owns. rewrite C, S.
  destruct (fst (loadingEffect (resolve o) (isLoading h) w')) as [id|].
  - destruct L as [L B]. split; [exact L | intros _; exact B].
  - split; [exact L | intro N; exfalso; apply N; reflexivity].
Qed.

Lemma recommit_invariant c o h :
  owns h (world c) -> loadingInvariant (recommit c o h).
Proof.
  intro O. destruct (commit_owns o (navigator c) (window c) h (world c) O) as [O' L].
  split; [exact O' |].
  intro N. split; [| reflexivity]. exact (L N).
Qed.

Lemma owns_putFlag f b h w : owns h w -> owns (putFlag f b h) w.
Proof. intro O. exact O. Qed.

Lemma setState_invariant f b c :
  loadingInvariant c -> loadingInvariant (setState f b c).
Proof.
  intros [O L]. unfold setState.
  destruct (negb (mounted c) || Bool.eqb (getFlag f (hook c)) b); [split; assumption |].
  apply recommit_invariant, owns_putFlag, O.
Qed.

Lemma withWorld_invariant (f : World -> World) c :
  (forall w, animations (f w) = animations w) ->
  loadingInvariant c -> loadingInvariant (withWorld f c).
Proof.
  intros F [O L]. split; [| exact L].
  unfold owns in *. cbn [withWorld hook world].
  rewrite (playing_animations _ _ (F (world c))). exact O.
Qed.

Lemma handleClick_animations r e w : animations (handleClick r e w) = animations w.
Proof.
  unfold handleClick, createRipple.
  destruct (truthy_str _), (attached w); cbn; try reflexivity.
  destruct (rippleKeyframes w); reflexivity.
Qed.

Lemma fireTimer_animations k w : animations (fireTimer k w) = animations w.
Proof. unfold fireTimer. destruct (existsb _ _); reflexivity. Qed.

Lemma magneticMove_animations md e w :
  animations (MagneticEffect.handleMouseMove md e w) = animations w.
Proof.
  unfold MagneticEffect.handleMouseMove.
  match goal with |- context [if ?b then _ else _] => destruct b end; reflexivity.
Qed.

(** On a detached ref the GPU clean-up does nothing. *)
Lemma gpuCleanup_detached gpu w :
  gpuCleanup gpu (set_attached false w) = set_attached false w.
Proof. reflexivity. Qed.

Lemma unmount_gpu_detached (cell : option (bool * string)) w :
  match cell with
  | Some (g, _) => gpuCleanup g (set_attached false w)
  | None => set_attached false w
  end = set_attached false w.
Proof. destruct cell as [[g t]|]; reflexivity. Qed.

Lemma step_invariant ev c : loadingInvariant c -> loadingInvariant (step ev c).
Proof.
  intro I. destruct ev; cbn [step]; try (apply setState_invariant, I).
  - destruct (mounted c); [| exact I].
    apply withWorld_invariant; [apply handleClick_animations | exact I].
  - destruct (mounted c); [| exact I].
    destruct I as [O L]. apply recommit_invariant, O.
  - destruct (mounted c); [| exact I].
    destruct I as [O L]. split.
    + unfold owns, unmountEffects. cbn [hook world fst snd loadingEffectCell].
      rewrite <- (owns_cleanup _ _ O), unmount_gpu_detached.
      destruct (loadingEffectCell (hook c)) as [id|]; cbn [loadingCleanup].
      * rewrite !playing_cancel. reflexivity.
      * reflexivity.
    + intro N. exfalso. apply N. reflexivity.
  - assert (I' : loadingInvariant
                   match tiltListeners (hook c) with
                   | Some td => if overElement
                                then withWorld (TiltEffect.handleMouseMove td e) c
                                else c
                   | None => c
                   end).
    { destruct (tiltListeners (hook c)); [| exact I].
      destruct overElement; [| exact I].
      apply withWorld_invariant; [reflexivity | exact I]. }
    revert I'. generalize (match tiltListeners (hook c) with
                           | Some td => if overElement
                                        then withWorld (TiltEffect.handleMouseMove td e) c
                                        else c
                           | None => c
                           end).
    intros c' I'. destruct (magneticListeners (hook c')); [| exact I'].
    apply withWorld_invariant; [apply magneticMove_animations | exact I'].
  - assert (I' : loadingInvariant
                   match magneticListeners (hook c) with
                   | Some _ => withWorld MagneticEffect.handleMouseLeave c
                   | None => c
                   end).
    { destruct (magneticListeners (hook c)); [| exact I].
      apply withWorld_invariant; [reflexivity | exact I]. }
    revert I'. generalize (match magneticListeners (hook c) with
                           | Some _ => withWorld MagneticEffect.handleMouseLeave c
                           | None => c
                           end).
    intros c' I'. destruct (tiltListeners (hook c')); [| exact I'].
    apply withWorld_invariant; [reflexivity | exact I'].
  - apply withWorld_invariant; [apply fireTimer_animations | exact I].
  - apply withWorld_invariant; [reflexivity | exact I].
  - apply withWorld_invariant; [reflexivity | exact I].
Qed.

Lemma run_invariant evs : forall c, loadingInvariant c -> loadingInvariant (run evs c).
Proof.
  induction evs as [| ev evs IH]; intros c I; [exact I |].
  cbn [run fold_left]. apply IH, step_invariant, I.
Qed.

(** C3.  Start from a page on which no animation is playing and mount the
    hook; after any sequence of events at most one animation handle is
    playing.  If one is, it is the handle the loading effect's pending
    clean-up will cancel (so the next commit cancels it before it creates
    another), the hook is mounted and its loading flag is set. *)
Theorem one_loading_animation :
  forall (o : MicroInteractionOptions) (nav : Navigator) (win : Window)
         (w : World) (evs : list Event),
    playing w = [] ->
    let c := run evs (mount o nav win w) in
    List.length (playing (world c)) <= 1
    /\ (forall a, In a (playing (world c)) ->
                  loadingEffectCell (hook c) = Some (anim_id a)
                  /\ isLoading (hook c) = true /\ mounted c = true).
Proof.
  intros o nav win w evs P c.
  assert (I : loadingInvariant c).
  { apply run_invariant. unfold mount. apply recommit_invariant, P. }
  destruct I as [O L]. unfold owns in O.
  destruct (loadingEffectCell (hook c)) as [id|] eqn:E.
  - destruct O as (a & Pa & Ia). rewrite Pa. split; [cbn; lia |].
    intros a' [<- | []]. rewrite Ia. split; [reflexivity |].
    apply L. discriminate.
  - rewrite O. split; [cbn; lia | intros a []].
Qed.

Lemma one_loading_animation_witness :
  let c := run [setIsLoading true; onMouseEnter; rerender (loadingNamed "pulse")]
               (mount noOptions plainNavigator plainWindow page) in
  List.length (playing (world c)) <= 1
  /\ map anim_id (playing (world c)) = [2%nat]
  /\ List.length (animations (world c)) = 3%nat.
Proof.
  split.
  - exact (proj1 (one_loading_animation noOptions plainNavigator plainWindow page
                    [setIsLoading true; onMouseEnter; rerender (loadingNamed "pulse")]
                    eq_refl)).
  - split; reflexivity.
Defined.

(* ================================================================== *)
(** * Durations under reduced motion *)





(* ================================================================== *)
(** * The shape of a commit, and what each effect leaves alone *)

Lemma commit_snd o nav win h w :
  snd (commit o nav win h w)
  = snd (loadingEffect (resolve o) (isLoading h)
           (styleEffects (resolve o) nav (memoReduce o win h) (memoTier o nav h)
                         (isHovered h) (isFocused h) (isActive h)
                         (gpuStage o nav h w))).
Proof.
  unfold commit, gpuStage, styleEffects. cbn [snd].
  destruct (gpuEffect h) as [[g t]|]; [| reflexivity].
  destruct (Bool.eqb g (r_gpu (resolve o)) && String.eqb t (memoTier o nav h));
    reflexivity.
Qed.

Lemma commit_cell o nav win h w :
  loadingEffectCell (fst (commit o nav win h w))
  = fst (loadingEffect (resolve o) (isLoading h)
           (styleEffects (resolve o) nav (memoReduce o win h) (memoTier o nav h)
                         (isHovered h) (isFocused h) (isActive h)
                         (gpuStage o nav h w))).
Proof.
  unfold commit, gpuStage, styleEffects. cbn [fst loadingEffectCell].
  destruct (gpuEffect h) as [[g t]|]; [| reflexivity].
  destruct (Bool.eqb g (r_gpu (resolve o)) && String.eqb t (memoTier o nav h));
    reflexivity.
Qed.

Lemma applyHoverEffects_frame r reduce tier b w :
  let w' := applyHoverEffects r reduce tier b w in
  pageOf w' = pageOf w /\ gpuHints w' = gpuHints w /\ vibrations w' = vibrations w.
Proof.
  destruct w as [a st rc ch an rk tm vb fr]. unfold applyHoverEffects.
  destruct a, reduce, b; repeat split.
Qed.

Lemma focusEffect_frame r b w :
  let w' := focusEffect r b w in
  pageOf w' = pageOf w /\ gpuHints w' = gpuHints w /\ vibrations w' = vibrations w.
Proof.
  destruct w as [a st rc ch an rk tm vb fr]. unfold focusEffect.
  destruct a, b, (Focus.glow (focusDefaults r)); repeat split.
Qed.

Lemma activeEffect_frame r nav b w :
  let w' := activeEffect r nav b w in
  pageOf w' = pageOf w /\ gpuHints w' = gpuHints w
  /\ vibrations w'
     = (if attached w && b && vibrates r nav
        then vibrations w ++ [10]
        else vibrations w).
Proof.
  destruct w as [a st rc ch an rk tm vb fr]. unfold activeEffect, vibrates.
  destruct a, b; try (repeat split; fail).
  destruct ((Active.feedback (activeDefaults r) =? "haptic")%string
            || (Active.feedback (activeDefaults r) =? "both")%string),
    (hasVibrate nav); repeat split.
Qed.

Lemma styleEffects_frame r nav reduce tier hv fc pr w :
  let w' := styleEffects r nav reduce tier hv fc pr w in
  pageOf w' = pageOf w /\ gpuHints w' = gpuHints w
  /\ vibrations w'
     = (if attached w && pr && vibrates r nav
        then vibrations w ++ [10]
        else vibrations w).
Proof.
  unfold styleEffects.
  destruct (applyHoverEffects_frame r reduce tier hv w) as (P1 & G1 & V1).
  destruct (focusEffect_frame r fc (applyHoverEffects r reduce tier hv w))
    as (P2 & G2 & V2).
  destruct (activeEffect_frame r nav pr
              (focusEffect r fc (applyHoverEffects r reduce tier hv w)))
    as (P3 & G3 & V3).
  destruct (applyHoverEffects_view r reduce tier hv w) as (A1 & _).
  destruct (focusEffect_view r fc (applyHoverEffects r reduce tier hv w)) as (A2 & _).
  cbv zeta in *.
  rewrite P3, G3, V3, P2, G2, V2, P1, G1, V1, A2, A1. repeat split.
Qed.

Lemma setup_frame gpu tier w :
  pageOf (setupGPUOptimization gpu tier w) = pageOf w
  /\ vibrations (setupGPUOptimization gpu tier w) = vibrations w.
Proof.
  destruct w as [a st rc ch an rk tm vb fr]. unfold setupGPUOptimization.
  destruct a, gpu, (tier =? "economy")%string; repeat split.
Qed.

Lemma gpuCleanup_frame gpu w :
  pageOf (gpuCleanup gpu w) = pageOf w
  /\ vibrations (gpuCleanup gpu w) = vibrations w.
Proof.
  destruct w as [a st rc ch an rk tm vb fr]. unfold gpuCleanup.
  destruct a, gpu; repeat split.
Qed.

Lemma loadingCleanup_frame cell w :
  pageOf (loadingCleanup cell w) = pageOf w
  /\ style (loadingCleanup cell w) = style w
  /\ vibrations (loadingCleanup cell w) = vibrations w
  /\ attached (loadingCleanup cell w) = attached w
  /\ fresh (loadingCleanup cell w) = fresh w.
Proof. destruct cell; repeat split. Qed.

Lemma loadingEffect_frame r b w :
  pageOf (snd (loadingEffect r b w)) = pageOf w
  /\ style (snd (loadingEffect r b w)) = style w
  /\ vibrations (snd (loadingEffect r b w)) = vibrations w
  /\ attached (snd (loadingEffect r b w)) = attached w.
Proof.
  unfold loadingEffect. destruct (negb (attached w) || negb b); repeat split.
Qed.

Lemma gpuStage_frame o nav h w :
  pageOf (gpuStage o nav h w) = pageOf w
  /\ vibrations (gpuStage o nav h w) = vibrations w
  /\ attached (gpuStage o nav h w) = attached w
  /\ fresh (gpuStage o nav h w) = fresh w
  /\ animations (gpuStage o nav h w)
     = animations (loadingCleanup (loadingEffectCell h) w).
Proof.
  unfold gpuStage.
  set (cell := loadingEffectCell h). set (tier := memoTier o nav h).
  set (gpu := r_gpu (resolve o)).
  assert (S : forall x, pageOf (setupGPUOptimization gpu tier x) = pageOf x
                        /\ vibrations (setupGPUOptimization gpu tier x) = vibrations x
                        /\ sameRest (setupGPUOptimization gpu tier x) x).
  { intro x. destruct (setup_frame gpu tier x). repeat split; try assumption;
      apply setup_rest. }
  assert (C : forall g, pageOf (loadingCleanup cell (gpuCleanup g w)) = pageOf w
                        /\ vibrations (loadingCleanup cell (gpuCleanup g w)) = vibrations w
                        /\ attached (loadingCleanup cell (gpuCleanup g w)) = attached w
                        /\ fresh (loadingCleanup cell (gpuCleanup g w)) = fresh w
                        /\ animations (loadingCleanup cell (gpuCleanup g w))
                           = animations (loadingCleanup cell w)).
  { intro g. destruct (gpuCleanup_frame g w) as (P & V).
    destruct (gpuCleanup_rest g w) as (A & F & An).
    destruct (loadingCleanup_frame cell (gpuCleanup g w)) as (P' & _ & V' & A' & F').
    rewrite P', V', A', F', P, V, A, F. repeat split.
    destruct cell; cbn [loadingCleanup]; [| exact An].
    unfold cancel. cbn [animations set_animations]. rewrite An. reflexivity. }
  destruct (loadingCleanup_frame cell w) as (P0 & _ & V0 & A0 & F0).
  destruct (gpuEffect h) as [[g t]|].
  - destruct (Bool.eqb g gpu && String.eqb t tier).
    + rewrite P0, V0, A0, F0. repeat split.
    + destruct (S (loadingCleanup cell (gpuCleanup g w))) as (P & V & A & F & An).
      destruct (C g) as (P' & V' & A' & F' & An').
      rewrite P, V, A, F, An, P', V', A', F', An'. repeat split.
  - destruct (S (loadingCleanup cell w)) as (P & V & A & F & An).
    rewrite P, V, A, F, An, P0, V0, A0, F0. repeat split.
Qed.

(** A commit never touches the box, the ripple spans, the shared keyframes
    style or the timers. *)
Lemma commit_page o nav win h w : pageOf (snd (commit o nav win h w)) = pageOf w.
Proof.
  rewrite commit_snd.
  destruct (loadingEffect_frame (resolve o) (isLoading h)
              (styleEffects (resolve o) nav (memoReduce o win h) (memoTier o nav h)
                 (isHovered h) (isFocused h) (isActive h) (gpuStage o nav h w)))
    as (P & _).
  rewrite P.
  destruct (styleEffects_frame (resolve o) nav (memoReduce o win h) (memoTier o nav h)
              (isHovered h) (isFocused h) (isActive h) (gpuStage o nav h w))
    as (P' & _).
  cbv zeta in P'. rewrite P'. apply gpuStage_frame.
Qed.

(* ================================================================== *)
(** * Which effect wins, and what a commit writes *)

Lemma recommit_attached c o h : attached (world (recommit c o h)) = attached (world c).
Proof.
  destruct (recommit_agree c o h) as (A & _). rewrite A.
  apply (styleEffects_view (resolve o) (navigator c) (memoReduce o (window c) h)
           (memoTier o (navigator c) h) (isHovered h) (isFocused h) (isActive h)
           (world c)).
Qed.

Lemma recommit_writes c0 o h :
  attached (world c0) = true ->
  CSS.transform (style (world (recommit c0 o h)))
  = (if isActive h then pressTransform (activeDefaults (resolve o))
     else if isFocused h then focusTransform (focusDefaults (resolve o))
     else if memoReduce o (window c0) h then CSS.transform (style (world c0))
     else if isHovered h
          then hoverTransform (resolve o) (memoTier o (navigator c0) h)
          else neutralTransform (resolve o))
  /\ CSS.transition (style (world (recommit c0 o h)))
     = (if isActive h then pressTransition (activeDefaults (resolve o))
        else if isFocused h then focusTransition (focusDefaults (resolve o))
        else if negb (memoReduce o (window c0) h) && isHovered h
             then hoverTransition (resolve o) (memoTier o (navigator c0) h)
             else CSS.transition (style (world c0)))
  /\ CSS.filter (style (world (recommit c0 o h)))
     = (if memoReduce o (window c0) h then CSS.filter (style (world c0))
        else if isHovered h
             then hoverFilter (resolve o) (memoTier o (navigator c0) h)
             else lit "none")
  /\ CSS.boxShadow (style (world (recommit c0 o h)))
     = (if isFocused h
        then (if Focus.glow (focusDefaults (resolve o))
              then ("0 0 20px " ++ Focus.glowColor (focusDefaults (resolve o)))%string
              else CSS.boxShadow (style (world c0)))
        else "none").
Proof.
  intro Ha.
  destruct (recommit_agree c0 o h) as (_ & T & F & R & B).
  destruct (styleEffects_view (resolve o) (navigator c0) (memoReduce o (window c0) h)
              (memoTier o (navigator c0) h)
              (isHovered h) (isFocused h) (isActive h) (world c0))
    as (_ & T' & F' & R' & B').
  cbv zeta in T', F', R', B'.
  rewrite T, F, R, B, T', F', R', B', Ha. cbn [andb].
  destruct (memoReduce o (window c0) h); repeat split.
Qed.

(** X1.  On an attached element the three style effects of a commit write in
    the order hover, focus, press, so the later one wins: the transform and
    the transition are the press ones while pressed, else the focus ones while
    focused, else the hover ones (which are skipped under reduced motion);
    the filter is only ever written by the hover effect and the box shadow
    only by the focus effect. *)
Theorem effect_precedence :
  forall (c0 : Controller) (o : MicroInteractionOptions) (h : HookState),
    attached (world c0) = true ->
    let r := resolve o in
    let reduce := memoReduce o (window c0) h in
    let tier := memoTier o (navigator c0) h in
    let c := recommit c0 o h in
    CSS.transform (style (world c))
    = (if isActive h then pressTransform (activeDefaults r)
       else if isFocused h then focusTransform (focusDefaults r)
       else if reduce then CSS.transform (style (world c0))
       else if isHovered h then hoverTransform r tier
       else neutralTransform r)
    /\ CSS.transition (style (world c))
       = (if isActive h then pressTransition (activeDefaults r)
          else if isFocused h then focusTransition (focusDefaults r)
          else if negb reduce && isHovered h then hoverTransition r tier
          else CSS.transition (style (world c0)))
    /\ CSS.filter (style (world c))
       = (if reduce then CSS.filter (style (world c0))
          else if isHovered h then hoverFilter r tier
          else lit "none")
    /\ CSS.boxShadow (style (world c))
       = (if isFocused h
          then (if Focus.glow (focusDefaults r)
                then ("0 0 20px " ++ Focus.glowColor (focusDefaults r))%string
                else CSS.boxShadow (style (world c0)))
          else "none").
Proof.
  intros c0 o h Ha r reduce tier c. apply recommit_writes, Ha.
Qed.

Lemma effect_precedence_witness :
  let c0 := mount noOptions plainNavigator plainWindow page in
  let h := putFlag Focused true (putFlag Hovered true (hook c0)) in
  CSS.transform (style (world (recommit c0 noOptions h)))
  = focusTransform (focusDefaults (resolve noOptions))
  /\ CSS.filter (style (world (recommit c0 noOptions h)))
     = hoverFilter (resolve noOptions) "balanced".
Proof.
  pose proof (effect_precedence
                (mount noOptions plainNavigator plainWindow page) noOptions
                (putFlag Focused true
                   (putFlag Hovered true
                      (hook (mount noOptions plainNavigator plainWindow page))))
                eq_refl) as H.
  cbv zeta in H. destruct H as (T & _ & F & _).
  split; [exact T | exact F].
Defined.

(** X2.  On the economy tier a commit never leaves a hover filter on an
    attached element: hovered or not, the filter it writes is [none]; on any
    other tier the filter written while hovered is the brightness, saturate
    and blur triple. *)
Theorem economy_has_no_filter :
  forall (c0 : Controller) (o : MicroInteractionOptions) (h : HookState),
    attached (world c0) = true ->
    memoReduce o (window c0) h = false ->
    let r := resolve o in
    let tier := memoTier o (navigator c0) h in
    let c := recommit c0 o h in
    (tier = "economy" -> CSS.filter (style (world c)) = lit "none")
    /\ (tier <> "economy" -> isHovered h = true ->
        CSS.filter (style (world c))
        = [Lit "brightness(";
           Num (1 + (Hover.brightness (hoverDefaults r) - 1) * getEffectScale tier);
           Lit ") saturate("; Num (Hover.saturate (hoverDefaults r));
           Lit ") blur("; Num (Hover.blur (hoverDefaults r)); Lit "px)"]).
Proof.
  intros c0 o h Ha Hr r tier c.
  destruct (recommit_writes c0 o h Ha) as (_ & _ & F & _).
  fold c tier r in F. rewrite Hr in F. rewrite F. split.
  - intros ->. destruct (isHovered h); reflexivity.
  - intros Ht ->. unfold hoverFilter. rewrite (string_neq_eqb _ _ Ht). reflexivity.
Qed.

Lemma economy_has_no_filter_witness :
  let slow := mkNavigator (Some 1) None None false in
  let c0 := mount noOptions slow plainWindow page in
  CSS.filter (style (world (recommit c0 noOptions (putFlag Hovered true (hook c0)))))
  = lit "none".
Proof.
  pose (slow := mkNavigator (Some 1) None None false).
  pose proof (economy_has_no_filter
                (mount noOptions slow plainWindow page) noOptions
                (putFlag Hovered true (hook (mount noOptions slow plainWindow page)))
                eq_refl eq_refl) as H.
  cbv zeta in H. exact (proj1 H eq_refl).
Defined.

Lemma toggle_agree f b c0 o h0 :
  getFlag f h0 = negb b ->
  let c := recommit c0 o h0 in
  setState f b c = recommit c o (putFlag f b (hook c))
  /\ agree (world (setState f b c))
           (styleEffects (resolve o) (navigator c0) (memoReduce o (window c0) h0)
                         (memoTier o (navigator c0) h0)
                         (isHovered (putFlag f b h0)) (isFocused (putFlag f b h0))
                         (isActive (putFlag f b h0)) (world c)).
Proof.
  intros G c.
  assert (E : setState f b c = recommit c o (putFlag f b (hook c))).
  { apply (setState_changes f b c); [reflexivity |]. destruct f; exact G. }
  split; [exact E |]. rewrite E.
  pose proof (recommit_agree c o (putFlag f b (hook c))) as K.
  change (memoReduce o (window c) (putFlag f b (hook c)))
    with (memoReduce o (window c0) (hook (recommit c0 o h0))) in K.
  change (memoTier o (navigator c) (putFlag f b (hook c)))
    with (memoTier o (navigator c0) (hook (recommit c0 o h0))) in K.
  rewrite recommit_memoReduce, recommit_memoTier in K.
  destruct f; exact K.
Qed.

(** X3.  The focus effect resets only the box shadow on blur, never the
    transform.  After a blur on an attached, unpressed element the box shadow
    is [none]; the focus scale is replaced only by the hover effect that
    re-runs in the same commit, so under reduced motion, where the hover
    effect is skipped, the element keeps the focus transform and transition
    after it has lost focus. *)
Theorem blur_resets_shadow_only :
  forall (c0 : Controller) (o : MicroInteractionOptions) (h0 : HookState),
    attached (world c0) = true ->
    isFocused h0 = true ->
    isActive h0 = false ->
    let r := resolve o in
    let reduce := memoReduce o (window c0) h0 in
    let tier := memoTier o (navigator c0) h0 in
    let c := recommit c0 o h0 in
    let c' := step onBlur c in
    CSS.transform (style (world c)) = focusTransform (focusDefaults r)
    /\ isFocused (hook c') = false
    /\ CSS.boxShadow (style (world c')) = "none"
    /\ (reduce = true ->
        CSS.transform (style (world c')) = focusTransform (focusDefaults r)
        /\ CSS.transition (style (world c')) = focusTransition (focusDefaults r))
    /\ (reduce = false ->
        CSS.transform (style (world c'))
        = (if isHovered h0 then hoverTransform r tier else neutralTransform r)).
Proof.
  intros c0 o h0 Ha Hf Hp r reduce tier c c'.
  destruct (recommit_writes c0 o h0 Ha) as (T & R & _ & _).
  rewrite Hf, Hp in T, R. fold c r in T, R.
  destruct (toggle_agree Focused false c0 o h0 Hf) as (E & _ & T' & _ & R' & B').
  fold c in E, T', R', B'. change (setState Focused false c) with c' in E, T', R', B'.
  cbn [putFlag isHovered isFocused isActive] in T', R', B'. rewrite Hp in T', R', B'.
  fold r reduce tier in T', R', B'.
  destruct (styleEffects_view r (navigator c0) reduce tier (isHovered h0) false false
              (world c)) as (_ & T2 & _ & R2 & B2).
  cbv zeta in T2, R2, B2.
  assert (Ac : attached (world c) = true) by (unfold c; rewrite recommit_attached; exact Ha).
  rewrite Ac in T2, R2, B2. rewrite T2 in T'. rewrite R2 in R'. rewrite B2 in B'.
  split; [exact T |]. split; [rewrite E; reflexivity |]. split; [exact B' |].
  split.
  - intro Hr. rewrite Hr in T', R'. cbn [negb andb] in R'.
    rewrite T', R', T, R. split; reflexivity.
  - intro Hr. rewrite Hr in T'. exact T'.
Qed.

Lemma blur_resets_shadow_only_witness :
  let c0 := mount reducedMotion plainNavigator plainWindow page in
  let c := recommit c0 reducedMotion (putFlag Focused true (hook c0)) in
  CSS.boxShadow (style (world (step onBlur c))) = "none"
  /\ CSS.transform (style (world (step onBlur c)))
     = focusTransform (focusDefaults (resolve reducedMotion)).
Proof.
  pose proof (blur_resets_shadow_only
                (mount reducedMotion plainNavigator plainWindow page) reducedMotion
                (putFlag Focused true
                   (hook (mount reducedMotion plainNavigator plainWindow page)))
                eq_refl eq_refl eq_refl) as H.
  cbv zeta in H. destruct H as (_ & _ & B & R & _).
  split; [exact B | exact (proj1 (R eq_refl))].
Defined.

(* ================================================================== *)
(** * Haptic feedback *)

Lemma commit_vibrations o nav win h w :
  vibrations (snd (commit o nav win h w))
  = (if attached w && isActive h && vibrates (resolve o) nav
     then vibrations w ++ [10]
     else vibrations w).
Proof.
  rewrite commit_snd.
  destruct (loadingEffect_frame (resolve o) (isLoading h)
              (styleEffects (resolve o) nav (memoReduce o win h) (memoTier o nav h)
                 (isHovered h) (isFocused h) (isActive h) (gpuStage o nav h w)))
    as (_ & _ & V & _).
  rewrite V.
  destruct (styleEffects_frame (resolve o) nav (memoReduce o win h) (memoTier o nav h)
              (isHovered h) (isFocused h) (isActive h) (gpuStage o nav h w))
    as (_ & _ & V').
  cbv zeta in V'. rewrite V'.
  destruct (gpuStage_frame o nav h w) as (_ & V0 & A0 & _).
  rewrite V0, A0. reflexivity.
Qed.

(** X4.  A commit vibrates (10 ms, once) exactly when the element is
    attached and pressed, the feedback mode is 'haptic' or 'both', and the
    navigator has [vibrate]; every other commit leaves the vibration log as it
    is.  The effect runs at every commit, so while the press is held each
    further commit vibrates again: pressing and then hovering gives two
    vibrations. *)
Theorem haptic_on_every_pressed_commit :
  forall (c0 : Controller) (o : MicroInteractionOptions) (h : HookState),
    vibrations (world (recommit c0 o h))
    = (if attached (world c0) && isActive h && vibrates (resolve o) (navigator c0)
       then vibrations (world c0) ++ [10]
       else vibrations (world c0))
    /\ (attached (world c0) = true -> isActive h = true -> isHovered h = false ->
        vibrates (resolve o) (navigator c0) = true ->
        vibrations (world (step onMouseEnter (recommit c0 o h)))
        = vibrations (world c0) ++ [10; 10]).
Proof.
  intros c0 o h. split; [apply commit_vibrations |].
  intros Ha Hp Hh Hv.
  destruct (toggle_agree Hovered true c0 o h Hh) as (E & _).
  cbn [step]. rewrite E.
  change (vibrations (world (recommit (recommit c0 o h) o
                               (putFlag Hovered true (hook (recommit c0 o h))))))
    with (vibrations (snd (commit o (navigator c0) (window c0)
                             (putFlag Hovered true (hook (recommit c0 o h)))
                             (world (recommit c0 o h))))).
  rewrite commit_vibrations, recommit_attached, Ha.
  change (isActive (putFlag Hovered true (hook (recommit c0 o h)))) with (isActive h).
  rewrite Hp, Hv. cbn [andb].
  change (vibrations (world (recommit c0 o h)))
    with (vibrations (snd (commit o (navigator c0) (window c0) h (world c0)))).
  rewrite commit_vibrations, Ha, Hp, Hv. cbn [andb].
  rewrite <- app_assoc. reflexivity.
Qed.

Lemma haptic_on_every_pressed_commit_witness :
  let o := mkOptions None None None None None
             (Some (Active.mk Partial None None None (Some "haptic")))
             None None None None None in
  let nav := mkNavigator None None None true in
  let c0 := mount o nav plainWindow page in
  vibrations (world (step onMouseEnter (step onMouseDown c0))) = [10; 10].
Proof.
  pose (o := mkOptions None None None None None
               (Some (Active.mk Partial None None None (Some "haptic")))
               None None None None None).
  pose (nav := mkNavigator None None None true).
  exact (proj2 (haptic_on_every_pressed_commit
                  (mount o nav plainWindow page) o
                  (putFlag Activated true (hook (mount o nav plainWindow page))))
               eq_refl eq_refl eq_refl eq_refl).
Defined.

(* ================================================================== *)
(** * What is read once *)

Lemma useMemo_fst {D V : Type} (same : D -> D -> bool) cell d (v : V) :
  (forall x y, same x y = true -> x = y) ->
  fst (useMemo same cell d v) = d.
Proof.
  intro E. unfold useMemo. destruct cell as [[d0 v0]|]; [| reflexivity].
  destruct (same d0 d) eqn:S; [apply E, S | reflexivity].
Qed.

Lemma useMemo_first {D V : Type} (same : D -> D -> bool) d (v : V) :
  snd (useMemo same None d v) = v.
Proof. reflexivity. Qed.

Lemma useMemo_next {D V : Type} (same : D -> D -> bool) cell d d' (v v' : V) :
  (forall x, same x x = true) ->
  (forall x y, same x y = true -> x = y) ->
  snd (useMemo same (Some (useMemo same cell d v)) d' v')
  = if same d d' then snd (useMemo same cell d v) else v'.
Proof.
  intros R E. unfold useMemo at 1.
  pose proof (useMemo_fst same cell d v E) as F.
  destruct (useMemo same cell d v) as [d0 v0]. cbn [fst snd] in *. subst d0.
  destruct (same d d'); reflexivity.
Qed.

(** X5.  The capability snapshot and the ambient reduced-motion preference
    are read when the hook first renders and again only when the
    [performance] option, respectively the [prefersReducedMotion] option,
    changes: a later commit with the same option keeps the stored tier and
    flag whatever the navigator and the media query have become, and a commit
    with a different option classifies the navigator and the media query it
    then finds. *)
Theorem capabilities_read_once :
  forall (o o' : MicroInteractionOptions) (nav nav' : Navigator)
         (win win' : Window) (h : HookState) (w : World),
    let h1 := fst (commit o nav win h w) in
    let p := r_performance (resolve o) in
    let p' := r_performance (resolve o') in
    let m := r_prefersReducedMotion (resolve o) in
    let m' := r_prefersReducedMotion (resolve o') in
    (perfMemo h = None -> memoTier o nav h = effectivePerformance p nav)
    /\ (motionMemo h = None -> memoReduce o win h = shouldReduceMotion m win)
    /\ memoTier o' nav' h1
       = (if (p =? p')%string then memoTier o nav h
          else effectivePerformance p' nav')
    /\ memoReduce o' win' h1
       = (if Bool.eqb m m' then memoReduce o win h
          else shouldReduceMotion m' win').
Proof.
  intros o o' nav nav' win win' h w h1 p p' m m'.
  split; [intro N; unfold memoTier, perfCell; rewrite N; reflexivity |].
  split; [intro N; unfold memoReduce, motionCell; rewrite N; reflexivity |].
  split.
  - unfold memoTier, perfCell at 1. unfold h1. cbn [commit fst perfMemo].
    unfold perfCell. apply useMemo_next; [apply String.eqb_refl |].
    intros x y. apply String.eqb_eq.
  - unfold memoReduce, motionCell at 1. unfold h1. cbn [commit fst motionMemo].
    unfold motionCell. apply useMemo_next; [apply Bool.eqb_reflx |].
    intros x y. apply Bool.eqb_prop.
Qed.

Lemma capabilities_read_once_witness :
  let fast := mkNavigator (Some 8) (Some 8) None false in
  let slow := mkNavigator (Some 1) None None false in
  let c := mount noOptions fast plainWindow page in
  memoTier noOptions fast initialHook = "high"
  /\ memoTier noOptions slow (hook c) = "high"
  /\ memoReduce noOptions (mkWindow true) (hook c) = false.
Proof.
  pose (fast := mkNavigator (Some 8) (Some 8) None false).
  pose (slow := mkNavigator (Some 1) None None false).
  pose proof (capabilities_read_once noOptions noOptions fast slow
                plainWindow (mkWindow true) initialHook page) as H.
  cbv zeta in H. destruct H as (T0 & _ & T & R).
  split; [exact (T0 eq_refl) |]. split; [exact T | exact R].
Defined.

(* ================================================================== *)
(** * Reachable controllers *)

Lemma recommit_hookInvariant c o h : hookInvariant (recommit c o h).
Proof.
  split; [| split].
  - unfold listenersCurrent, recommit.
    cbn [hook options commit fst magneticListeners tiltListeners].
    unfold MagneticEffect.effect, TiltEffect.effect. split.
    + match goal with |- context [if ?b then _ else _] => destruct b eqn:E end;
        [left; reflexivity | right].
      split; [reflexivity |].
      apply Bool.orb_false_iff in E. destruct E as [_ E].
      apply Bool.negb_false_iff in E. exact E.
    + match goal with |- context [if ?b then _ else _] => destruct b eqn:E end;
        [left; reflexivity | right].
      split; [reflexivity |].
      apply Bool.orb_false_iff in E. destruct E as [_ E].
      apply Bool.negb_false_iff in E. exact E.
  - intro M. discriminate M.
  - intros _.
    change (gpuEffect (hook (recommit c o h)))
      with (Some (r_gpu (resolve o), memoTier o (navigator c) h)).
    change (options (recommit c o h)) with o.
    change (navigator (recommit c o h)) with (navigator c).
    rewrite recommit_memoTier. reflexivity.
Qed.

Lemma setState_hookInvariant f b c : hookInvariant c -> hookInvariant (setState f b c).
Proof.
  intro I. unfold setState.
  destruct (negb (mounted c) || Bool.eqb (getFlag f (hook c)) b); [exact I |].
  apply recommit_hookInvariant.
Qed.

Lemma withWorld_hookInvariant f c : hookInvariant c -> hookInvariant (withWorld f c).
Proof. intro I. exact I. Qed.

Lemma step_hookInvariant ev c : hookInvariant c -> hookInvariant (step ev c).
Proof.
  intro I. destruct ev; cbn [step]; try (apply setState_hookInvariant, I).
  - destruct (mounted c); [apply withWorld_hookInvariant, I | exact I].
  - destruct (mounted c); [apply recommit_hookInvariant | exact I].
  - destruct (mounted c); [| exact I].
    split; [split; left; reflexivity | split].
    + intros _. repeat split.
    + intro M. discriminate M.
  - destruct (tiltListeners (hook c)) as [td|]; [destruct overElement |];
      cbn [hook withWorld];
      destruct (magneticListeners (hook c)); exact I.
  - destruct (magneticListeners (hook c)); cbn [hook withWorld];
      destruct (tiltListeners (hook c)); exact I.
  - exact I.
  - exact I.
  - exact I.
Qed.

Lemma reachable_invariants c :
  reachable c -> loadingInvariant c /\ hookInvariant c.
Proof.
  induction 1 as [o nav win w P | ev c R [IL IH]].
  - split; [unfold mount; apply recommit_invariant, P | apply recommit_hookInvariant].
  - split; [apply step_invariant, IL | apply step_hookInvariant, IH].
Qed.

Lemma reachable_run evs c : reachable c -> reachable (run evs c).
Proof.
  revert c. induction evs as [| ev evs IH]; intros c R; [exact R |].
  cbn [run fold_left]. apply IH. constructor. exact R.
Qed.

(** X6.  In every reachable state the magnetic and the tilt listeners, when
    registered, work with the parameters of the options the hook last
    rendered, never with older ones; a family whose [strength], respectively
    [maxTilt], is falsy (0 or NaN) has no listener; and an unmounted hook has
    no listener and no pending animation clean-up. *)
Theorem listeners_follow_options :
  forall c : Controller,
    reachable c ->
    let r := resolve (options c) in
    (magneticListeners (hook c) = None
     \/ magneticListeners (hook c) = Some (magneticDefaults r))
    /\ (tiltListeners (hook c) = None
        \/ tiltListeners (hook c) = Some (tiltDefaults r))
    /\ (truthy_num (Magnetic.strength (magneticDefaults r)) = false ->
        magneticListeners (hook c) = None)
    /\ (truthy_num (Tilt.maxTilt (tiltDefaults r)) = false ->
        tiltListeners (hook c) = None)
    /\ (mounted c = false ->
        magneticListeners (hook c) = None /\ tiltListeners (hook c) = None
        /\ loadingEffectCell (hook c) = None).
Proof.
  intros c R r.
  destruct (reachable_invariants c R) as (_ & (LM & LT) & Rel & _).
  fold r in LM, LT.
  split; [destruct LM as [N | [S _]]; [left | right]; assumption |].
  split; [destruct LT as [N | [S _]]; [left | right]; assumption |].
  split.
  { intro F. destruct LM as [N | [_ T]]; [exact N |]. rewrite T in F. discriminate F. }
  split.
  { intro F. destruct LT as [N | [_ T]]; [exact N |]. rewrite T in F. discriminate F. }
  exact Rel.
Qed.

Lemma listeners_follow_options_witness :
  let still := mkOptions None None None None None None None None
                 (Some (Magnetic.mk Partial (Some 0) None)) None None in
  let c := run [onMouseEnter; rerender still]
               (mount noOptions plainNavigator plainWindow page) in
  magneticListeners (hook c) = None
  /\ tiltListeners (hook c) = Some (Tilt.mk Full 10 1.02 400).
Proof.
  pose (still := mkOptions None None None None None None None None
                   (Some (Magnetic.mk Partial (Some 0) None)) None None).
  pose proof (listeners_follow_options
                (run [onMouseEnter; rerender still]
                     (mount noOptions plainNavigator plainWindow page))
                (reachable_run _ _ (reach_mount noOptions plainNavigator plainWindow
                                                page eq_refl))) as H.
  cbv zeta in H. destruct H as (_ & _ & M & _).
  split; [exact (M eq_refl) | reflexivity].
Defined.

(* ================================================================== *)
(** * Layer promotion hints *)

Lemma setup_hints gpu tier w :
  gpuHints (setupGPUOptimization gpu tier w)
  = (if attached w && gpu then promoted tier else gpuHints w).
Proof.
  destruct w as [a st rc ch an rk tm vb fr]. unfold setupGPUOptimization, promoted.
  destruct a, gpu, (tier =? "economy")%string; reflexivity.
Qed.

Lemma gpuCleanup_hints g w :
  gpuHints (gpuCleanup g w)
  = (if attached w && g
     then ("auto", CSS.backfaceVisibility (style w), CSS.perspective (style w),
           CSS.transformStyle (style w))
     else gpuHints w).
Proof.
  destruct w as [a st rc ch an rk tm vb fr]. unfold gpuCleanup.
  destruct a, g; reflexivity.
Qed.

Lemma style_hints w1 w2 : style w1 = style w2 -> gpuHints w1 = gpuHints w2.
Proof. unfold gpuHints. intros ->. reflexivity. Qed.

Lemma commit_gpuHints o nav win h w :
  gpuHints (snd (commit o nav win h w))
  = match gpuEffect h with
    | Some (g, t) =>
        if Bool.eqb g (r_gpu (resolve o)) && String.eqb t (memoTier o nav h)
        then gpuHints w
        else if attached w && r_gpu (resolve o)
             then promoted (memoTier o nav h)
             else gpuHints (gpuCleanup g w)
    | None =>
        if attached w && r_gpu (resolve o)
        then promoted (memoTier o nav h)
        else gpuHints w
    end.
Proof.
  rewrite commit_snd.
  destruct (loadingEffect_frame (resolve o) (isLoading h)
              (styleEffects (resolve o) nav (memoReduce o win h) (memoTier o nav h)
                 (isHovered h) (isFocused h) (isActive h) (gpuStage o nav h w)))
    as (_ & S & _).
  rewrite (style_hints _ _ S).
  destruct (styleEffects_frame (resolve o) nav (memoReduce o win h) (memoTier o nav h)
              (isHovered h) (isFocused h) (isActive h) (gpuStage o nav h w))
    as (_ & G & _).
  cbv zeta in G. rewrite G. unfold gpuStage.
  destruct (gpuEffect h) as [[g t]|].
  - destruct (Bool.eqb g (r_gpu (resolve o)) && String.eqb t (memoTier o nav h)).
    + apply style_hints, loadingCleanup_frame.
    + rewrite setup_hints.
      destruct (loadingCleanup_frame (loadingEffectCell h) (gpuCleanup g w))
        as (_ & S' & _ & A' & _).
      rewrite A', (style_hints _ _ S').
      destruct (gpuCleanup_rest g w) as (A & _). rewrite A. reflexivity.
  - rewrite setup_hints.
    destruct (loadingCleanup_frame (loadingEffectCell h) w) as (_ & S' & _ & A' & _).
    rewrite A', (style_hints _ _ S'). reflexivity.
Qed.

(** X7.  Mounting promotes the element's layer exactly when it is attached
    and [gpu] is on: will-change, backface-visibility and perspective get
    their fixed values and transform-style is [flat] on the economy tier and
    [preserve-3d] on every other; with [gpu] off, or without an element, none
    of the four properties is touched. *)
Theorem mount_promotes_layer :
  forall (o : MicroInteractionOptions) (nav : Navigator) (win : Window) (w : World),
    let tier := effectivePerformance (r_performance (resolve o)) nav in
    gpuHints (world (mount o nav win w))
    = (if attached w && r_gpu (resolve o)
       then ("transform, opacity, filter", "hidden", "1000px",
             if (tier =? "economy")%string then "flat" else "preserve-3d")
       else gpuHints w).
Proof.
  intros o nav win w tier.
  change (world (mount o nav win w)) with (snd (commit o nav win initialHook w)).
  rewrite commit_gpuHints. reflexivity.
Qed.

Lemma pointer_hints c ev :
  pointerEvent ev = true -> gpuHints (world (step ev c)) = gpuHints (world c).
Proof.
  destruct ev; cbn [pointerEvent]; intro P; try discriminate P; cbn [step].
  - destruct (tiltListeners (hook c)) as [td|]; [destruct overElement |];
      cbn [hook withWorld];
      destruct (magneticListeners (hook c)) as [md|]; cbn [world withWorld];
      try reflexivity;
      unfold MagneticEffect.handleMouseMove;
      match goal with |- context [if ?b then _ else _] => destruct b end;
      reflexivity.
  - destruct (magneticListeners (hook c)); cbn [hook withWorld];
      destruct (tiltListeners (hook c)); reflexivity.
Qed.

Lemma handleClick_style r e w : style (handleClick r e w) = style w.
Proof.
  unfold handleClick, createRipple.
  destruct (truthy_str _), (attached w); cbn; try reflexivity.
  destruct (rippleKeyframes w); reflexivity.
Qed.

Lemma fireTimer_style k w : style (fireTimer k w) = style w.
Proof. unfold fireTimer. destruct (existsb _ _); reflexivity. Qed.

(** X8.  The layer hints are written only by the first effect, and that
    effect runs again only when [gpu] or the tier changes: in a reachable
    state every handler, pointer event, timer, ref change or layout, and every
    re-render that keeps [gpu] and [performance], leaves will-change,
    backface-visibility, perspective and transform-style exactly as they
    are. *)
Theorem hints_written_once :
  forall (c : Controller) (ev : Event),
    reachable c ->
    (keepsOptions ev = true
     \/ exists o', ev = rerender o'
                   /\ r_gpu (resolve o') = r_gpu (resolve (options c))
                   /\ r_performance (resolve o') = r_performance (resolve (options c))) ->
    gpuHints (world (step ev c)) = gpuHints (world c).
Proof.
  intros c ev R K.
  destruct (reachable_invariants c R) as (_ & _ & _ & G).
  assert (C : forall o h,
             mounted c = true ->
             gpuEffect h = gpuEffect (hook c) ->
             perfMemo h = perfMemo (hook c) ->
             r_gpu (resolve o) = r_gpu (resolve (options c)) ->
             r_performance (resolve o) = r_performance (resolve (options c)) ->
             gpuHints (world (recommit c o h)) = gpuHints (world c)).
  { intros o h M Eg Ep Hg Hp.
    change (world (recommit c o h))
      with (snd (commit o (navigator c) (window c) h (world c))).
    rewrite commit_gpuHints, Eg, (G M).
    assert (T : memoTier o (navigator c) h
                = memoTier (options c) (navigator c) (hook c)).
    { unfold memoTier, perfCell. cbv zeta. rewrite Ep, Hp. reflexivity. }
    rewrite T, Hg, Bool.eqb_reflx, String.eqb_refl. reflexivity. }
  assert (S : forall f b, gpuHints (world (setState f b c)) = gpuHints (world c)).
  { intros f b. unfold setState.
    destruct (negb (mounted c)) eqn:M; cbn [orb]; [reflexivity |].
    destruct (Bool.eqb (getFlag f (hook c)) b); [reflexivity |].
    apply Bool.negb_false_iff in M.
    apply C; [exact M | | | |]; reflexivity. }
  destruct K as [K | (o' & -> & Hg & Hp)].
  - destruct ev; cbn [keepsOptions] in K; try discriminate K; cbn [step];
      try apply S.
    + destruct (mounted c); [| reflexivity].
      apply style_hints, handleClick_style.
    + apply (pointer_hints c (mousemove e overElement)). reflexivity.
    + apply (pointer_hints c mouseleave). reflexivity.
    + apply style_hints, fireTimer_style.
    + reflexivity.
    + reflexivity.
  - cbn [step]. destruct (mounted c) eqn:M; [| reflexivity].
    apply C; [reflexivity | reflexivity | reflexivity | exact Hg | exact Hp].
Qed.

Lemma hints_written_once_witness :
  let c := run [onMouseEnter; onClick centre]
               (mount noOptions plainNavigator plainWindow page) in
  gpuHints (world (step onMouseDown c)) = promoted "balanced"
  /\ gpuHints (world (step (rerender reducedMotion) c)) = promoted "balanced".
Proof.
  intro c.
  assert (R : reachable c)
    by exact (reachable_run _ _ (reach_mount noOptions plainNavigator plainWindow
                                             page eq_refl)).
  split.
  - rewrite (hints_written_once c onMouseDown R (or_introl eq_refl)). reflexivity.
  - rewrite (hints_written_once c (rerender reducedMotion) R
               (or_intror (ex_intro _ reducedMotion
                             (conj eq_refl (conj eq_refl eq_refl))))).
    reflexivity.
Defined.

(* ================================================================== *)
(** * Unmounting *)

Lemma pointer_after_release c ev :
  magneticListeners (hook c) = None -> tiltListeners (hook c) = None ->
  pointerEvent ev = true -> step ev c = c.
Proof.
  intros M T P. destruct ev; cbn [pointerEvent] in P; try discriminate P;
    cbn [step]; cbv zeta.
  - rewrite T. cbv iota. rewrite M. reflexivity.
  - rewrite M. cbv iota. rewrite T. reflexivity.
Qed.

Lemma pointer_run_after_release evs c :
  magneticListeners (hook c) = None -> tiltListeners (hook c) = None ->
  forallb pointerEvent evs = true -> run evs c = c.
Proof.
  intros M T. induction evs as [| ev evs IH]; intro P; [reflexivity |].
  cbn [forallb] in P. apply Bool.andb_true_iff in P. destruct P as [P P'].
  cbn [run fold_left]. rewrite (pointer_after_release c ev M T P). apply IH, P'.
Qed.

(** X9.  Unmounting a reachable, mounted hook detaches the ref, cancels the
    loading animation and removes the magnetic and tilt listeners, so no
    pointer event changes the page afterwards.  The inline style of the
    element is left exactly as it was: the ref is already cleared when the
    clean-up of the GPU effect runs, so not even will-change is reverted, and
    backface-visibility, perspective, transform-style, transform, filter,
    transition and box shadow are not reset either; ripple spans and their
    timers are left in place. *)
Theorem unmount_releases :
  forall c : Controller,
    reachable c ->
    mounted c = true ->
    let c' := step unmount c in
    mounted c' = false
    /\ attached (world c') = false
    /\ playing (world c') = []
    /\ (forall evs, forallb pointerEvent evs = true -> run evs c' = c')
    /\ style (world c') = style (world c)
    /\ gpuHints (world c') = gpuHints (world c)
    /\ pageOf (world c') = pageOf (world c)
    /\ vibrations (world c') = vibrations (world c).
Proof.
  intros c R M c'.
  assert (R' : reachable c') by (constructor; exact R).
  destruct (reachable_invariants c' R') as ((O' & _) & _ & Rel & _).
  assert (E : c' = mkController (options c) (navigator c) (window c) false
                     (fst (unmountEffects (hook c) (world c)))
                     (snd (unmountEffects (hook c) (world c)))).
  { unfold c'. cbn [step]. rewrite M. reflexivity. }
  assert (M' : mounted c' = false) by (rewrite E; reflexivity).
  destruct (Rel M') as (Lm & Lt & Lc).
  split; [exact M' |].
  assert (W : world c' = loadingCleanup (loadingEffectCell (hook c))
                           (set_attached false (world c))).
  { rewrite E. unfold unmountEffects. cbn [world snd].
    rewrite unmount_gpu_detached. reflexivity. }
  destruct (loadingCleanup_frame (loadingEffectCell (hook c))
              (set_attached false (world c)))
    as (P1 & S1 & V1 & A1 & _).
  rewrite <- W in P1, S1, V1, A1.
  split; [rewrite A1; reflexivity |].
  split; [unfold owns in O'; rewrite Lc in O'; exact O' |].
  split; [intros evs P; apply pointer_run_after_release; assumption |].
  split; [rewrite S1; reflexivity |].
  split; [apply style_hints; rewrite S1; reflexivity |].
  split; [rewrite P1; reflexivity | rewrite V1; reflexivity].
Qed.

Lemma unmount_releases_witness :
  let c := run [setIsLoading true; onClick centre]
               (mount noOptions plainNavigator plainWindow page) in
  playing (world c) <> []
  /\ playing (world (step unmount c)) = []
  /\ gpuHints (world c)
     = ("transform, opacity, filter", "hidden", "1000px", "preserve-3d")
  /\ gpuHints (world (step unmount c))
     = ("transform, opacity, filter", "hidden", "1000px", "preserve-3d")
  /\ run [mousemove centre true; mouseleave] (step unmount c) = step unmount c.
Proof.
  intro c.
  assert (R : reachable c)
    by exact (reachable_run _ _ (reach_mount noOptions plainNavigator plainWindow
                                             page eq_refl)).
  pose proof (unmount_releases c R eq_refl) as H. cbv zeta in H.
  destruct H as (_ & _ & P & Q & _ & G & _).
  split; [vm_compute; discriminate |].
  split; [exact P |].
  split; [vm_compute; reflexivity |].
  split; [rewrite G; vm_compute; reflexivity |]. apply Q. reflexivity.
Defined.

(* ================================================================== *)
(** * Starting, restarting and stopping the loading animation *)

Lemma commit_restarts o nav win h w :
  owns h w -> attached w = true -> isLoading h = true ->
  playing (snd (commit o nav win h w)) = [startedBy o (fresh w)]
  /\ loadingEffectCell (fst (commit o nav win h w)) = Some (fresh w).
Proof.
  intros O Ha Hl. rewrite commit_snd, commit_cell, Hl.
  set (X := styleEffects (resolve o) nav (memoReduce o win h) (memoTier o nav h)
              (isHovered h) (isFocused h) (isActive h) (gpuStage o nav h w)).
  destruct (styleEffects_rest (resolve o) nav (memoReduce o win h) (memoTier o nav h)
              (isHovered h) (isFocused h) (isActive h) (gpuStage o nav h w))
    as (A & F & An).
  fold X in A, F, An.
  destruct (gpuStage_frame o nav h w) as (_ & _ & A0 & F0 & An0).
  rewrite A0, Ha in A. rewrite F0 in F. rewrite An0 in An.
  rewrite (loadingEffect_attached (resolve o) X A). cbn [fst snd].
  split; [| rewrite F; reflexivity].
  unfold playing. cbn [animations set_fresh set_animations].
  rewrite filter_app, An. fold (playing (loadingCleanup (loadingEffectCell h) w)).
  rewrite (owns_cleanup h w O), F. reflexivity.
Qed.

(** X10.  While the loading flag is set on an attached element, every
    commit restarts the loading animation: the handle that was playing is
    cancelled and a new one, with the keyframes and duration of the options
    being rendered, is the only one playing.  This happens when loading is
    switched on, when the component re-renders (with new or with the same
    options), and also when an unrelated flag (hover, focus, press)
    changes. *)
Theorem loading_restarts_on_every_commit :
  forall c : Controller,
    reachable c ->
    mounted c = true ->
    attached (world c) = true ->
    let id := fresh (world c) in
    (isLoading (hook c) = false ->
     playing (world (step (setIsLoading true) c)) = [startedBy (options c) id])
    /\ (isLoading (hook c) = true ->
        forall o', playing (world (step (rerender o') c)) = [startedBy o' id])
    /\ (isLoading (hook c) = true ->
        forall ev f b,
          handlerOf ev = Some (f, b) -> f <> LoadingFlag ->
          getFlag f (hook c) = negb b ->
          playing (world (step ev c)) = [startedBy (options c) id]).
Proof.
  intros c R M Ha id.
  destruct (reachable_invariants c R) as ((O & _) & _).
  assert (T : forall f b, getFlag f (hook c) = negb b ->
                          isLoading (putFlag f b (hook c)) = true ->
                          playing (world (setState f b c)) = [startedBy (options c) id]).
  { intros f b G L. rewrite (setState_changes f b c M G).
    apply (commit_restarts (options c) (navigator c) (window c)
             (putFlag f b (hook c)) (world c)); [exact O | exact Ha | exact L]. }
  split; [| split].
  - intro L. cbn [step]. apply T; [exact L | reflexivity].
  - intros L o'. cbn [step]. rewrite M.
    apply (commit_restarts o' (navigator c) (window c) (hook c) (world c));
      [exact O | exact Ha | exact L].
  - intros L ev f b H N G.
    assert (E : step ev c = setState f b c)
      by (destruct ev; cbn [handlerOf] in H; inversion H; reflexivity).
    rewrite E. apply T; [exact G |].
    destruct f; try exact L. exfalso. apply N. reflexivity.
Qed.

Lemma loading_restarts_on_every_commit_witness :
  let c := step (setIsLoading true)
                (mount noOptions plainNavigator plainWindow page) in
  playing (world c) = [startedBy noOptions 0]
  /\ playing (world (step onMouseEnter c)) = [startedBy noOptions 1]
  /\ playing (world (step (rerender (loadingNamed "pulse")) c))
     = [startedBy (loadingNamed "pulse") 1].
Proof.
  intro c.
  pose (c0 := mount noOptions plainNavigator plainWindow page).
  assert (R0 : reachable c0) by (apply reach_mount; reflexivity).
  assert (R : reachable c) by (apply reach_step; exact R0).
  pose proof (loading_restarts_on_every_commit c0 R0 eq_refl eq_refl) as H0.
  pose proof (loading_restarts_on_every_commit c R eq_refl eq_refl) as H.
  cbv zeta in H0, H. destruct H0 as (S & _). destruct H as (_ & Rr & Rh).
  split; [exact (S eq_refl) |]. split.
  - exact (Rh eq_refl onMouseEnter Hovered true eq_refl
              ltac:(discriminate) eq_refl).
  - exact (Rr eq_refl (loadingNamed "pulse")).
Defined.

(** X11.  In every reachable state nothing plays unless the hook is mounted
    with its loading flag set: switching loading off, and unmounting, leave no
    animation handle playing. *)
Theorem loading_stops :
  forall c : Controller,
    reachable c ->
    (isLoading (hook c) = false \/ mounted c = false -> playing (world c) = [])
    /\ playing (world (step (setIsLoading false) c)) = []
    /\ playing (world (step unmount c)) = [].
Proof.
  assert (Q : forall c, reachable c ->
                        isLoading (hook c) = false \/ mounted c = false ->
                        playing (world c) = []).
  { intros c R H. destruct (reachable_invariants c R) as ((O & L) & _).
    unfold owns in O. destruct (loadingEffectCell (hook c)) as [n|]; [| exact O].
    destruct (L ltac:(discriminate)) as (L1 & L2).
    destruct H as [H | H]; [rewrite H in L1 | rewrite H in L2]; discriminate. }
  intros c R. split; [apply Q, R |]. split.
  - apply Q; [constructor; exact R |].
    cbn [step]. unfold setState.
    destruct (mounted c) eqn:M; cbn [negb orb]; [| right; exact M].
    destruct (Bool.eqb (isLoading (hook c)) false) eqn:E; cbn [getFlag] in *;
      rewrite E; left; [| reflexivity].
    apply Bool.eqb_prop, E.
  - apply Q; [constructor; exact R |]. right.
    cbn [step]. destruct (mounted c) eqn:M; [reflexivity | exact M].
Qed.

Lemma loading_stops_witness :
  let c := run [setIsLoading true; onFocus]
               (mount noOptions plainNavigator plainWindow page) in
  List.length (playing (world c)) = 1%nat
  /\ playing (world (step (setIsLoading false) c)) = [].
Proof.
  intro c. split; [reflexivity |].
  exact (proj1 (proj2 (loading_stops c
                         (reachable_run _ _
                            (reach_mount noOptions plainNavigator plainWindow
                                         page eq_refl))))).
Defined.

(* ================================================================== *)
(** * Ripples, their timers and the shared keyframes *)

Lemma recommit_page c o h : pageOf (world (recommit c o h)) = pageOf (world c).
Proof. apply commit_page. Qed.

Lemma setState_page f b c : pageOf (world (setState f b c)) = pageOf (world c).
Proof.
  unfold setState.
  destruct (negb (mounted c) || Bool.eqb (getFlag f (hook c)) b);
    [reflexivity | apply recommit_page].
Qed.

Lemma unmountEffects_page h w : pageOf (snd (unmountEffects h w)) = pageOf w.
Proof.
  unfold unmountEffects. cbn [snd]. rewrite unmount_gpu_detached.
  destruct (loadingCleanup_frame (loadingEffectCell h) (set_attached false w))
    as (P & _).
  rewrite P. reflexivity.
Qed.

Lemma pointer_page c ev :
  pointerEvent ev = true -> pageOf (world (step ev c)) = pageOf (world c).
Proof.
  destruct ev; cbn [pointerEvent]; intro P; try discriminate P; cbn [step].
  - destruct (tiltListeners (hook c)) as [td|]; [destruct overElement |];
      cbn [hook withWorld];
      destruct (magneticListeners (hook c)) as [md|]; cbn [world withWorld];
      try reflexivity;
      unfold MagneticEffect.handleMouseMove;
      match goal with |- context [if ?b then _ else _] => destruct b end;
      reflexivity.
  - destruct (magneticListeners (hook c)); cbn [hook withWorld];
      destruct (tiltListeners (hook c)); reflexivity.
Qed.

(** Every event but a click, a timer and a layout leaves the box, the ripple
    spans, the keyframes style and the timers alone. *)
Lemma step_page ev c :
  (forall e, ev <> onClick e) -> (forall k, ev <> timeout k) ->
  (forall r, ev <> layout r) ->
  pageOf (world (step ev c)) = pageOf (world c).
Proof.
  intros N1 N2 N3. destruct ev; cbn [step]; try apply setState_page.
  - exfalso. apply (N1 e). reflexivity.
  - destruct (mounted c); [apply recommit_page | reflexivity].
  - destruct (mounted c); [apply unmountEffects_page | reflexivity].
  - apply (pointer_page c (mousemove e overElement)). reflexivity.
  - apply (pointer_page c mouseleave). reflexivity.
  - exfalso. apply (N2 node). reflexivity.
  - reflexivity.
  - exfalso. apply (N3 r). reflexivity.
Qed.

Lemma pageOf_keyframes w1 w2 :
  pageOf w1 = pageOf w2 -> rippleKeyframes w1 = rippleKeyframes w2.
Proof. unfold pageOf. intro H. inversion H. reflexivity. Qed.

Lemma pageOf_ripples w1 w2 :
  pageOf w1 = pageOf w2 -> children w1 = children w2 /\ timers w1 = timers w2.
Proof. unfold pageOf. intro H. inversion H. split; reflexivity. Qed.

Lemma step_keyframes ev c s :
  rippleKeyframes (world c) = Some s -> rippleKeyframes (world (step ev c)) = Some s.
Proof.
  intro K.
  assert (D : (exists e, ev = onClick e) \/ (exists k, ev = timeout k)
              \/ (exists r, ev = layout r)
              \/ ((forall e, ev <> onClick e) /\ (forall k, ev <> timeout k)
                  /\ (forall r, ev <> layout r))).
  { destruct ev;
      try (right; right; right; repeat split; intros x H; discriminate H).
    - left. eexists. reflexivity.
    - right. left. eexists. reflexivity.
    - right. right. left. eexists. reflexivity. }
  destruct D as [[e ->] | [[k ->] | [[r ->] | (N1 & N2 & N3)]]].
  - cbn [step]. destruct (mounted c); [| exact K].
    cbn [withWorld world]. unfold handleClick, createRipple.
    destruct (truthy_str _), (attached (world c)); cbn; try exact K.
    rewrite K. exact K.
  - cbn [step withWorld world]. unfold fireTimer.
    destruct (existsb _ _); exact K.
  - exact K.
  - rewrite (pageOf_keyframes _ _ (step_page ev c N1 N2 N3)). exact K.
Qed.

(** X12.  The shared [ripple-keyframes] style is created by the first ripple
    and never again: on a page without it, a click that spawns a ripple
    creates it with the ripple scale of the options then rendered; once it
    exists, no sequence of events replaces or removes it, so later ripples
    animate to that first scale even after the options change. *)
Theorem ripple_keyframes_created_once :
  forall (c : Controller) (e : MouseEvent),
    (mounted c = true -> attached (world c) = true ->
     truthy_str (Ripple.color (rippleDefaults (resolve (options c)))) = true ->
     rippleKeyframes (world c) = None ->
     rippleKeyframes (world (step (onClick e) c))
     = Some (Ripple.scale (rippleDefaults (resolve (options c)))))
    /\ (forall s evs,
          rippleKeyframes (world c) = Some s ->
          rippleKeyframes (world (run evs c)) = Some s).
Proof.
  intros c e. split.
  - intros M Ha Hc K. cbn [step]. rewrite M. cbn [withWorld world].
    unfold handleClick, createRipple. rewrite Hc, Ha. cbn. rewrite K. reflexivity.
  - intros s evs. revert c. induction evs as [| ev evs IH]; intros c K; [exact K |].
    cbn [run fold_left]. apply IH, step_keyframes, K.
Qed.

Lemma ripple_keyframes_created_once_witness :
  let c := mount noOptions plainNavigator plainWindow page in
  rippleKeyframes (world (step (onClick centre) c)) = Some 2
  /\ rippleKeyframes
       (world (run [rerender (rippleWith "red" 300 5); onClick centre; unmount]
                   (step (onClick centre) c)))
     = Some 2.
Proof.
  intro c.
  pose proof (ripple_keyframes_created_once c centre) as H.
  destruct H as (H1 & _).
  pose proof (ripple_keyframes_created_once (step (onClick centre) c) centre) as H'.
  destruct H' as (_ & H2).
  split.
  - exact (H1 eq_refl eq_refl eq_refl eq_refl).
  - apply H2. exact (H1 eq_refl eq_refl eq_refl eq_refl).
Defined.

Lemma Forall2_filter {A B : Type} (R : A -> B -> Prop) (f : A -> bool) (g : B -> bool)
    (l : list A) (m : list B) :
  (forall a b, R a b -> f a = g b) ->
  Forall2 R l m -> Forall2 R (filter f l) (filter g m).
Proof.
  intros E H. induction H as [| a b l m Rab H IH]; [constructor |].
  cbn [filter]. rewrite (E a b Rab). destruct (g b); [constructor; assumption | exact IH].
Qed.

Lemma Forall2_snoc {A B : Type} (R : A -> B -> Prop) l m a b :
  Forall2 R l m -> R a b -> Forall2 R (l ++ [a]) (m ++ [b]).
Proof.
  intros H Rab. apply Forall2_app; [exact H | constructor; [exact Rab | constructor]].
Qed.

Lemma ripplesTimed_no_timer k w :
  ripplesTimed w ->
  existsb (fun t => Nat.eqb (timer_node t) k) (timers w) = false ->
  filter (fun n => negb (Nat.eqb (node_id n) k)) (children w) = children w.
Proof.
  unfold ripplesTimed. intros H. induction H as [| n t l m [I _] H IH]; [reflexivity |].
  cbn [existsb filter]. intro E. apply Bool.orb_false_iff in E. destruct E as [E1 E2].
  rewrite I, E1. cbn [negb]. f_equal. apply IH, E2.
Qed.

Lemma fireTimer_filters k w :
  ripplesTimed w ->
  children (fireTimer k w)
  = filter (fun n => negb (Nat.eqb (node_id n) k)) (children w)
  /\ timers (fireTimer k w)
     = filter (fun t => negb (Nat.eqb (timer_node t) k)) (timers w).
Proof.
  intro H. unfold fireTimer.
  destruct (existsb (fun t => Nat.eqb (timer_node t) k) (timers w)) eqn:E.
  - split; reflexivity.
  - split.
    + symmetry. apply ripplesTimed_no_timer; assumption.
    + symmetry. apply filter_keeps_all. intros t Ht.
      apply Bool.negb_true_iff.
      destruct (Nat.eqb (timer_node t) k) eqn:Et; [| reflexivity].
      assert (X : existsb (fun t => Nat.eqb (timer_node t) k) (timers w) = true)
        by (apply existsb_exists; exists t; split; assumption).
      rewrite X in E. discriminate E.
Qed.

Lemma fireTimer_ripplesTimed k w : ripplesTimed w -> ripplesTimed (fireTimer k w).
Proof.
  intro H. destruct (fireTimer_filters k w H) as [C T].
  unfold ripplesTimed. rewrite C, T.
  apply Forall2_filter; [| exact H].
  intros n t [I _]. rewrite I. reflexivity.
Qed.

Lemma handleClick_ripplesTimed r e w :
  ripplesTimed w -> ripplesTimed (handleClick r e w).
Proof.
  intro H. unfold handleClick.
  destruct (truthy_str (Ripple.color (rippleDefaults r))) eqn:Hc; [| exact H].
  destruct (attached w) eqn:Ha.
  - pose proof (handleClick_spawns r e w Ha Hc) as (C & T & _).
    unfold handleClick in C, T. rewrite Hc in C, T.
    unfold ripplesTimed. rewrite C, T.
    apply Forall2_snoc; [exact H |].
    split; [reflexivity |]. unfold rippleFor. cbn [cssText timer_delay].
    do 4 eexists. reflexivity.
  - unfold createRipple. rewrite Ha. exact H.
Qed.

Lemma step_ripplesTimed ev c :
  ripplesTimed (world c) -> ripplesTimed (world (step ev c)).
Proof.
  intro H.
  assert (P : forall w, pageOf w = pageOf (world c) -> ripplesTimed w).
  { intros w E. destruct (pageOf_ripples _ _ E) as [C T].
    unfold ripplesTimed. rewrite C, T. exact H. }
  destruct ev; cbn [step];
    try (apply P, setState_page).
  - destruct (mounted c); [| exact H]. apply handleClick_ripplesTimed, H.
  - destruct (mounted c); [apply P, recommit_page | exact H].
  - destruct (mounted c); [apply P, unmountEffects_page | exact H].
  - apply P, (pointer_page c (mousemove e overElement)). reflexivity.
  - apply P, (pointer_page c mouseleave). reflexivity.
  - apply fireTimer_ripplesTimed, H.
  - exact H.
  - exact H.
Qed.

Lemma run_ripplesTimed evs :
  forall c, ripplesTimed (world c) -> ripplesTimed (world (run evs c)).
Proof.
  induction evs as [| ev evs IH]; intros c M; [exact M |].
  cbn [run fold_left]. apply IH, step_ripplesTimed, M.
Qed.

Lemma mount_ripplesTimed o nav win w :
  ripplesTimed w -> ripplesTimed (world (mount o nav win w)).
Proof.
  intro H.
  destruct (pageOf_ripples _ _ (commit_page o nav win initialHook w)) as [C T].
  unfold ripplesTimed.
  change (world (mount o nav win w)) with (snd (commit o nav win initialHook w)).
  rewrite C, T. exact H.
Qed.

(** X13.  Ripple spans and removal timers stay paired: if on the page the
    hook is mounted on every ripple span has its timer (same identity, in the
    same order, the delay equal to the span's animation duration), then this
    holds after every sequence of events: clicks add a span together with its
    timer, a firing timer removes both, and nothing else touches either. *)
Theorem ripples_stay_timed :
  forall (o : MicroInteractionOptions) (nav : Navigator) (win : Window)
         (w : World) (evs : list Event),
    ripplesTimed w ->
    ripplesTimed (world (run evs (mount o nav win w))).
Proof.
  intros o nav win w evs H. apply run_ripplesTimed, mount_ripplesTimed, H.
Qed.

Lemma ripples_stay_timed_witness :
  let c := run [onClick centre; onMouseEnter; onClick (mkMouse 10 10); timeout 0]
               (mount noOptions plainNavigator plainWindow page) in
  ripplesTimed (world c)
  /\ map node_id (children (world c)) = [1%nat]
  /\ timers (world c) = [mkTimer 600 1].
Proof.
  intro c. split.
  - apply ripples_stay_timed. constructor.
  - split; reflexivity.
Defined.

Lemma fire_all ks :
  forall w,
    ripplesTimed w ->
    (forall t, In t (timers w) -> In (timer_node t) ks) ->
    children (fold_left (fun w k => fireTimer k w) ks w) = []
    /\ timers (fold_left (fun w k => fireTimer k w) ks w) = [].
Proof.
  induction ks as [| k ks IH]; intros w H A.
  - cbn [fold_left]. unfold ripplesTimed in H.
    destruct (timers w) as [| t m] eqn:T.
    + inversion H. split; reflexivity.
    + exfalso. apply (A t). left. reflexivity.
  - cbn [fold_left]. apply IH; [apply fireTimer_ripplesTimed, H |].
    intros t Ht. destruct (fireTimer_filters k w H) as [_ Tm].
    rewrite Tm in Ht. apply filter_In in Ht. destruct Ht as [Ht Nk].
    destruct (A t Ht) as [E | I]; [| exact I].
    rewrite <- E, Nat.eqb_refl in Nk. discriminate Nk.
Qed.

Lemma run_timeouts ks c :
  world (run (map timeout ks) c)
  = fold_left (fun w k => fireTimer k w) ks (world c).
Proof.
  revert c. induction ks as [| k ks IH]; intro c; [reflexivity |].
  cbn [map run fold_left]. apply (IH (step (timeout k) c)).
Qed.

(** X14.  Every ripple removes itself: on a page where the spans and timers
    are paired, once each pending timer has fired (in the order they were
    set) no ripple span and no timer is left, whether or not the hook is still
    mounted. *)
Theorem ripples_all_removed :
  forall c : Controller,
    ripplesTimed (world c) ->
    let c' := run (map timeout (map timer_node (timers (world c)))) c in
    children (world c') = [] /\ timers (world c') = [].
Proof.
  intros c H c'. unfold c'. rewrite run_timeouts.
  apply fire_all; [exact H |].
  intros t Ht. apply in_map. exact Ht.
Qed.

Lemma ripples_all_removed_witness :
  let c := run [onClick centre; onClick (mkMouse 10 10); unmount]
               (mount noOptions plainNavigator plainWindow page) in
  List.length (children (world c)) = 2%nat
  /\ children (world (run [timeout 0; timeout 1] c)) = [].
Proof.
  intro c. split; [reflexivity |].
  assert (T : ripplesTimed (world c)).
  { apply run_ripplesTimed, mount_ripplesTimed. constructor. }
  exact (proj1 (ripples_all_removed c T)).
Defined.

(* ================================================================== *)
(** * Pointer events with both listeners registered *)

Lemma magneticMove_transform md e w1 w2 :
  rect w1 = rect w2 ->
  CSS.transform (style (MagneticEffect.handleMouseMove md e w1))
  = CSS.transform (style (MagneticEffect.handleMouseMove md e w2)).
Proof.
  intro E. unfold MagneticEffect.handleMouseMove. rewrite E. cbv zeta.
  match goal with |- context [if ?b then _ else _] => destruct b end; reflexivity.
Qed.

Lemma magneticMove_transition md e w :
  CSS.transition (style (MagneticEffect.handleMouseMove md e w))
  = CSS.transition (style w).
Proof.
  unfold MagneticEffect.handleMouseMove. cbv zeta.
  match goal with |- context [if ?b then _ else _] => destruct b end; reflexivity.
Qed.

(** X15.  A mouse move over the element reaches the tilt listener (on the
    element) before the magnetic listener (on the document), and both assign
    the transform.  So whenever the magnetic listener is registered, the
    transform after a mouse move is the magnetic translation, with or without
    tilt: the tilt rotation is overwritten at once and only its transition
    stays.  On mouse leave the order is the other way round, and the tilt
    reset is what remains. *)
Theorem magnetic_overwrites_tilt :
  forall (c : Controller) (e : MouseEvent) (over : bool) (md : Magnetic.t Full),
    magneticListeners (hook c) = Some md ->
    CSS.transform (style (world (step (mousemove e over) c)))
    = CSS.transform (style (MagneticEffect.handleMouseMove md e (world c)))
    /\ (forall td, tiltListeners (hook c) = Some td -> over = true ->
        CSS.transition (style (world (step (mousemove e over) c)))
        = [Lit "transform "; Num (Tilt.speed td); Lit "ms ease-out"])
    /\ (forall td, tiltListeners (hook c) = Some td ->
        CSS.transform (style (world (step mouseleave c)))
        = lit "perspective(1000px) rotateX(0deg) rotateY(0deg) scale(1)")
    /\ (tiltListeners (hook c) = None ->
        CSS.transform (style (world (step mouseleave c))) = lit "translate(0, 0)").
Proof.
  intros c e over md M. split; [| split; [| split]].
  - cbn [step]. cbv zeta.
    destruct (tiltListeners (hook c)) as [td|]; [destruct over |];
      cbn [hook withWorld]; rewrite M; cbn [world withWorld];
      try reflexivity.
    apply magneticMove_transform. reflexivity.
  - intros td T ->. cbn [step]. cbv zeta. rewrite T. cbn [hook withWorld].
    rewrite M. cbn [world withWorld]. rewrite magneticMove_transition. reflexivity.
  - intros td T. cbn [step]. cbv zeta. rewrite M. cbn [hook withWorld].
    rewrite T. reflexivity.
  - intro T. cbn [step]. cbv zeta. rewrite M. cbn [hook withWorld].
    rewrite T. reflexivity.
Qed.

Lemma magnetic_overwrites_tilt_witness :
  let c := mount noOptions plainNavigator plainWindow page in
  CSS.transform (style (world (step (mousemove (mkMouse 53 24) true) c)))
  = [Lit "translate("; Num 28.5; Lit "px, "; Num 38; Lit "px)"]
  /\ CSS.transition (style (world (step (mousemove (mkMouse 53 24) true) c)))
     = [Lit "transform "; Num 400; Lit "ms ease-out"].
Proof.
  intro c.
  pose proof (magnetic_overwrites_tilt c (mkMouse 53 24) true
                (Magnetic.mk Full 0.5 100) eq_refl) as H.
  destruct H as (T & R & _).
  split; [rewrite T; vm_compute; reflexivity |].
  exact (R (Tilt.mk Full 10 1.02 400) eq_refl eq_refl).
Defined.

(* ================================================================== *)
(** * Repeated handlers and repeated renders *)

Lemma getFlag_putFlag f b h : getFlag f (putFlag f b h) = b.
Proof. destruct f; reflexivity. Qed.

Lemma setState_twice f b c : setState f b (setState f b c) = setState f b c.
Proof.
  destruct (negb (mounted c) || Bool.eqb (getFlag f (hook c)) b) eqn:E.
  - assert (S : setState f b c = c) by (unfold setState; rewrite E; reflexivity).
    rewrite S. exact S.
  - assert (S : setState f b c = recommit c (options c) (putFlag f b (hook c)))
      by (unfold setState; rewrite E; reflexivity).
    rewrite S. unfold setState.
    change (mounted (recommit c (options c) (putFlag f b (hook c)))) with true.
    change (getFlag f (hook (recommit c (options c) (putFlag f b (hook c)))))
      with (getFlag f (putFlag f b (hook c))).
    rewrite getFlag_putFlag, Bool.eqb_reflx. reflexivity.
Qed.

(** X16.  Each handler the hook returns is idempotent: calling it again
    right away (a second enter, leave, focus, blur, down, up, or
    [setIsLoading] with the same value) finds the flag already set and causes
    no commit, so nothing on the page changes, no animation restarts and
    nothing vibrates a second time. *)
Theorem handlers_are_idempotent :
  forall (ev : Event) (c : Controller),
    handlerOf ev <> None ->
    step ev (step ev c) = step ev c.
Proof.
  intros ev c H.
  destruct ev; cbn [handlerOf] in H; try (exfalso; apply H; reflexivity);
    cbn [step]; apply setState_twice.
Qed.

Lemma handlers_are_idempotent_witness :
  let c := mount noOptions plainNavigator plainWindow page in
  step onMouseDown (step onMouseDown c) = step onMouseDown c.
Proof.
  intro c. apply handlers_are_idempotent. discriminate.
Defined.

Lemma styleEffects_again r nav tier hv hv' fc pr reduce w :
  (reduce = true \/ hv' = hv) ->
  agree (styleEffects r nav reduce tier hv' fc pr
           (styleEffects r nav reduce tier hv fc pr w))
        (styleEffects r nav reduce tier hv fc pr w).
Proof.
  intro H.
  destruct (styleEffects_view r nav reduce tier hv fc pr w) as (A & T & F & R & B).
  destruct (styleEffects_view r nav reduce tier hv' fc pr
              (styleEffects r nav reduce tier hv fc pr w)) as (A' & T' & F' & R' & B').
  cbv zeta in *. unfold agree. rewrite A', T', F', R', B', A, T, F, R, B.
  destruct H as [-> | ->].
  - destruct (attached w), fc, pr, (Focus.glow (focusDefaults r)); repeat split.
  - destruct (attached w), reduce, hv, fc, pr, (Focus.glow (focusDefaults r));
      repeat split.
Qed.

(** X17.  A re-render with the same options and the same state assigns the
    same values again: transform, filter, transition and box shadow after it
    are exactly what they were after the previous commit. *)
Theorem rerender_rewrites_same_style :
  forall (c0 : Controller) (o : MicroInteractionOptions) (h : HookState),
    let c := recommit c0 o h in
    agree (world (step (rerender o) c)) (world c).
Proof.
  intros c0 o h c. cbn [step].
  change (mounted c) with true. cbv iota.
  pose proof (recommit_agree c o (hook c)) as K.
  change (memoReduce o (window c) (hook c))
    with (memoReduce o (window c0) (hook (recommit c0 o h))) in K.
  change (memoTier o (navigator c) (hook c))
    with (memoTier o (navigator c0) (hook (recommit c0 o h))) in K.
  rewrite recommit_memoReduce, recommit_memoTier in K.
  change (isHovered (hook c)) with (isHovered h) in K.
  change (isFocused (hook c)) with (isFocused h) in K.
  change (isActive (hook c)) with (isActive h) in K.
  change (navigator c) with (navigator c0) in K.
  eapply agree_trans; [exact K |].
  pose proof (recommit_agree c0 o h) as K0. fold c in K0.
  eapply agree_trans; [apply styleEffects_agree, K0 |].
  eapply agree_trans; [apply styleEffects_again; right; reflexivity |].
  apply agree_sym, K0.
Qed.

(** X18.  Under reduced motion hovering is inert: right after a commit with
    the reduce-motion flag set, entering or leaving the element changes none
    of transform, filter, transition and box shadow. *)
Theorem hover_is_inert_under_reduced_motion :
  forall (c0 : Controller) (o : MicroInteractionOptions) (h0 : HookState) (b : bool),
    memoReduce o (window c0) h0 = true ->
    let c := recommit c0 o h0 in
    agree (world (step (if b then onMouseEnter else onMouseLeave) c)) (world c).
Proof.
  intros c0 o h0 b Hr c.
  assert (S : step (if b then onMouseEnter else onMouseLeave) c = setState Hovered b c)
    by (destruct b; reflexivity).
  rewrite S.
  destruct (Bool.eqb (isHovered h0) b) eqn:E.
  - assert (N : setState Hovered b c = c).
    { unfold setState. change (mounted c) with true.
      change (getFlag Hovered (hook c)) with (isHovered h0).
      rewrite E. reflexivity. }
    rewrite N. apply agree_refl.
  - assert (G : getFlag Hovered h0 = negb b)
      by (cbn [getFlag]; destruct (isHovered h0), b; try discriminate E; reflexivity).
    destruct (toggle_agree Hovered b c0 o h0 G) as (_ & K). fold c in K.
    cbn [putFlag isHovered isFocused isActive] in K. rewrite Hr in K.
    pose proof (recommit_agree c0 o h0) as K0. fold c in K0. rewrite Hr in K0.
    eapply agree_trans; [exact K |].
    eapply agree_trans; [apply styleEffects_agree, K0 |].
    eapply agree_trans; [apply styleEffects_again; left; reflexivity |].
    apply agree_sym, K0.
Qed.

Lemma hover_is_inert_under_reduced_motion_witness :
  let c := mount reducedMotion plainNavigator plainWindow page in
  agree (world (step onMouseEnter c)) (world c).
Proof.
  exact (hover_is_inert_under_reduced_motion
           (mkController reducedMotion plainNavigator plainWindow true initialHook page)
           reducedMotion initialHook true eq_refl).
Defined.

(* ================================================================== *)
(** * Without an element *)

Lemma styleEffects_detached r nav reduce tier hv fc pr w :
  attached w = false -> styleEffects r nav reduce tier hv fc pr w = w.
Proof.
  intro A. unfold styleEffects, activeEffect, focusEffect, applyHoverEffects.
  rewrite A. cbn [negb orb]. rewrite A. cbn [negb]. rewrite A. reflexivity.
Qed.

Lemma gpuStage_detached o nav h w :
  attached w = false ->
  gpuStage o nav h w = loadingCleanup (loadingEffectCell h) w.
Proof.
  intro A.
  assert (S : forall g t x, attached x = false -> setupGPUOptimization g t x = x).
  { intros g t x Ax. unfold setupGPUOptimization. rewrite Ax. reflexivity. }
  assert (C : forall g, gpuCleanup g w = w).
  { intro g. unfold gpuCleanup. rewrite A. reflexivity. }
  assert (L : attached (loadingCleanup (loadingEffectCell h) w) = false).
  { destruct (loadingCleanup_frame (loadingEffectCell h) w) as (_ & _ & _ & A' & _).
    rewrite A'. exact A. }
  unfold gpuStage. destruct (gpuEffect h) as [[g t]|].
  - destruct (Bool.eqb g (r_gpu (resolve o)) && String.eqb t (memoTier o nav h));
      [reflexivity |].
    rewrite C. apply S, L.
  - apply S, L.
Qed.

Lemma commit_listeners o nav win h w :
  magneticListeners (fst (commit o nav win h w))
  = MagneticEffect.effect (resolve o)
      (styleEffects (resolve o) nav (memoReduce o win h) (memoTier o nav h)
                    (isHovered h) (isFocused h) (isActive h) (gpuStage o nav h w))
  /\ tiltListeners (fst (commit o nav win h w))
     = TiltEffect.effect (resolve o)
         (styleEffects (resolve o) nav (memoReduce o win h) (memoTier o nav h)
                       (isHovered h) (isFocused h) (isActive h) (gpuStage o nav h w)).
Proof.
  unfold commit, gpuStage, styleEffects. cbn [fst magneticListeners tiltListeners].
  destruct (gpuEffect h) as [[g t]|]; [| split; reflexivity].
  destruct (Bool.eqb g (r_gpu (resolve o)) && String.eqb t (memoTier o nav h));
    split; reflexivity.
Qed.

(** X19.  Every effect is guarded by the ref.  A commit made while no
    element is attached only runs the pending loading clean-up: it writes no
    style, starts no animation, never vibrates, and registers neither the
    magnetic nor the tilt listener, whatever the options and flags are. *)
Theorem commit_without_element :
  forall (c : Controller) (o : MicroInteractionOptions) (h : HookState),
    attached (world c) = false ->
    let c' := recommit c o h in
    world c' = loadingCleanup (loadingEffectCell h) (world c)
    /\ style (world c') = style (world c)
    /\ vibrations (world c') = vibrations (world c)
    /\ List.length (animations (world c')) = List.length (animations (world c))
    /\ loadingEffectCell (hook c') = None
    /\ magneticListeners (hook c') = None
    /\ tiltListeners (hook c') = None.
Proof.
  intros c o h A c'.
  assert (G : gpuStage o (navigator c) h (world c)
              = loadingCleanup (loadingEffectCell h) (world c))
    by (apply gpuStage_detached, A).
  assert (A' : attached (loadingCleanup (loadingEffectCell h) (world c)) = false).
  { destruct (loadingCleanup_frame (loadingEffectCell h) (world c))
      as (_ & _ & _ & E & _). rewrite E. exact A. }
  assert (W : world c' = loadingCleanup (loadingEffectCell h) (world c)).
  { change (world c') with (snd (commit o (navigator c) (window c) h (world c))).
    rewrite commit_snd, G, (styleEffects_detached _ _ _ _ _ _ _ _ A').
    unfold loadingEffect. rewrite A'. reflexivity. }
  destruct (loadingCleanup_frame (loadingEffectCell h) (world c))
    as (_ & S & V & _ & _).
  split; [exact W |]. rewrite W.
  split; [exact S |]. split; [exact V |].
  split.
  { destruct (loadingEffectCell h); cbn [loadingCleanup]; [| reflexivity].
    unfold cancel. cbn [animations set_animations]. apply length_map. }
  change (hook c') with (fst (commit o (navigator c) (window c) h (world c))).
  destruct (commit_listeners o (navigator c) (window c) h (world c)) as (M & T).
  rewrite commit_cell, M, T, G, (styleEffects_detached _ _ _ _ _ _ _ _ A').
  unfold loadingEffect, MagneticEffect.effect, TiltEffect.effect. rewrite A'.
  repeat split.
Qed.

Lemma commit_without_element_witness :
  let c := step (refChange false)
             (step (setIsLoading true)
                (mount noOptions plainNavigator plainWindow page)) in
  playing (world (step onMouseEnter c)) = []
  /\ magneticListeners (hook (step onMouseEnter c)) = None
  /\ style (world (step onMouseEnter c)) = style (world c).
Proof.
  intro c.
  pose proof (commit_without_element c noOptions
                (putFlag Hovered true (hook c)) eq_refl) as H.
  cbv zeta in H. destruct H as (_ & S & _ & _ & _ & M & _).
  split; [reflexivity |]. split; [exact M | exact S].
Defined.
